(** * MoodMelt dashboard: header normalisation, record cleaning, aggregates

    A shallow embedding of the data core of [MoodMeltDashboardApp.py]:
    [normalize_column_name], [process_csv], the insight functions
    [get_engagement_insights], [get_location_insights], the aggregate handed to
    the chart by [create_location_bar_chart], and [get_overall_recommendations].

    Conventions of the embedding.
    - A Python [str] is a [string]; each character stands for one code point
      below 256, so [str.isspace] and [str.lower] are tabulated on that range.
    - A call that may raise returns a [result]; the exceptions met on the
      paths modelled are [AttributeError] and [ValueError].
    - Integers are [Z].  The engagements column is an int64 column: a sum
      over it is the exact sum reduced modulo 2^64 into the int64 range
      ([wrap64]).  The doubles of the trend rule and of the daily mean are
      IEEE binary64 values of [SpecFloat].
    - A frame is the list of its rows; a Series is the list of its
      (label, value) pairs in index order.  [sort_values] does not say in
      which order it leaves entries of equal value; the embedding keeps them
      in their incoming order, and the statements about sorted Series speak
      of some entry of largest or smallest value, not of which one.
    - The templated sentences are constructors of [Insight] and
      [Recommendation], carrying the interpolated values. *)

From Stdlib Require Import List ZArith Bool Ascii String Lia.
From Stdlib Require Import Permutation Sorted SpecFloat DecimalString.
Import ListNotations.

Local Open Scope string_scope.
Local Open Scope Z_scope.

(** ** Python strings *)

(** Code point of a character. *)
Definition code (c : ascii) : N := N_of_ascii c.

(** [str.isspace] on one character: the twelve whitespace code points below 256. *)
Definition is_space (c : ascii) : bool :=
  let n := code c in
  ((9 <=? n) && (n <=? 13) || (28 <=? n) && (n <=? 32)
   || (n =? 133) || (n =? 160))%N.

(** [str.lower] on one character: A-Z and the Latin-1 capitals (all of
    0xC0-0xDE but the multiplication sign 0xD7) move up by 32. *)
Definition lower_char (c : ascii) : ascii :=
  let n := code c in
  if ((65 <=? n) && (n <=? 90)
      || (192 <=? n) && (n <=? 222) && negb (n =? 215))%N
  then ascii_of_N (n + 32) else c.

Fixpoint lower (s : string) : string :=
  match s with
  | EmptyString => EmptyString
  | String c s' => String (lower_char c) (lower s')
  end.

Fixpoint lstrip (s : string) : string :=
  match s with
  | EmptyString => EmptyString
  | String c s' => if is_space c then lstrip s' else s
  end.

Fixpoint rstrip (s : string) : string :=
  match s with
  | EmptyString => EmptyString
  | String c s' =>
      match rstrip s' with
      | EmptyString => if is_space c then EmptyString else String c EmptyString
      | r => String c r
      end
  end.

(** [s.strip()] *)
Definition strip (s : string) : string := rstrip (lstrip s).

(** [s.replace(c, '')] for a one-character pattern: every occurrence goes. *)
Fixpoint replace_char (c : ascii) (s : string) : string :=
  match s with
  | EmptyString => EmptyString
  | String a s' =>
      if Ascii.eqb a c then replace_char c s' else String a (replace_char c s')
  end.

(** ** Header normaliser *)

(** [name.strip().lower().replace(' ', '').replace('-', '').replace('_', '')] *)
Definition normalize_column_name (name : string) : string :=
  replace_char "_" (replace_char "-" (replace_char " " (lower (strip name)))).

(** The normalised header as the data model words it: lowercase, with all
    spaces, hyphens and underscores removed. *)
Definition is_separator (c : ascii) : bool :=
  Ascii.eqb c " " || Ascii.eqb c "-" || Ascii.eqb c "_".

Fixpoint drop_separators (s : string) : string :=
  match s with
  | EmptyString => EmptyString
  | String c s' =>
      if is_separator c then drop_separators s' else String c (drop_separators s')
  end.

Definition lowercase_without_separators (s : string) : string :=
  drop_separators (lower s).

(** Two headers differ only in letter case and in spaces, hyphens and
    underscores: one is read along the other, a separator may be skipped on
    either side, and two characters read together are the same up to case. *)
Inductive same_up_to_case_and_separators : string -> string -> Prop :=
| same_empty : same_up_to_case_and_separators "" ""
| same_skip_left (c : ascii) (s1 s2 : string) :
    is_separator c = true ->
    same_up_to_case_and_separators s1 s2 ->
    same_up_to_case_and_separators (String c s1) s2
| same_skip_right (c : ascii) (s1 s2 : string) :
    is_separator c = true ->
    same_up_to_case_and_separators s1 s2 ->
    same_up_to_case_and_separators s1 (String c s2)
| same_letter (a b : ascii) (s1 s2 : string) :
    lower_char a = lower_char b ->
    same_up_to_case_and_separators s1 s2 ->
    same_up_to_case_and_separators (String a s1) (String b s2).

(** The only whitespace in [s] is the plain space. *)
Fixpoint only_plain_spaces (s : string) : bool :=
  match s with
  | EmptyString => true
  | String c s' => (negb (is_space c) || Ascii.eqb c " ") && only_plain_spaces s'
  end.

Definition tab : ascii := ascii_of_N 9.

(** ** Exceptions *)

Inductive exn : Type :=
| AttributeError
| ValueError.

Inductive result (A : Type) : Type :=
| Ok (a : A)
| Raise (e : exn).

Arguments Ok {A} a.
Arguments Raise {A} e.

Definition bind {A B} (c : result A) (k : A -> result B) : result B :=
  match c with
  | Ok a => k a
  | Raise e => Raise e
  end.

Notation "x <- c ;; k" := (bind c (fun x => k))
  (at level 61, c at next level, right associativity).

(** ** Raw table *)

(** One cell as [iterrows] hands it to the loop: [None] (a synthesised
    column), text, an integer, a float (an empty CSV cell is the float nan)
    or a boolean. *)
Inductive Value : Type :=
| VNone
| VStr (s : string)
| VInt (z : Z)
| VFloat (f : spec_float)
| VBool (b : bool).

(** The uploaded frame: header texts and rows, each row as wide as the header. *)
Record DataFrame : Type := {
  columns : list string;
  rows : list (list Value)
}.

(** [df.empty]: some axis has length 0. *)
Definition df_empty (df : DataFrame) : bool :=
  match columns df, rows df with
  | [], _ => true
  | _, [] => true
  | _, _ => false
  end.

(** [pd.notna] on a scalar *)
Definition notna (v : Value) : bool :=
  match v with
  | VNone => false
  | VFloat S754_nan => false
  | _ => true
  end.

(** What [row.get(col)] returns once the headers are normalised and the
    missing expected columns are added as all-[None] columns: the cell when one
    header bears the label, a Series of the cells when several do. *)
Inductive Lookup : Type :=
| One (v : Value)
| Many (vs : list Value).

(** The cells of a row under one label. *)
Definition cells (cols : list string) (row : list Value) (col : string) : list Value :=
  map snd (filter (fun p => String.eqb (fst p) col) (combine cols row)).

Definition row_get (cols : list string) (row : list Value) (col : string) : Lookup :=
  match cells cols row col with
  | [] => One VNone
  | [v] => One v
  | vs => Many vs
  end.

(** [present(value) if pd.notna(value) else absent].  On a Series [pd.notna]
    gives a Series of booleans, and taking its truth value raises
    [ValueError]. *)
Definition if_notna {A} (value : Lookup) (present : Value -> result A) (absent : A)
  : result A :=
  match value with
  | Many _ => Raise ValueError
  | One v => if notna v then present v else Ok absent
  end.

(** ** Clean records *)

(** A pandas Timestamp without time zone: nanoseconds since the epoch. *)
Definition Timestamp : Type := Z.

Record CleanRecord : Type := {
  date : option Timestamp;     (* [None]: the missing-date marker (None / NaT) *)
  platform : string;
  sentiment : string;
  location : string;
  engagements : Z;
  mediatype : string
}.

Definition string_of_Z (z : Z) : string :=
  DecimalString.NilZero.string_of_int (Z.to_int z).

(** [normalized_headers = [normalize_column_name(col) for col in df.columns]] *)
Definition normalized_headers (df : DataFrame) : list string :=
  map normalize_column_name (columns df).

(** The three library conversions that the cleaner calls on a cell. *)
Record Pandas : Type := {
  (** [pd.to_datetime(v, errors='coerce')] on a scalar that is not missing:
      a Timestamp, or [None] for NaT. *)
  to_datetime : Value -> option Timestamp;
  (** What [pd.to_numeric(s, errors='coerce')] makes of a text cell: an
      integer, a float, or the float nan when [s] is not a number. *)
  parse_numeric : string -> Value;
  (** [str(x)] for a float [x]. *)
  float_str : spec_float -> string
}.

Section RecordCleaner.

Variable pd : Pandas.

(** [str(value)] *)
Definition py_str (v : Value) : string :=
  match v with
  | VNone => "None"
  | VStr s => s
  | VInt z => string_of_Z z
  | VFloat f => float_str pd f
  | VBool true => "True"
  | VBool false => "False"
  end.

(** [pd.to_numeric(value, errors='coerce')] on a scalar: a number is
    returned as it is, anything else is parsed; the result is again a
    scalar. *)
Definition to_numeric (v : Value) : Value :=
  match v with
  | VInt _ | VFloat _ | VBool _ => v
  | VStr s => parse_numeric pd s
  | VNone => VFloat S754_nan
  end.

(** [x.fillna(0).astype(int)] where [x] is the scalar that [to_numeric]
    returned.  [fillna] is a method of Series and DataFrame; a number (int,
    float, bool or a numpy number) has no such attribute, so the lookup
    raises [AttributeError] and [astype] is never reached. *)
Definition fillna_astype_int (x : Value) : result Z :=
  Raise AttributeError.

(** [pd.to_datetime(value, errors='coerce') if pd.notna(value) else None] *)
Definition clean_date (value : Lookup) : result (option Timestamp) :=
  if_notna value (fun v => Ok (to_datetime pd v)) None.

(** [pd.to_numeric(value, errors='coerce').fillna(0).astype(int)
     if pd.notna(value) else 0] *)
Definition clean_engagements (value : Lookup) : result Z :=
  if_notna value (fun v => fillna_astype_int (to_numeric v)) 0.

(** [str(value).strip() if pd.notna(value) else 'Unknown'] *)
Definition clean_text (value : Lookup) : result string :=
  if_notna value (fun v => Ok (strip (py_str v))) "Unknown".

(** The special handling of [mediatype] after the six fields are set. *)
Definition rewrite_mediatype (m : string) : string :=
  if String.eqb m "Unknown" then "Unknown Media Type" else m.

(** The body of the row loop; the fields are filled in the order of
    [expected_columns]. *)
Definition clean_row (get : string -> Lookup) : result CleanRecord :=
  d <- clean_date (get "date") ;;
  p <- clean_text (get "platform") ;;
  s <- clean_text (get "sentiment") ;;
  l <- clean_text (get "location") ;;
  e <- clean_engagements (get "engagements") ;;
  m <- clean_text (get "mediatype") ;;
  Ok {| date := d; platform := p; sentiment := s; location := l;
        engagements := e; mediatype := rewrite_mediatype m |}.

Fixpoint clean_rows (cols : list string) (rs : list (list Value))
  : result (list CleanRecord) :=
  match rs with
  | [] => Ok []
  | row :: rs' =>
      r <- clean_row (row_get cols row) ;;
      out <- clean_rows cols rs' ;;
      Ok (r :: out)
  end.

(** [process_csv]: an empty frame gives the empty frame; otherwise the
    headers are normalised and every row is cleaned. *)
Definition process_csv (df : DataFrame) : result (list CleanRecord) :=
  if df_empty df then Ok []
  else clean_rows (normalized_headers df) (rows df).

(** *** Vocabulary of the statements about the cleaner *)

(** The text a present or missing cell is cleaned to. *)
Definition cleaned_text (v : Value) : string :=
  if notna v then strip (py_str v) else "Unknown".

(** A present cell whose text, once stripped, is the literal [Unknown]. *)
Definition literally_unknown (v : Value) : bool :=
  notna v && String.eqb (strip (py_str v)) "Unknown".

(** The frame in which every mediatype cell that is literally [Unknown] is
    made absent. *)
Definition blank_unknown_mediatype_row (cols : list string) (row : list Value)
  : list Value :=
  map (fun p => if String.eqb (fst p) "mediatype" && literally_unknown (snd p)
                then VNone else snd p)
      (combine cols row).

Definition blank_unknown_mediatype (df : DataFrame) : DataFrame :=
  {| columns := columns df;
     rows := map (blank_unknown_mediatype_row (normalized_headers df)) (rows df) |}.

End RecordCleaner.

(** The three text fields with their column labels. *)
Definition text_fields : list (string * (CleanRecord -> string)) :=
  [("platform", platform); ("sentiment", sentiment); ("location", location)].

(** ** Series helpers

    The functions from here on take the cleaned frame as the list of its
    records; the dashboard calls them on a frame with at least one row. *)

(** *** 64-bit integers

    The engagements column is int64 ([astype(int)]), and so is every sum
    that pandas takes over it: the result is the exact sum reduced modulo
    2^64 into the range from [int64_min] to [int64_max]. *)

Definition int64_min : Z := -9223372036854775808.
Definition int64_max : Z := 9223372036854775807.

Definition wrap64 (z : Z) : Z :=
  (z - int64_min) mod 18446744073709551616 + int64_min.

Definition in_int64 (z : Z) : Prop := int64_min <= z <= int64_max.

(** [s.sum()] on an int64 Series. *)
Definition series_sum {K} (s : list (K * Z)) : Z :=
  fold_right (fun p acc => wrap64 (snd p + acc)) 0 s.

(** The values of a list of pairs added up exactly: the sum that the
    statements speak of. *)
Definition sum_values {K} (s : list (K * Z)) : Z :=
  fold_right (fun p acc => snd p + acc) 0 s.

(** [s.sort_values(ascending=False)]: descending by value; entries of equal
    value, which pandas may leave in any order, are kept in their incoming
    order. *)
Fixpoint insert_desc {K} (x : K * Z) (l : list (K * Z)) : list (K * Z) :=
  match l with
  | [] => [x]
  | y :: l' => if snd x <? snd y then y :: insert_desc x l' else x :: l
  end.

Definition sort_values_desc {K} (s : list (K * Z)) : list (K * Z) :=
  fold_right insert_desc [] s.

(** [groupby(key)[col].sum()] on the int64 column: one entry per distinct
    key, keys ascending, each with the int64 sum of its group.  A value of
    the column is an int64 already, so [wrap64] leaves the first value of a
    group as it is. *)
Section GroupBy.

Context {K : Type}.
Variable ltb eqb : K -> K -> bool.

Fixpoint add_to_group (k : K) (e : Z) (s : list (K * Z)) : list (K * Z) :=
  match s with
  | [] => [(k, wrap64 e)]
  | (k', v) :: s' =>
      if ltb k k' then (k, wrap64 e) :: s
      else if eqb k k' then (k', wrap64 (v + e)) :: s'
      else (k', v) :: add_to_group k e s'
  end.

Definition groupby_sum (rs : list (K * Z)) : list (K * Z) :=
  fold_left (fun s r => add_to_group (fst r) (snd r) s) rs [].

End GroupBy.

(** [col.value_counts()]: the distinct values in order of first appearance
    with their number of occurrences, then sorted by descending count. *)
Fixpoint count_one (k : string) (acc : list (string * Z)) : list (string * Z) :=
  match acc with
  | [] => [(k, 1)]
  | (k', n) :: acc' =>
      if String.eqb k k' then (k', n + 1) :: acc' else (k', n) :: count_one k acc'
  end.

Definition tally (xs : list string) : list (string * Z) :=
  fold_left (fun acc k => count_one k acc) xs [].

Definition value_counts (xs : list string) : list (string * Z) :=
  sort_values_desc (tally xs).

(** [counts.get(label, 0)] *)
Definition get_count (label : string) (counts : list (string * Z)) : Z :=
  match find (fun p => String.eqb (fst p) label) counts with
  | Some p => snd p
  | None => 0
  end.

(** ** Daily engagement series *)

Definition ns_per_day : Z := 86400000000000.

(** [ts.date()], as the day number since the epoch. *)
Definition dt_date (t : Timestamp) : Z := t / ns_per_day.

(** [df.dropna(subset=['date'])], keeping the two columns used afterwards. *)
Fixpoint dropna_date (df : list CleanRecord) : list (Timestamp * Z) :=
  match df with
  | [] => []
  | r :: df' =>
      match date r with
      | Some t => (t, engagements r) :: dropna_date df'
      | None => dropna_date df'
      end
  end.

(** [df_clean.sort_values('date')] *)
Fixpoint insert_by_date (x : Timestamp * Z) (l : list (Timestamp * Z))
  : list (Timestamp * Z) :=
  match l with
  | [] => [x]
  | y :: l' => if fst x <=? fst y then x :: l else y :: insert_by_date x l'
  end.

Definition sort_by_date (l : list (Timestamp * Z)) : list (Timestamp * Z) :=
  fold_right insert_by_date [] l.

(** [df_clean.groupby(df_clean['date'].dt.date)['engagements'].sum()] after
    the two steps above: the DailyEngagementSeries. *)
Definition engagements_by_date (df : list CleanRecord) : list (Z * Z) :=
  groupby_sum Z.ltb Z.eqb
    (map (fun p => (dt_date (fst p), snd p)) (sort_by_date (dropna_date df))).

(** ** Doubles *)

Definition float_of_Z (z : Z) : spec_float := binary_normalize 53 1024 z 0 false.
Definition fmul : spec_float -> spec_float -> spec_float := SFmul 53 1024.
Definition fdiv : spec_float -> spec_float -> spec_float := SFdiv 53 1024.

(** The literals [1.1] and [0.9]. *)
Definition f1_1 : spec_float := S754_finite false 0x1199999999999A (-52).
Definition f0_9 : spec_float := S754_finite false 0x1CCCCCCCCCCCCD (-53).

(** [a > x] and [a < x] for an integer [a] and a double [x]. *)
Definition int_gt_float (a : Z) (x : spec_float) : bool := SFltb x (float_of_Z a).
Definition int_lt_float (a : Z) (x : spec_float) : bool := SFltb (float_of_Z a) x.

(** ** Engagement insights *)

(** [s.max()], [s.min()] of a non-empty series given as head and tail. *)
Definition series_max (v0 : Z) (s : list (Z * Z)) : Z :=
  fold_left (fun m p => Z.max m (snd p)) s v0.

Definition series_min (v0 : Z) (s : list (Z * Z)) : Z :=
  fold_left (fun m p => Z.min m (snd p)) s v0.

(** [s.idxmax()], [s.idxmin()]: one pass that moves on only to a strictly
    better entry, so the first entry reaching the extreme is kept. *)
Fixpoint idxmax_from (best : Z * Z) (s : list (Z * Z)) : Z * Z :=
  match s with
  | [] => best
  | p :: s' => if snd best <? snd p then idxmax_from p s' else idxmax_from best s'
  end.

Fixpoint idxmin_from (best : Z * Z) (s : list (Z * Z)) : Z * Z :=
  match s with
  | [] => best
  | p :: s' => if snd p <? snd best then idxmin_from p s' else idxmin_from best s'
  end.

(** The locals of [get_engagement_insights]. *)
Record EngagementStats : Type := {
  max_engagements : Z;
  min_engagements : Z;
  max_date : Z;
  min_date : Z;
  total_engagements : Z;
  average_engagements : spec_float
}.

Definition engagement_stats (s : list (Z * Z)) : option EngagementStats :=
  match s with
  | [] => None
  | p :: s' =>
      let total := series_sum s in
      Some {| max_engagements := series_max (snd p) s';
              min_engagements := series_min (snd p) s';
              max_date := fst (idxmax_from p s');
              min_date := fst (idxmin_from p s');
              total_engagements := total;
              average_engagements :=
                fdiv (float_of_Z total) (float_of_Z (Z.of_nat (List.length s))) |}
  end.

(** The sentences of the insight lists, with the values they interpolate. *)
Inductive Insight : Type :=
| NoEngagementData                                 (* No engagement data to analyze. *)
| PeakEngagement (on : Z) (sum : Z)                (* 1. ... peak engagement happened on {max_date} with ... {max_engagements} *)
| LowestEngagement (on : Z) (sum : Z)              (* 2. Keep an eye on {min_date}, ... lowest engagements at {min_engagements} *)
| AverageEngagement (mean : spec_float)            (* 3. On average, ... about {average_engagements:.0f} engagements daily *)
| NoLocationData                                   (* No location data to analyze. *)
| BiggestFanBase (name : string) (mentions : Z)    (* 1. Your biggest fan base is in {index[0]}, with ... {iloc[0]} mentions *)
| NurtureAmongTop5 (name : string) (mentions : Z)  (* 2. Consider nurturing connections in {index[-1]} (among the top 5), which has {iloc[-1]} mentions *)
| KnowYourLocations.                               (* 3. Knowing your top locations helps ... *)

Definition get_engagement_insights (df : list CleanRecord) : list Insight :=
  match engagement_stats (engagements_by_date df) with
  | None => [NoEngagementData]
  | Some st =>
      [ PeakEngagement (max_date st) (max_engagements st);
        LowestEngagement (min_date st) (min_engagements st);
        AverageEngagement (average_engagements st) ]
  end.

(** ** Locations *)

(** The frame that [create_location_bar_chart] hands to the bar chart:
    [value_counts], sorted by descending count, [head(5)]. *)
Definition create_location_bar_chart (df : list CleanRecord) : list (string * Z) :=
  firstn 5 (sort_values_desc (value_counts (map location df))).

Definition get_location_insights (df : list CleanRecord) : list Insight :=
  let location_counts := value_counts (map location df) in
  match sort_values_desc location_counts with
  | [] => [NoLocationData]
  | top :: rest =>
      let bottom := last rest top in
      [ BiggestFanBase (fst top) (snd top);
        NurtureAmongTop5 (fst bottom) (snd bottom);
        KnowYourLocations ]
  end.

(** ** Overall recommendations *)

(** The sentences of [get_overall_recommendations]. *)
Inductive Recommendation : Type :=
| UploadPrompt            (* Upload your CSV file to get some juicy business recommendations! *)
| AudienceLoving          (* Overall, your audience is loving your content! ... *)
| NegativeSentiment       (* There's a significant amount of negative sentiment. ... *)
| NeutralSentiment        (* A lot of neutral sentiment suggests ... *)
| MixedSentiment          (* Sentiment is a mixed bag. ... *)
| NoSentiment             (* No clear sentiment data available to draw strong conclusions. *)
| TrendUpward             (* Your engagement is on a fantastic upward trajectory! ... *)
| TrendDeclining          (* Engagement is declining. ... *)
| TrendStable             (* Stable engagement indicates a consistent audience. ... *)
| TrendUnclear            (* Engagement data is available but shows no clear trend yet. ... *)
| TrendLimited            (* Limited engagement data available. Upload more dates ... *)
| TrendNoData             (* No engagement data found for trend analysis. *)
| PlatformFocus (name : string)   (* Focus on {index[0]}, your highest-performing platform. ... *)
| PlatformMissing         (* Platform data is missing for some entries. ... *)
| PlatformNoData          (* No platform data found. ... *)
| MediaFocus (name : string)      (* Your {index[0]} content is a hit! ... *)
| MediaMissing            (* Media Type data is missing for some entries. ... *)
| MediaNoData             (* No media type data found. ... *)
| LocationFocus (name : string)   (* Target {index[0]} with localized campaigns or content. ... *)
| LocationMissing         (* Location data is missing for some entries. ... *)
| LocationNoData.         (* No location data found. ... *)

(** 1. Sentiment *)
Definition sentiment_rule (df : list CleanRecord) : Recommendation :=
  let sentiment_counts := value_counts (map sentiment df) in
  let total_sentiment_entries := Z.of_nat (List.length df) in
  let positive_count := get_count "Positive" sentiment_counts in
  let negative_count := get_count "Negative" sentiment_counts in
  let neutral_count := get_count "Neutral" sentiment_counts in
  if (negative_count <? positive_count) && (neutral_count <? positive_count)
  then AudienceLoving
  else if (positive_count <? negative_count) && (neutral_count <? negative_count)
  then NegativeSentiment
  else if (positive_count <? neutral_count) && (negative_count <? neutral_count)
  then NeutralSentiment
  else if 0 <? total_sentiment_entries then MixedSentiment
  else NoSentiment.

(** 2. Engagement trend, on the DailyEngagementSeries *)
Definition trend_rule (s : list (Z * Z)) : Recommendation :=
  if (1 <? List.length s)%nat then
    let first_eng := snd (hd (0, 0) s) in
    let last_eng := snd (last s (0, 0)) in
    let total_engagements := series_sum s in
    if 0 <? total_engagements then
      if int_gt_float last_eng (fmul (float_of_Z first_eng) f1_1) then TrendUpward
      else if int_lt_float last_eng (fmul (float_of_Z first_eng) f0_9) then TrendDeclining
      else TrendStable
    else TrendUnclear
  else if (0 <? List.length s)%nat then TrendLimited
  else TrendNoData.

(** 3.-5. The rule shared by the top platform, media type and location. *)
Definition top_rule (unknown : string) (focus : string -> Recommendation)
  (missing nodata : Recommendation) (sorted : list (string * Z)) : Recommendation :=
  match sorted with
  | (name, magnitude) :: _ =>
      if negb (String.eqb name unknown) && (0 <? magnitude) then focus name
      else if String.eqb name unknown then missing
      else nodata
  | [] => nodata
  end.

(** [df.groupby('platform')['engagements'].sum()] *)
Definition platform_engagements (df : list CleanRecord) : list (string * Z) :=
  groupby_sum String.ltb String.eqb (map (fun r => (platform r, engagements r)) df).

Definition platform_rule (df : list CleanRecord) : Recommendation :=
  top_rule "Unknown" PlatformFocus PlatformMissing PlatformNoData
    (sort_values_desc (platform_engagements df)).

Definition media_type_rule (df : list CleanRecord) : Recommendation :=
  top_rule "Unknown Media Type" MediaFocus MediaMissing MediaNoData
    (sort_values_desc (value_counts (map mediatype df))).

Definition location_rule (df : list CleanRecord) : Recommendation :=
  top_rule "Unknown" LocationFocus LocationMissing LocationNoData
    (sort_values_desc (value_counts (map location df))).

Definition get_overall_recommendations (df : list CleanRecord) : list Recommendation :=
  match df with
  | [] => [UploadPrompt]
  | _ =>
      [ sentiment_rule df;
        trend_rule (engagements_by_date df);
        platform_rule df;
        media_type_rule df;
        location_rule df ]
  end.


(** ** Vocabulary of the statements about the aggregates *)

(** Some row of the table is dated on day [d]. *)
Definition has_date (d : Z) (df : list CleanRecord) : Prop :=
  exists r t, In r df /\ date r = Some t /\ dt_date t = d.

(** The engagements of the rows dated on day [d], added up. *)
Fixpoint daily_sum (d : Z) (df : list CleanRecord) : Z :=
  match df with
  | [] => 0
  | r :: df' =>
      match date r with
      | Some t => if dt_date t =? d then engagements r + daily_sum d df' else daily_sum d df'
      | None => daily_sum d df'
      end
  end.

(** The engagements of the table are int64 values. *)
Definition int64_column (df : list CleanRecord) : Prop :=
  Forall (fun r => in_int64 (engagements r)) df.

(** The magnitudes of the engagements of the table, added up. *)
Definition total_magnitude (df : list CleanRecord) : Z :=
  fold_right (fun r acc => Z.abs (engagements r) + acc) 0 df.

(** No sum over engagements of the table can leave the int64 range. *)
Definition sums_fit_int64 (df : list CleanRecord) : Prop :=
  total_magnitude df <= int64_max.

(** Two integers with the same int64 reduction. *)
Definition same_int64 (a b : Z) : Prop := wrap64 a = wrap64 b.

(** The values filed under key [d] in a list of pairs, added up. *)
Fixpoint value_at (d : Z) (l : list (Z * Z)) : Z :=
  match l with
  | [] => 0
  | p :: l' => if fst p =? d then snd p + value_at d l' else value_at d l'
  end.

(** The index of a date-keyed series is strictly ascending. *)
Definition ascending_dates (s : list (Z * Z)) : Prop :=
  StronglySorted Z.lt (map fst s).

(** Descending by value. *)
Definition ranked {K} (s : list (K * Z)) : Prop :=
  StronglySorted (fun x y => snd y <= snd x) s.

(** The trend tests in exact arithmetic: [last] is more than 110% of
    [first], less than 90% of [first]. *)
Definition exceeds_110_percent (first_eng last_eng : Z) : bool :=
  11 * first_eng <? 10 * last_eng.

Definition below_90_percent (first_eng last_eng : Z) : bool :=
  10 * last_eng <? 9 * first_eng.

(** The double tests of [trend_rule] give the exact answers for [first] and
    every [last] in [0, bound). *)
Definition trend_tests_exact_below (bound : nat) (first_eng : Z) : bool :=
  forallb
    (fun last_eng =>
       Bool.eqb (int_gt_float last_eng (fmul (float_of_Z first_eng) f1_1))
                (exceeds_110_percent first_eng last_eng)
       && Bool.eqb (int_lt_float last_eng (fmul (float_of_Z first_eng) f0_9))
                   (below_90_percent first_eng last_eng))
    (map Z.of_nat (seq 0 bound)).

(** What the third, fourth and fifth recommendation come to when the top
    entry of the aggregate is [top]. *)
Definition platform_statement (top : string * Z) : Recommendation :=
  if String.eqb (fst top) "Unknown" then PlatformMissing
  else if 0 <? snd top then PlatformFocus (fst top)
  else PlatformNoData.

Definition media_type_statement (top : string * Z) : Recommendation :=
  if String.eqb (fst top) "Unknown Media Type" then MediaMissing
  else MediaFocus (fst top).

Definition location_statement (top : string * Z) : Recommendation :=
  if String.eqb (fst top) "Unknown" then LocationMissing
  else LocationFocus (fst top).

(** ** Sample data *)

Definition day (n : Z) : Timestamp := n * ns_per_day.

Fixpoint digits_value (acc : Z) (s : string) : option Z :=
  match s with
  | EmptyString => Some acc
  | String c s' =>
      let n := Z.of_N (code c) in
      if (48 <=? n) && (n <=? 57) then digits_value (10 * acc + (n - 48)) s' else None
  end.

(** An instance of the library conversions for the sample uploads, which
    hold no finite float: it reads the dates 2024-01-01 and 2024-01-02 and
    integer nanosecond stamps, and parses unsigned decimal integers;
    [float_str] is right on nan, the infinities, the zeros and the integral
    values, and prints the integer part of any other value. *)
Definition sample_pandas : Pandas := {|
  to_datetime := fun v =>
    match v with
    | VStr s =>
        if String.eqb s "2024-01-01" then Some (day 19723)
        else if String.eqb s "2024-01-02" then Some (day 19724)
        else None
    | VInt z => Some z
    | _ => None
    end;
  parse_numeric := fun s =>
    match s, digits_value 0 s with
    | String _ _, Some z => VInt z
    | _, _ => VFloat S754_nan
    end;
  float_str := fun f =>
    match f with
    | S754_nan => "nan"
    | S754_infinity s => if s then "-inf" else "inf"
    | S754_zero s => if s then "-0.0" else "0.0"
    | S754_finite s m e =>
        ((if s then "-" else "")
         ++ string_of_Z (if (0 <=? e)%Z then (Z.pos m * 2 ^ e)%Z
                         else (Z.pos m / 2 ^ (- e))%Z)
         ++ ".0")%string
    end
|}.

(** A one-row upload with all six columns filled. *)
Definition upload_with_engagements : DataFrame := {|
  columns := ["Date"; "Platform"; "Sentiment"; "Location"; "Engagements"; "Media Type"];
  rows := [[VStr "2024-01-01"; VStr "X"; VStr "Positive"; VStr "Paris"; VInt 5;
            VStr "Video"]]
|}.

(** The same upload with an engagements cell that is no number, and with a
    negative one. *)
Definition upload_unparseable_engagements : DataFrame := {|
  columns := ["Date"; "Platform"; "Sentiment"; "Location"; "Engagements"; "Media Type"];
  rows := [[VStr "2024-01-01"; VStr "X"; VStr "Positive"; VStr "Paris"; VStr "many";
            VStr "Video"]]
|}.

Definition upload_negative_engagements : DataFrame := {|
  columns := ["Date"; "Platform"; "Sentiment"; "Location"; "Engagements"; "Media Type"];
  rows := [[VStr "2024-01-01"; VStr "X"; VStr "Positive"; VStr "Paris"; VInt (-7);
            VStr "Video"]]
|}.

(** A one-row upload with no engagements column, an empty location cell and
    a media type that reads [Unknown]. *)
Definition upload_without_engagements : DataFrame := {|
  columns := ["Date"; "Platform"; "Sentiment"; "Location"; "Media Type"];
  rows := [[VStr "2024-01-01"; VStr "  X "; VStr "Positive"; VFloat S754_nan;
            VStr " Unknown "]]
|}.


(** Its row, and the record that the cleaner makes of it. *)
Definition row_without_engagements : list Value :=
  [VStr "2024-01-01"; VStr "  X "; VStr "Positive"; VFloat S754_nan; VStr " Unknown "].

Definition record_without_engagements : CleanRecord :=
  {| date := Some (day 19723); platform := "X"; sentiment := "Positive";
     location := "Unknown"; engagements := 0; mediatype := "Unknown Media Type" |}.

(** A one-row upload whose platform cell holds three spaces. *)
Definition upload_blank_platform : DataFrame := {|
  columns := ["Platform"];
  rows := [[VStr "   "]]
|}.

Definition post (d : option Timestamp) (p l : string) (e : Z) : CleanRecord :=
  {| date := d; platform := p; sentiment := "Positive"; location := l;
     engagements := e; mediatype := "Video" |}.

(** Two posts on two days, 5 and 15 engagements. *)
Definition two_days : list CleanRecord :=
  [post (Some (day 19723)) "X" "Paris" 5; post (Some (day 19724)) "X" "Paris" 15].

(** Two posts on two days, no engagement at all. *)
Definition two_quiet_days : list CleanRecord :=
  [post (Some (day 19723)) "X" "Paris" 0; post (Some (day 19724)) "X" "Paris" 0].

(** Three days with sums -10, 30, -10. *)
Definition three_days_negative_ends : list CleanRecord :=
  [post (Some (day 19723)) "X" "Paris" (-10); post (Some (day 19724)) "X" "Paris" 30;
   post (Some (day 19725)) "X" "Paris" (-10)].

(** Two posts of 2^62 engagements each on one day, one post of 1 the day
    after. *)
Definition two_huge_posts : list CleanRecord :=
  [post (Some (day 19723)) "X" "Paris" 4611686018427387904;
   post (Some (day 19723)) "X" "Paris" 4611686018427387904;
   post (Some (day 19724)) "X" "Paris" 1].

(** One undated post on platform X with no engagement. *)
Definition one_quiet_post : list CleanRecord :=
  [post None "X" "Paris" 0].

(** Seven locations A..G mentioned 7, 6, ..., 1 times. *)
Definition seven_locations : list CleanRecord :=
  flat_map (fun p => repeat (post None "X" (fst p) 1) (snd p))
    [("A", 7); ("B", 6); ("C", 5); ("D", 4); ("E", 3); ("F", 2); ("G", 1)]%nat.

(** * Further definitions *)

(** ** Strings *)

(** Every character of [s] passes the test [p]. *)
Fixpoint string_forall (p : ascii -> bool) (s : string) : bool :=
  match s with
  | EmptyString => true
  | String c s' => p c && string_forall p s'
  end.

(** A character that the normaliser leaves in place: no separator, no
    capital. *)
Definition is_key_char (c : ascii) : bool :=
  negb (is_separator c) && Ascii.eqb (lower_char c) c.

(** [s] begins with a whitespace character. *)
Definition starts_with_space (s : string) : bool :=
  match s with
  | EmptyString => false
  | String c _ => is_space c
  end.

(** ** Record cleaner *)

(** [expected_columns] *)
Definition expected_columns : list string :=
  ["date"; "platform"; "sentiment"; "location"; "engagements"; "mediatype"].

(** The lookup is a single cell; the lookup is a single missing cell. *)
Definition is_single (l : Lookup) : bool :=
  match l with
  | One _ => true
  | Many _ => false
  end.

Definition is_missing (l : Lookup) : bool :=
  match l with
  | One v => negb (notna v)
  | Many _ => false
  end.

(** The row loop gets through this row: every expected label is borne by
    one header at most, and the engagements cell is missing. *)
Definition cleanable (cols : list string) (row : list Value) : bool :=
  is_single (row_get cols row "date")
  && is_single (row_get cols row "platform")
  && is_single (row_get cols row "sentiment")
  && is_single (row_get cols row "location")
  && is_missing (row_get cols row "engagements")
  && is_single (row_get cols row "mediatype").

(** The loop finds the same cells in two rows: [row.get] answers alike for
    each of the six expected labels. *)
Definition same_expected_cells (cols : list string) (row : list Value)
  (cols' : list string) (row' : list Value) : Prop :=
  forall col, In col expected_columns -> row_get cols row col = row_get cols' row' col.

(** The upload [upload_without_engagements] with a column of notes in front. *)
Definition upload_with_notes : DataFrame := {|
  columns := ["Notes"; "Date"; "Platform"; "Sentiment"; "Location"; "Media Type"];
  rows := [[VStr "checked"; VStr "2024-01-01"; VStr "  X "; VStr "Positive";
            VFloat S754_nan; VStr " Unknown "]]
|}.

(** ** Chart frames and further insight lists *)

(** The frame that each chart function hands to the plotting call. *)
Definition create_sentiment_pie_chart (df : list CleanRecord) : list (string * Z) :=
  value_counts (map sentiment df).

Definition create_media_type_pie_chart (df : list CleanRecord) : list (string * Z) :=
  value_counts (map mediatype df).

Definition create_platform_bar_chart (df : list CleanRecord) : list (string * Z) :=
  sort_values_desc (platform_engagements df).

Definition create_engagement_line_chart (df : list CleanRecord) : list (Z * Z) :=
  engagements_by_date df.

(** The number of rows whose field [f] reads [x]. *)
Definition rows_with (f : CleanRecord -> string) (x : string) (df : list CleanRecord) : Z :=
  Z.of_nat (count_occ string_dec (map f df) x).

(** [(count / total * 100)] as the code computes it, on doubles. *)
Definition percent_of (count total : Z) : spec_float :=
  fmul (fdiv (float_of_Z count) (float_of_Z total)) (float_of_Z 100).

(** The sentences of [get_sentiment_insights]. *)
Inductive SentimentInsight : Type :=
| NoSentimentData                                          (* No sentiment data to analyze. *)
| MostCommonSentiment (name : string) (percent : spec_float)
                                                           (* 1. ... {index[0]} is the most common sentiment, ... {percent:.1f}% *)
| LeastCommonSentiment (name : string) (percent : spec_float)
                                                           (* 2. Keep an eye on {index[-1]} sentiment, ... only {percent:.1f}% *)
| OnlyOneSentiment                                         (* 2. Only one sentiment category found. ... *)
| SentimentSpread                                          (* 3. The spread of sentiments gives you a snapshot ... *)
| NoSentimentInsights.                                     (* No sentiment data available for insights. *)

Definition get_sentiment_insights (df : list CleanRecord) : list SentimentInsight :=
  let sentiment_counts := value_counts (map sentiment df) in
  let total := Z.of_nat (List.length df) in
  if total =? 0 then [NoSentimentData]
  else
    let sorted_sentiments := sort_values_desc sentiment_counts in
    match sorted_sentiments with
    | top :: rest =>
        [ MostCommonSentiment (fst top) (percent_of (snd top) total);
          (if (1 <? List.length sorted_sentiments)%nat
           then let bottom := last rest top in
                LeastCommonSentiment (fst bottom) (percent_of (snd bottom) total)
           else OnlyOneSentiment);
          SentimentSpread ]
    | [] => [NoSentimentInsights]
    end.

(** The sentences of [get_platform_insights]. *)
Inductive PlatformInsight : Type :=
| NoPlatformData                                    (* No platform engagement data to analyze. *)
| SuperstarPlatform (name : string) (sum : Z)       (* 1. {index[0]} is your superstar platform, ... {iloc[0]} engagements *)
| FewestEngagements (name : string) (sum : Z)       (* 2. ... {index[-1]}, which currently has the fewest engagements at {iloc[-1]} *)
| PlatformSpread.                                   (* 3. Observe the engagement spread across platforms. ... *)

Definition get_platform_insights (df : list CleanRecord) : list PlatformInsight :=
  match sort_values_desc (platform_engagements df) with
  | [] => [NoPlatformData]
  | top :: rest =>
      let bottom := last rest top in
      [ SuperstarPlatform (fst top) (snd top);
        FewestEngagements (fst bottom) (snd bottom);
        PlatformSpread ]
  end.

(** The sentences of [get_media_type_insights]. *)
Inductive MediaTypeInsight : Type :=
| NoMediaTypeData                                         (* No media type data to analyze. *)
| HeavyOn (name : string) (percent : spec_float)          (* 1. Your content recipe is heavy on {index[0]}, ... {percent:.1f}% *)
| LeastUsed (name : string) (percent : spec_float)        (* 2. Perhaps try adding more {index[-1]} ..., least used type at {percent:.1f}% *)
| MediaMixNote.                                           (* 3. Understanding your media mix helps ... *)

(** [get_media_type_insights]; [None] stands for the [IndexError] that
    [index[0]] raises on an empty Series. *)
Definition get_media_type_insights (df : list CleanRecord)
  : option (list MediaTypeInsight) :=
  let media_type_counts := value_counts (map mediatype df) in
  let total := Z.of_nat (List.length df) in
  if total =? 0 then Some [NoMediaTypeData]
  else
    match sort_values_desc media_type_counts with
    | [] => None
    | top :: rest =>
        let bottom := last rest top in
        Some [ HeavyOn (fst top) (percent_of (snd top) total);
               LeastUsed (fst bottom) (percent_of (snd bottom) total);
               MediaMixNote ]
    end.

(** The engagements of the rows on platform [p], added up. *)
Fixpoint platform_sum (p : string) (df : list CleanRecord) : Z :=
  match df with
  | [] => 0
  | r :: df' =>
      if String.eqb (platform r) p then engagements r + platform_sum p df'
      else platform_sum p df'
  end.

(** All the engagements of the table, added up. *)
Definition all_engagements (df : list CleanRecord) : Z :=
  fold_right (fun r acc => engagements r + acc) 0 df.

(** Posts with a sentiment each. *)
Definition felt (s : string) : CleanRecord :=
  {| date := None; platform := "X"; sentiment := s; location := "Paris";
     engagements := 0; mediatype := "Video" |}.

(** Seven positive, two neutral and one negative post. *)
Definition ten_posts : list CleanRecord :=
  (repeat (felt "Positive") 7 ++ repeat (felt "Neutral") 2 ++ [felt "Negative"])%list.

(** The values filed under label [p] in a list of pairs, added up. *)
Fixpoint label_value_at (p : string) (l : list (string * Z)) : Z :=
  match l with
  | [] => 0
  | q :: l' => if String.eqb (fst q) p then snd q + label_value_at p l' else label_value_at p l'
  end.

(** Strictly before, in the order in which [groupby] sorts its text keys. *)
Definition label_lt (a b : string) : Prop := String.ltb a b = true.

(** The labels of a text-keyed series come in strictly ascending order. *)
Definition ascending_labels (s : list (string * Z)) : Prop :=
  StronglySorted label_lt (map fst s).

(** ** Report body *)

Definition newline : ascii := ascii_of_N 10.

(** [s.split(c)] for a one-character separator. *)
Definition cons_first (a : ascii) (parts : list string) : list string :=
  match parts with
  | p :: ps => String a p :: ps
  | [] => [String a EmptyString]
  end.

Fixpoint split_char (sep : ascii) (s : string) : list string :=
  match s with
  | EmptyString => [EmptyString]
  | String a s' =>
      if Ascii.eqb a sep then EmptyString :: split_char sep s'
      else cons_first a (split_char sep s')
  end.

(** [s.split('**')]: the separators are found from the left and do not
    overlap. *)
Fixpoint split_bold (s : string) : list string :=
  match s with
  | EmptyString => [EmptyString]
  | String a s' =>
      match s' with
      | String b rest =>
          if Ascii.eqb a "*" && Ascii.eqb b "*" then EmptyString :: split_bold rest
          else cons_first a (split_bold s')
      | EmptyString => cons_first a (split_bold s')
      end
  end.

(** [s] begins with the marker; the marker occurs somewhere in [s]. *)
Definition starts_with_marker (s : string) : bool :=
  match s with
  | String a (String b _) => Ascii.eqb a "*" && Ascii.eqb b "*"
  | _ => false
  end.

Fixpoint has_marker (s : string) : bool :=
  match s with
  | EmptyString => false
  | String _ s' => starts_with_marker s || has_marker s'
  end.

(** [line[2:] if line.startswith('- ') else line] *)
Definition drop_bullet (line : string) : string :=
  match line with
  | String a (String b rest) =>
      if Ascii.eqb a "-" && Ascii.eqb b " " then rest else line
  | _ => line
  end.

(** The calls that [chapter_body] makes on the PDF object: [set_font] with
    the regular or the bold style, [write] and [ln]. *)
Inductive PdfCall : Type :=
| SetFont (bold : bool)
| WriteText (text : string)
| LineBreak.

(** The loop over [enumerate(parts)], from index [i] on. *)
Fixpoint write_parts (i : nat) (parts : list string) : list PdfCall :=
  match parts with
  | [] => []
  | part :: ps => SetFont (Nat.odd i) :: WriteText part :: write_parts (S i) ps
  end.

(** The body of the loop over the lines. *)
Definition line_calls (line_raw : string) : list PdfCall :=
  let line := strip line_raw in
  if String.eqb line "" then []
  else (write_parts 0 (split_bold (drop_bullet line)) ++ [LineBreak])%list.

Definition chapter_body (body_text : string) : list PdfCall :=
  (SetFont false :: flat_map line_calls (split_char newline body_text) ++ [LineBreak])%list.

(** The texts written, each with the style in force when it is written. *)
Fixpoint writes_from (bold : bool) (calls : list PdfCall) : list (bool * string) :=
  match calls with
  | [] => []
  | SetFont b :: cs => writes_from b cs
  | WriteText t :: cs => (bold, t) :: writes_from bold cs
  | LineBreak :: cs => writes_from bold cs
  end.

(** The number of [ln] calls. *)
Fixpoint line_breaks (calls : list PdfCall) : nat :=
  match calls with
  | [] => 0
  | LineBreak :: cs => S (line_breaks cs)
  | _ :: cs => line_breaks cs
  end.

(** ** Further sample data *)

(** The record that the cleaner makes of the row of [upload_blank_platform]. *)
Definition record_blank_platform : CleanRecord :=
  {| date := None; platform := ""; sentiment := "Unknown"; location := "Unknown";
     engagements := 0; mediatype := "Unknown Media Type" |}.

(** A one-row upload in which two headers normalise to [date]. *)
Definition upload_two_date_columns : DataFrame := {|
  columns := ["Date"; "date"];
  rows := [[VStr "2024-01-01"; VStr "2024-01-02"]]
|}.

(** The statistics of [two_days]. *)
Definition two_days_stats : EngagementStats :=
  {| max_engagements := 15; min_engagements := 5; max_date := 19724; min_date := 19723;
     total_engagements := 20; average_engagements := float_of_Z 10 |}.

(** * Properties *)

(** ** Header normaliser *)

Ltac each_char c := destruct c as [[] [] [] [] [] [] [] []]; try reflexivity.

Lemma lower_char_idem (c : ascii) : lower_char (lower_char c) = lower_char c.
Proof. each_char c. Qed.

Lemma is_separator_lower (c : ascii) : is_separator (lower_char c) = is_separator c.
Proof. each_char c. Qed.

Lemma is_space_lower (c : ascii) : is_space (lower_char c) = is_space c.
Proof. each_char c. Qed.

Lemma eqb_space_lower (c : ascii) : Ascii.eqb (lower_char c) " " = Ascii.eqb c " ".
Proof. each_char c. Qed.

Lemma space_is_separator (c : ascii) :
  Ascii.eqb c " " = true -> is_separator (lower_char c) = true.
Proof.
  intros H. apply Ascii.eqb_eq in H. subst c. reflexivity.
Qed.

Lemma replace_chain_drop (s : string) :
  replace_char "_" (replace_char "-" (replace_char " " s)) = drop_separators s.
Proof.
  induction s as [|c s IH]; simpl; [reflexivity|].
  unfold is_separator.
  destruct (Ascii.eqb c " ") eqn:E1; simpl; [exact IH|].
  destruct (Ascii.eqb c "-") eqn:E2; simpl; [exact IH|].
  destruct (Ascii.eqb c "_") eqn:E3; simpl; [exact IH|].
  now rewrite IH.
Qed.

Lemma normalize_unfold (s : string) :
  normalize_column_name s = lowercase_without_separators (strip s).
Proof. unfold normalize_column_name. apply replace_chain_drop. Qed.

Lemma plain_head (c : ascii) (s : string) :
  only_plain_spaces (String c s) = true ->
  (is_space c = true -> Ascii.eqb c " " = true) /\ only_plain_spaces s = true.
Proof.
  simpl. intros H. apply andb_true_iff in H. destruct H as [H1 H2].
  split; [|exact H2]. intros Hs. rewrite Hs in H1. exact H1.
Qed.

Lemma lstrip_plain (s : string) :
  only_plain_spaces s = true -> only_plain_spaces (lstrip s) = true.
Proof.
  induction s as [|c s IH]; intros H; [reflexivity|].
  pose proof (plain_head _ _ H) as [_ Hs]. simpl.
  destruct (is_space c); [auto | exact H].
Qed.

Lemma lstrip_canon (s : string) :
  only_plain_spaces s = true ->
  lowercase_without_separators (lstrip s) = lowercase_without_separators s.
Proof.
  unfold lowercase_without_separators.
  induction s as [|c s IH]; intros H; [reflexivity|].
  destruct (plain_head _ _ H) as [Hc Hs]. simpl.
  destruct (is_space c) eqn:E; [|reflexivity].
  rewrite (space_is_separator c (Hc eq_refl)). auto.
Qed.

Lemma rstrip_canon (s : string) :
  only_plain_spaces s = true ->
  lowercase_without_separators (rstrip s) = lowercase_without_separators s.
Proof.
  unfold lowercase_without_separators.
  induction s as [|c s IH]; intros H; [reflexivity|].
  destruct (plain_head _ _ H) as [Hc Hs]. specialize (IH Hs). simpl.
  destruct (rstrip s) as [|a r] eqn:R.
  - simpl in IH. destruct (is_space c) eqn:E.
    + rewrite (space_is_separator c (Hc eq_refl)). exact IH.
    + simpl. now rewrite <- IH.
  - change (lower (String c (String a r)))
      with (String (lower_char c) (lower (String a r))).
    change (drop_separators (String (lower_char c) (lower (String a r))))
      with (if is_separator (lower_char c)
            then drop_separators (lower (String a r))
            else String (lower_char c) (drop_separators (lower (String a r)))).
    now rewrite IH.
Qed.

Lemma normalize_plain (s : string) :
  only_plain_spaces s = true ->
  normalize_column_name s = lowercase_without_separators s.
Proof.
  intros H. rewrite normalize_unfold. unfold strip.
  rewrite rstrip_canon by now apply lstrip_plain.
  now apply lstrip_canon.
Qed.

Lemma canon_plain (s : string) :
  only_plain_spaces s = true ->
  only_plain_spaces (lowercase_without_separators s) = true.
Proof.
  unfold lowercase_without_separators.
  induction s as [|c s IH]; intros H; [reflexivity|].
  apply andb_true_iff in H. destruct H as [Hc Hs]. simpl.
  destruct (is_separator (lower_char c)); [auto|].
  simpl. rewrite is_space_lower, eqb_space_lower, Hc. auto.
Qed.

Lemma canon_idem (s : string) :
  lowercase_without_separators (lowercase_without_separators s)
  = lowercase_without_separators s.
Proof.
  unfold lowercase_without_separators.
  induction s as [|c s IH]; [reflexivity|]. simpl.
  destruct (is_separator (lower_char c)) eqn:E; [exact IH|].
  simpl. rewrite lower_char_idem, E. now rewrite IH.
Qed.

Lemma same_canon (s1 s2 : string) :
  same_up_to_case_and_separators s1 s2 ->
  lowercase_without_separators s1 = lowercase_without_separators s2.
Proof.
  unfold lowercase_without_separators.
  induction 1 as [|c s1 s2 Hc _ IH|c s1 s2 Hc _ IH|a b s1 s2 Hab _ IH]; simpl.
  - reflexivity.
  - now rewrite is_separator_lower, Hc.
  - now rewrite is_separator_lower, Hc.
  - now rewrite Hab, IH.
Qed.

Lemma canon_same_empty (s : string) :
  lowercase_without_separators s = "" -> same_up_to_case_and_separators "" s.
Proof.
  unfold lowercase_without_separators.
  induction s as [|c s IH]; simpl; intros H; [constructor|].
  rewrite is_separator_lower in H.
  destruct (is_separator c) eqn:E; [|discriminate].
  apply same_skip_right; auto.
Qed.

Lemma canon_same (s1 s2 : string) :
  lowercase_without_separators s1 = lowercase_without_separators s2 ->
  same_up_to_case_and_separators s1 s2.
Proof.
  revert s2. induction s1 as [|a s1 IH1]; intros s2 H.
  - apply canon_same_empty. now rewrite <- H.
  - unfold lowercase_without_separators in H. simpl in H.
    rewrite is_separator_lower in H.
    destruct (is_separator a) eqn:Ea; [apply same_skip_left; auto|].
    induction s2 as [|b s2 IH2]; [discriminate|].
    simpl in H. rewrite is_separator_lower in H.
    destruct (is_separator b) eqn:Eb; [apply same_skip_right; auto|].
    injection H as Hab H. apply same_letter; auto.
Qed.

(** C5 (as amended): on headers of code points below 256 whose only
    whitespace is the plain space, [normalize_column_name] returns the
    lowercase text without spaces, hyphens and underscores; there it is
    idempotent, and two headers get the same key exactly when they differ
    only in letter case and in those separators. *)
Theorem normalize_column_name_on_plain_headers (s1 s2 : string) :
  only_plain_spaces s1 = true ->
  only_plain_spaces s2 = true ->
  normalize_column_name s1 = lowercase_without_separators s1 /\
  normalize_column_name (normalize_column_name s1) = normalize_column_name s1 /\
  (same_up_to_case_and_separators s1 s2 ->
   normalize_column_name s1 = normalize_column_name s2) /\
  (normalize_column_name s1 = normalize_column_name s2 ->
   same_up_to_case_and_separators s1 s2).
Proof.
  intros H1 H2. repeat split.
  - now apply normalize_plain.
  - rewrite (normalize_plain s1 H1).
    rewrite normalize_plain by now apply canon_plain.
    apply canon_idem.
  - intros Hsame. rewrite (normalize_plain s1 H1), (normalize_plain s2 H2).
    now apply same_canon.
  - rewrite (normalize_plain s1 H1), (normalize_plain s2 H2). apply canon_same.
Qed.

Lemma normalize_column_name_on_plain_headers_witness :
  normalize_column_name "Media Type" = "mediatype" /\
  normalize_column_name (normalize_column_name "Media Type")
    = normalize_column_name "Media Type" /\
  same_up_to_case_and_separators "Media Type" "media_type" /\
  normalize_column_name "Media Type" = normalize_column_name "media_type".
Proof.
  destruct (normalize_column_name_on_plain_headers "Media Type" "media_type"
              eq_refl eq_refl) as (H1 & H2 & H3 & _).
  assert (same_up_to_case_and_separators "Media Type" "media_type") as Hs.
  { do 5 (apply same_letter; [reflexivity|]).
    apply same_skip_left; [reflexivity|]. apply same_skip_right; [reflexivity|].
    do 4 (apply same_letter; [reflexivity|]). apply same_empty. }
  exact (conj H1 (conj H2 (conj Hs (H3 Hs)))).
Defined.

Example media_type_headers_differ_by_case_and_separators :
  same_up_to_case_and_separators "Media Type" "media_type" /\
  same_up_to_case_and_separators "media_type" "MEDIATYPE".
Proof.
  split.
  - do 5 (apply same_letter; [reflexivity|]).
    apply same_skip_left; [reflexivity|]. apply same_skip_right; [reflexivity|].
    do 4 (apply same_letter; [reflexivity|]). apply same_empty.
  - do 5 (apply same_letter; [reflexivity|]).
    apply same_skip_left; [reflexivity|].
    do 4 (apply same_letter; [reflexivity|]). apply same_empty.
Qed.

Example normalize_media_type_headers :
  normalize_column_name "Media Type" = "mediatype" /\
  normalize_column_name "media_type" = "mediatype" /\
  normalize_column_name "MEDIATYPE" = "mediatype".
Proof. repeat split. Qed.

(** C5 (as stated) fails: the header made of a hyphen, a tab and [x]
    normalises to tab-[x], which normalises further to [x]; and it differs
    from tab-[x] by a hyphen only, yet the two get different keys. *)
Lemma normalize_column_name_counterexample :
  let s := String "-" (String tab "x") in
  normalize_column_name (normalize_column_name s) <> normalize_column_name s /\
  same_up_to_case_and_separators s (String tab "x") /\
  normalize_column_name s <> normalize_column_name (String tab "x").
Proof.
  cbv zeta. split; [vm_compute; discriminate|]. split; [|vm_compute; discriminate].
  apply same_skip_left; [reflexivity|].
  do 2 (apply same_letter; [reflexivity|]). apply same_empty.
Qed.


(** ** Record cleaner *)

Lemma bind_ok {A B} (c : result A) (k : A -> result B) (b : B) :
  bind c k = Ok b -> exists a, c = Ok a /\ k a = Ok b.
Proof. destruct c as [a|e]; simpl; [eauto | discriminate]. Qed.

Section RecordCleanerProperties.

Variable pd : Pandas.

Lemma clean_text_one v : clean_text pd (One v) = Ok (cleaned_text pd v).
Proof. unfold clean_text, cleaned_text. simpl. now destruct (notna v). Qed.

Lemma clean_date_one v :
  clean_date pd (One v) = Ok (if notna v then to_datetime pd v else None).
Proof. unfold clean_date. simpl. now destruct (notna v). Qed.

Lemma clean_engagements_one v :
  clean_engagements pd (One v) = if notna v then Raise AttributeError else Ok 0.
Proof. reflexivity. Qed.

Lemma clean_text_ok value s :
  clean_text pd value = Ok s -> exists v, value = One v /\ s = cleaned_text pd v.
Proof.
  destruct value as [v|vs]; [|discriminate].
  rewrite clean_text_one. intros [= <-]. eauto.
Qed.

(** A row is cleaned only when each of its six lookups is a single cell and
    the engagements cell is missing. *)
Lemma clean_row_ok (get : string -> Lookup) (r : CleanRecord) :
  clean_row pd get = Ok r ->
  exists vd vp vs vl ve vm,
    get "date" = One vd /\ get "platform" = One vp /\
    get "sentiment" = One vs /\ get "location" = One vl /\
    get "engagements" = One ve /\ get "mediatype" = One vm /\
    notna ve = false /\
    r = {| date := if notna vd then to_datetime pd vd else None;
           platform := cleaned_text pd vp;
           sentiment := cleaned_text pd vs;
           location := cleaned_text pd vl;
           engagements := 0;
           mediatype := rewrite_mediatype (cleaned_text pd vm) |}.
Proof.
  unfold clean_row. intros H.
  apply bind_ok in H. destruct H as (d & Hd & H).
  apply bind_ok in H. destruct H as (p & Hp & H).
  apply bind_ok in H. destruct H as (s & Hs & H).
  apply bind_ok in H. destruct H as (l & Hl & H).
  apply bind_ok in H. destruct H as (e & He & H).
  apply bind_ok in H. destruct H as (m & Hm & H).
  injection H as <-.
  destruct (get "date") as [vd|]; [|discriminate].
  rewrite clean_date_one in Hd. injection Hd as <-.
  apply clean_text_ok in Hp. destruct Hp as (vp & -> & ->).
  apply clean_text_ok in Hs. destruct Hs as (vs & -> & ->).
  apply clean_text_ok in Hl. destruct Hl as (vl & -> & ->).
  apply clean_text_ok in Hm. destruct Hm as (vm & -> & ->).
  destruct (get "engagements") as [ve|]; [|discriminate].
  rewrite clean_engagements_one in He.
  destruct (notna ve) eqn:Ee; [discriminate|]. injection He as <-.
  exists vd, vp, vs, vl, ve, vm. repeat split; auto.
Qed.

Lemma clean_rows_ok cols rs out :
  clean_rows pd cols rs = Ok out ->
  Forall2 (fun row r => clean_row pd (row_get cols row) = Ok r) rs out.
Proof.
  revert out. induction rs as [|row rs IH]; simpl; intros out H.
  - injection H as <-. constructor.
  - apply bind_ok in H. destruct H as (r & Hr & H).
    apply bind_ok in H. destruct H as (out' & Ho & H).
    injection H as <-. constructor; auto.
Qed.

Lemma process_csv_ok df out :
  process_csv pd df = Ok out ->
  out = [] \/
  Forall2 (fun row r => clean_row pd (row_get (normalized_headers df) row) = Ok r)
    (rows df) out.
Proof.
  unfold process_csv. destruct (df_empty df).
  - intros [= <-]. now left.
  - intros H. right. now apply clean_rows_ok.
Qed.

Lemma process_csv_row df out i row r :
  process_csv pd df = Ok out ->
  nth_error (rows df) i = Some row ->
  nth_error out i = Some r ->
  clean_row pd (row_get (normalized_headers df) row) = Ok r.
Proof.
  intros H Hrow Hr. apply process_csv_ok in H. destruct H as [-> | H].
  - destruct i; discriminate.
  - revert i Hrow Hr. induction H as [|x y xs ys Hxy _ IH]; intros i Hrow Hr.
    + destruct i; discriminate.
    + destruct i as [|i]; simpl in *.
      * injection Hrow as <-. injection Hr as <-. exact Hxy.
      * eauto.
Qed.

(** A present engagements cell stops the cleaning of its row. *)
Lemma clean_engagements_present v :
  notna v = true -> clean_engagements pd (One v) = Raise AttributeError.
Proof. intros H. rewrite clean_engagements_one. now rewrite H. Qed.

(** A row whose first four lookups are single cells and whose engagements
    cell is present is never cleaned. *)
Lemma clean_row_present_engagements (get : string -> Lookup) vd vp vs vl ve :
  get "date" = One vd -> get "platform" = One vp ->
  get "sentiment" = One vs -> get "location" = One vl ->
  get "engagements" = One ve -> notna ve = true ->
  clean_row pd get = Raise AttributeError.
Proof.
  intros Hd Hp Hs Hl He Hna. unfold clean_row.
  rewrite Hd, Hp, Hs, Hl, He, clean_date_one, !clean_text_one.
  rewrite clean_engagements_present by exact Hna. reflexivity.
Qed.

(** Whenever the cleaner returns, every engagements cell it met was missing
    and every record carries 0. *)
Lemma process_csv_ok_engagements df out i row r :
  process_csv pd df = Ok out ->
  nth_error (rows df) i = Some row ->
  nth_error out i = Some r ->
  engagements r = 0 /\
  exists v, row_get (normalized_headers df) row "engagements" = One v /\ notna v = false.
Proof.
  intros H Hrow Hr.
  pose proof (process_csv_row _ _ _ _ _ H Hrow Hr) as Hc.
  apply clean_row_ok in Hc.
  destruct Hc as (vd & vp & vs & vl & ve & vm & _ & _ & _ & _ & He & _ & Hna & ->).
  simpl. eauto.
Qed.

(** C1 (the code departs from it): on a one-row upload whose engagements
    cell holds the integer 5, [process_csv] raises [AttributeError], whatever
    the library conversions do. *)
Theorem process_csv_raises_on_present_engagements :
  process_csv pd upload_with_engagements = Raise AttributeError.
Proof. reflexivity. Qed.

(** C2 (the code departs from it): on a one-row upload whose engagements
    cell holds the text [many], which is no number, and on one whose cell
    holds the negative integer -7, [process_csv] raises [AttributeError]:
    no record with engagements 0 comes out of the first, and the second is
    not cleaned either. *)
Theorem process_csv_raises_on_unparseable_engagements :
  process_csv pd upload_unparseable_engagements = Raise AttributeError /\
  process_csv pd upload_negative_engagements = Raise AttributeError.
Proof. split; reflexivity. Qed.

(** C3 (as amended): in every cleaned row, each of platform, sentiment and
    location is the stripped [str] of the source cell when that cell is
    present, and [Unknown] exactly when the cell is missing (None or nan);
    a present cell that is empty or all whitespace gives the empty text. *)
Theorem text_fields_cleaned df out i row r col field :
  process_csv pd df = Ok out ->
  nth_error (rows df) i = Some row ->
  nth_error out i = Some r ->
  In (col, field) text_fields ->
  exists v,
    row_get (normalized_headers df) row col = One v /\
    field r = (if notna v then strip (py_str pd v) else "Unknown").
Proof.
  intros H Hrow Hr Hin.
  pose proof (process_csv_row _ _ _ _ _ H Hrow Hr) as Hc.
  apply clean_row_ok in Hc.
  destruct Hc as (vd & vp & vs & vl & ve & vm & _ & Hp & Hs & Hl & _ & _ & _ & ->).
  destruct Hin as [E | [E | [E | []]]]; injection E as <- <-; simpl; eauto.
Qed.

Lemma rewrite_mediatype_not_unknown m : rewrite_mediatype m <> "Unknown".
Proof.
  unfold rewrite_mediatype. destruct (String.eqb m "Unknown") eqn:E.
  - discriminate.
  - now apply String.eqb_neq.
Qed.

(** C4: no produced record has the bare text [Unknown] as its mediatype;
    a mediatype that is cleaned to [Unknown] is stored as
    [Unknown Media Type]. *)
Theorem mediatype_never_bare_unknown df out i row r :
  process_csv pd df = Ok out ->
  nth_error (rows df) i = Some row ->
  nth_error out i = Some r ->
  mediatype r <> "Unknown" /\
  (clean_text pd (row_get (normalized_headers df) row "mediatype") = Ok "Unknown" ->
   mediatype r = "Unknown Media Type").
Proof.
  intros H Hrow Hr.
  pose proof (process_csv_row _ _ _ _ _ H Hrow Hr) as Hc.
  apply clean_row_ok in Hc.
  destruct Hc as (vd & vp & vs & vl & ve & vm & _ & _ & _ & _ & _ & Hm & _ & ->).
  simpl. split; [apply rewrite_mediatype_not_unknown|].
  rewrite Hm, clean_text_one. intros [= ->]. reflexivity.
Qed.

(** *** Literal [Unknown] media types *)

Lemma cells_blank cols row col :
  cells cols (blank_unknown_mediatype_row pd cols row) col
  = map (fun v => if String.eqb col "mediatype" && literally_unknown pd v
                  then VNone else v)
        (cells cols row col).
Proof.
  unfold cells, blank_unknown_mediatype_row.
  revert row. induction cols as [|c cols IH]; intros row; [reflexivity|].
  destruct row as [|v row]; [reflexivity|]. simpl.
  destruct (String.eqb c col) eqn:E; simpl.
  - apply String.eqb_eq in E. subst c. f_equal. apply IH.
  - apply IH.
Qed.

Lemma row_get_blank_other cols row col :
  col <> "mediatype" ->
  row_get cols (blank_unknown_mediatype_row pd cols row) col = row_get cols row col.
Proof.
  intros H. unfold row_get. rewrite cells_blank.
  apply String.eqb_neq in H. rewrite H. simpl. now rewrite map_id.
Qed.

Lemma clean_text_blank cols row :
  clean_text pd (row_get cols (blank_unknown_mediatype_row pd cols row) "mediatype")
  = clean_text pd (row_get cols row "mediatype").
Proof.
  unfold row_get. rewrite cells_blank. simpl.
  destruct (cells cols row "mediatype") as [|v [|w vs]]; try reflexivity.
  change (clean_text pd (One (if literally_unknown pd v then VNone else v))
          = clean_text pd (One v)).
  rewrite !clean_text_one. f_equal. unfold cleaned_text, literally_unknown.
  destruct (notna v) eqn:Ev; simpl; [|now rewrite Ev].
  destruct (String.eqb (strip (py_str pd v)) "Unknown") eqn:Es; simpl.
  - apply String.eqb_eq in Es. now rewrite Es.
  - now rewrite Ev.
Qed.

Lemma clean_row_blank cols row :
  clean_row pd (row_get cols (blank_unknown_mediatype_row pd cols row))
  = clean_row pd (row_get cols row).
Proof.
  unfold clean_row.
  rewrite !row_get_blank_other by discriminate.
  now rewrite clean_text_blank.
Qed.

Lemma clean_rows_blank cols rs :
  clean_rows pd cols (map (blank_unknown_mediatype_row pd cols) rs)
  = clean_rows pd cols rs.
Proof.
  induction rs as [|row rs IH]; simpl; [reflexivity|].
  now rewrite clean_row_blank, IH.
Qed.

Lemma process_csv_blank df :
  process_csv pd (blank_unknown_mediatype pd df) = process_csv pd df.
Proof.
  unfold process_csv, blank_unknown_mediatype, df_empty, normalized_headers. simpl.
  destruct (columns df) as [|c cs]; [reflexivity|].
  destruct (rows df) as [|row rs]; [reflexivity|].
  change (map ?f (row :: rs)) with (f row :: map f rs).
  cbv iota. apply (clean_rows_blank _ (row :: rs)).
Qed.

(** C10: a mediatype cell whose stripped text is the literal [Unknown] is
    stored as [Unknown Media Type], and making every such cell absent leaves
    the output of the cleaner, hence every aggregate computed from it,
    unchanged. *)
Theorem literal_unknown_mediatype_reads_as_absent df out i row r v :
  process_csv pd df = Ok out ->
  nth_error (rows df) i = Some row ->
  nth_error out i = Some r ->
  row_get (normalized_headers df) row "mediatype" = One v ->
  notna v = true ->
  strip (py_str pd v) = "Unknown" ->
  mediatype r = "Unknown Media Type" /\
  process_csv pd (blank_unknown_mediatype pd df) = Ok out /\
  forall (A : Type) (aggregate : list CleanRecord -> A),
    (t <- process_csv pd (blank_unknown_mediatype pd df) ;; Ok (aggregate t))
    = (t <- process_csv pd df ;; Ok (aggregate t)).
Proof.
  intros H Hrow Hr Hv Hna Hs. split; [|split].
  - pose proof (process_csv_row _ _ _ _ _ H Hrow Hr) as Hc.
    apply clean_row_ok in Hc.
    destruct Hc as (vd & vp & vs & vl & ve & vm & _ & _ & _ & _ & _ & Hm & _ & ->).
    rewrite Hv in Hm. injection Hm as <-. simpl.
    unfold cleaned_text. now rewrite Hna, Hs.
  - now rewrite process_csv_blank.
  - intros A aggregate. now rewrite process_csv_blank.
Qed.

End RecordCleanerProperties.

(** *** The cleaner on the sample uploads *)

Example upload_without_engagements_cleaned :
  process_csv sample_pandas upload_without_engagements
  = Ok [record_without_engagements].
Proof. reflexivity. Qed.

Example duplicate_headers_raise :
  process_csv sample_pandas
    {| columns := ["Date"; "date"]; rows := [[VStr "2024-01-01"; VStr "2024-01-02"]] |}
  = Raise ValueError.
Proof. reflexivity. Qed.

Example unparseable_engagements_raise :
  process_csv sample_pandas {| columns := ["Engagements"]; rows := [[VStr "many"]] |}
  = Raise AttributeError.
Proof. reflexivity. Qed.

Lemma text_fields_cleaned_witness :
  exists v,
    row_get (normalized_headers upload_without_engagements)
      row_without_engagements "platform" = One v /\
    platform record_without_engagements
    = (if notna v then strip (py_str sample_pandas v) else "Unknown").
Proof.
  apply (text_fields_cleaned sample_pandas upload_without_engagements
           [record_without_engagements] 0%nat row_without_engagements
           record_without_engagements "platform" platform);
    try reflexivity.
  simpl. auto.
Defined.

(** C3 (as stated) fails: a platform cell of three spaces is present, so it
    is cleaned to the empty text, not to [Unknown]. *)
Lemma whitespace_platform_counterexample :
  exists r,
    process_csv sample_pandas upload_blank_platform = Ok [r] /\
    row_get (normalized_headers upload_blank_platform) [VStr "   "] "platform"
      = One (VStr "   ") /\
    strip "   " = "" /\
    platform r = "" /\
    platform r <> "Unknown".
Proof.
  eexists. split; [reflexivity|]. repeat split. discriminate.
Qed.

Lemma mediatype_never_bare_unknown_witness :
  mediatype record_without_engagements <> "Unknown" /\
  (clean_text sample_pandas
     (row_get (normalized_headers upload_without_engagements)
        row_without_engagements "mediatype") = Ok "Unknown" ->
   mediatype record_without_engagements = "Unknown Media Type").
Proof.
  apply (mediatype_never_bare_unknown sample_pandas upload_without_engagements
           [record_without_engagements] 0%nat row_without_engagements
           record_without_engagements);
    reflexivity.
Defined.

Lemma literal_unknown_mediatype_reads_as_absent_witness :
  mediatype record_without_engagements = "Unknown Media Type" /\
  process_csv sample_pandas
    (blank_unknown_mediatype sample_pandas upload_without_engagements)
    = Ok [record_without_engagements] /\
  forall (A : Type) (aggregate : list CleanRecord -> A),
    (t <- process_csv sample_pandas
            (blank_unknown_mediatype sample_pandas upload_without_engagements) ;;
     Ok (aggregate t))
    = (t <- process_csv sample_pandas upload_without_engagements ;; Ok (aggregate t)).
Proof.
  apply (literal_unknown_mediatype_reads_as_absent sample_pandas
           upload_without_engagements [record_without_engagements] 0%nat
           row_without_engagements record_without_engagements (VStr " Unknown "));
    reflexivity.
Defined.

(** ** 64-bit sums *)

Lemma wrap64_range z : in_int64 (wrap64 z).
Proof.
  unfold in_int64, wrap64, int64_min, int64_max.
  pose proof (Z.mod_pos_bound (z - -9223372036854775808) 18446744073709551616).
  lia.
Qed.

Lemma wrap64_fits z : in_int64 z -> wrap64 z = z.
Proof.
  unfold in_int64, wrap64, int64_min, int64_max. intros H.
  rewrite Z.mod_small; lia.
Qed.

Lemma wrap64_add_l a b : wrap64 (wrap64 a + b) = wrap64 (a + b).
Proof.
  unfold wrap64. f_equal.
  replace ((a - int64_min) mod 18446744073709551616 + int64_min + b - int64_min)
    with ((a - int64_min) mod 18446744073709551616 + b) by lia.
  rewrite Zplus_mod_idemp_l. f_equal. lia.
Qed.

Lemma wrap64_add_r a b : wrap64 (a + wrap64 b) = wrap64 (a + b).
Proof. rewrite Z.add_comm, wrap64_add_l. f_equal. lia. Qed.

(** Reducing an integer never takes it further from 0. *)
Lemma wrap64_abs z : Z.abs (wrap64 z) <= Z.abs z.
Proof.
  pose proof (wrap64_range z) as R.
  destruct (Z_le_dec int64_min z) as [Hlo|Hlo].
  - destruct (Z_le_dec z int64_max) as [Hhi|Hhi].
    + rewrite wrap64_fits; [lia | split; assumption].
    + unfold in_int64, int64_min, int64_max in *. lia.
  - unfold in_int64, int64_min, int64_max in *. lia.
Qed.

Lemma series_sum_wrap {K} (s : list (K * Z)) : series_sum s = wrap64 (sum_values s).
Proof.
  induction s as [|p s IH]; simpl; [reflexivity|].
  rewrite IH. apply wrap64_add_r.
Qed.

Lemma series_sum_range {K} (s : list (K * Z)) : in_int64 (series_sum s).
Proof. rewrite series_sum_wrap. apply wrap64_range. Qed.

Lemma sum_values_magnitude {K} (s : list (K * Z)) :
  Z.abs (sum_values s) <= sum_values (map (fun p => (fst p, Z.abs (snd p))) s).
Proof. induction s as [|p s IH]; simpl; lia. Qed.

(** ** Series: sums, sorting, grouping *)

Lemma sum_values_perm {K} (l l' : list (K * Z)) :
  Permutation l l' -> sum_values l = sum_values l'.
Proof. induction 1; simpl; lia. Qed.

Lemma value_at_perm d (l l' : list (Z * Z)) :
  Permutation l l' -> value_at d l = value_at d l'.
Proof.
  induction 1 as [|x l l' _ IH|x y l|l l' l'' _ IH1 _ IH2]; simpl.
  - reflexivity.
  - now rewrite IH.
  - destruct (fst x =? d), (fst y =? d); lia.
  - congruence.
Qed.

Lemma insert_desc_perm {K} (x : K * Z) l : Permutation (insert_desc x l) (x :: l).
Proof.
  induction l as [|y l IH]; simpl; [reflexivity|].
  destruct (snd x <? snd y); [|reflexivity].
  rewrite IH. apply perm_swap.
Qed.

Lemma sort_values_desc_perm {K} (s : list (K * Z)) : Permutation (sort_values_desc s) s.
Proof.
  induction s as [|x s IH]; simpl; [reflexivity|].
  rewrite insert_desc_perm. now constructor.
Qed.

Lemma insert_desc_ranked {K} (x : K * Z) l : ranked l -> ranked (insert_desc x l).
Proof.
  unfold ranked. induction 1 as [|y l Hl IH Hy]; simpl.
  - repeat constructor.
  - destruct (snd x <? snd y) eqn:E.
    + apply Z.ltb_lt in E. constructor; [exact IH|].
      apply Forall_forall. intros z Hz.
      apply (Permutation_in _ (insert_desc_perm x l)) in Hz.
      destruct Hz as [<- | Hz]; [lia|].
      rewrite Forall_forall in Hy. now apply Hy.
    + apply Z.ltb_ge in E. constructor; [now constructor|].
      constructor; [exact E|].
      apply Forall_forall. intros z Hz.
      rewrite Forall_forall in Hy. specialize (Hy z Hz). lia.
Qed.

Lemma sort_values_desc_ranked {K} (s : list (K * Z)) : ranked (sort_values_desc s).
Proof.
  induction s as [|x s IH]; simpl; [constructor | now apply insert_desc_ranked].
Qed.

(** The head of a sorted series carries the largest value of the series. *)
Lemma sort_values_desc_top {K} (s : list (K * Z)) top rest :
  sort_values_desc s = top :: rest ->
  In top s /\ forall p, In p s -> snd p <= snd top.
Proof.
  intros E. pose proof (sort_values_desc_perm s) as P.
  pose proof (sort_values_desc_ranked s) as R. rewrite E in P, R.
  split.
  - apply (Permutation_in _ P). now left.
  - intros p Hp. apply (Permutation_in _ (Permutation_sym P)) in Hp.
    inversion R as [|? ? _ Hall]; subst.
    destruct Hp as [<- | Hp]; [lia|].
    rewrite Forall_forall in Hall. now apply Hall.
Qed.

Lemma sort_values_desc_nonempty {K} (s : list (K * Z)) :
  s <> [] -> sort_values_desc s <> [].
Proof.
  intros H E. pose proof (sort_values_desc_perm s) as P. rewrite E in P.
  apply Permutation_nil in P. contradiction.
Qed.

Lemma ranked_app {K} (l1 l2 : list (K * Z)) :
  ranked (l1 ++ l2) ->
  ranked l1 /\ forall x y, In x l1 -> In y l2 -> snd y <= snd x.
Proof.
  unfold ranked. induction l1 as [|a l1 IH]; simpl; intros H.
  - split; [constructor | intros x y []].
  - inversion H as [|? ? Hs Hall]; subst. destruct (IH Hs) as [R1 R2].
    rewrite Forall_forall in Hall. split.
    + constructor; [exact R1|]. apply Forall_forall. intros z Hz.
      apply Hall. apply in_or_app. now left.
    + intros x y [<- | Hx] Hy; [|now apply R2].
      apply Hall. apply in_or_app. now right.
Qed.

Lemma insert_by_date_perm x l : Permutation (insert_by_date x l) (x :: l).
Proof.
  induction l as [|y l IH]; simpl; [reflexivity|].
  destruct (fst x <=? fst y); [reflexivity|].
  rewrite IH. apply perm_swap.
Qed.

Lemma sort_by_date_perm l : Permutation (sort_by_date l) l.
Proof.
  induction l as [|x l IH]; simpl; [reflexivity|].
  rewrite insert_by_date_perm. now constructor.
Qed.

Section GroupByProperties.

Context {K : Type}.
Variable ltb eqb : K -> K -> bool.

Lemma add_to_group_sum k e (s : list (K * Z)) :
  same_int64 (sum_values (add_to_group ltb eqb k e s)) (sum_values s + e).
Proof.
  unfold same_int64.
  induction s as [|[k' v] s IH]; simpl.
  - rewrite wrap64_add_l. f_equal. lia.
  - destruct (ltb k k'); simpl; [rewrite wrap64_add_l; f_equal; lia|].
    destruct (eqb k k'); simpl; [rewrite wrap64_add_l; f_equal; lia|].
    rewrite <- wrap64_add_r, IH, wrap64_add_r. f_equal. lia.
Qed.

Lemma groupby_sum_total_from (rs acc : list (K * Z)) :
  same_int64
    (sum_values (fold_left (fun s r => add_to_group ltb eqb (fst r) (snd r) s) rs acc))
    (sum_values acc + sum_values rs).
Proof.
  unfold same_int64.
  revert acc. induction rs as [|r rs IH]; intros acc; simpl; [f_equal; lia|].
  rewrite IH. rewrite <- wrap64_add_l, add_to_group_sum, wrap64_add_l. f_equal. lia.
Qed.

(** Grouping keeps the grand total, as an int64. *)
Lemma groupby_sum_total (rs : list (K * Z)) :
  same_int64 (sum_values (groupby_sum ltb eqb rs)) (sum_values rs).
Proof. unfold groupby_sum. apply groupby_sum_total_from. Qed.

(** Every group sum is an int64. *)
Lemma add_to_group_int64 k e (s : list (K * Z)) :
  Forall (fun p => in_int64 (snd p)) s ->
  Forall (fun p => in_int64 (snd p)) (add_to_group ltb eqb k e s).
Proof.
  induction 1 as [|[k' v] s Hv Hs IH]; simpl.
  - constructor; [apply wrap64_range | constructor].
  - destruct (ltb k k'); [constructor; [apply wrap64_range | now constructor]|].
    destruct (eqb k k'); constructor; auto. apply wrap64_range.
Qed.

Lemma groupby_sum_int64_from (rs acc : list (K * Z)) :
  Forall (fun p => in_int64 (snd p)) acc ->
  Forall (fun p => in_int64 (snd p))
    (fold_left (fun s r => add_to_group ltb eqb (fst r) (snd r) s) rs acc).
Proof.
  revert acc. induction rs as [|r rs IH]; intros acc H; simpl; [exact H|].
  apply IH. now apply add_to_group_int64.
Qed.

Lemma groupby_sum_int64 (rs : list (K * Z)) :
  Forall (fun p => in_int64 (snd p)) (groupby_sum ltb eqb rs).
Proof. apply groupby_sum_int64_from. constructor. Qed.

(** Grouping never adds magnitude. *)
Lemma add_to_group_magnitude k e (s : list (K * Z)) :
  sum_values (map (fun p => (fst p, Z.abs (snd p))) (add_to_group ltb eqb k e s))
  <= sum_values (map (fun p => (fst p, Z.abs (snd p))) s) + Z.abs e.
Proof.
  induction s as [|[k' v] s IH]; simpl.
  - pose proof (wrap64_abs e). lia.
  - destruct (ltb k k'); simpl; [pose proof (wrap64_abs e); lia|].
    destruct (eqb k k'); simpl; [pose proof (wrap64_abs (v + e)); lia | lia].
Qed.

Lemma groupby_sum_magnitude_from (rs acc : list (K * Z)) :
  sum_values (map (fun p => (fst p, Z.abs (snd p)))
                (fold_left (fun s r => add_to_group ltb eqb (fst r) (snd r) s) rs acc))
  <= sum_values (map (fun p => (fst p, Z.abs (snd p))) acc)
     + sum_values (map (fun p => (fst p, Z.abs (snd p))) rs).
Proof.
  revert acc. induction rs as [|r rs IH]; intros acc; simpl; [lia|].
  specialize (IH (add_to_group ltb eqb (fst r) (snd r) acc)).
  pose proof (add_to_group_magnitude (fst r) (snd r) acc). lia.
Qed.

Lemma groupby_sum_magnitude (rs : list (K * Z)) :
  sum_values (map (fun p => (fst p, Z.abs (snd p))) (groupby_sum ltb eqb rs))
  <= sum_values (map (fun p => (fst p, Z.abs (snd p))) rs).
Proof. unfold groupby_sum. pose proof (groupby_sum_magnitude_from rs []). simpl in *. lia. Qed.

Lemma add_to_group_nonempty k e (s : list (K * Z)) : add_to_group ltb eqb k e s <> [].
Proof.
  destruct s as [|[k' v] s]; simpl; [discriminate|].
  destruct (ltb k k'); [discriminate|]. destruct (eqb k k'); discriminate.
Qed.

Lemma groupby_sum_nonempty_from (rs acc : list (K * Z)) :
  acc <> [] ->
  fold_left (fun s r => add_to_group ltb eqb (fst r) (snd r) s) rs acc <> [].
Proof.
  revert acc. induction rs as [|r rs IH]; intros acc H; simpl; [exact H|].
  apply IH. apply add_to_group_nonempty.
Qed.

Lemma groupby_sum_nonempty (rs : list (K * Z)) :
  rs <> [] -> groupby_sum ltb eqb rs <> [].
Proof.
  destruct rs as [|r rs]; [congruence|]. intros _. unfold groupby_sum. simpl.
  apply groupby_sum_nonempty_from. discriminate.
Qed.

End GroupByProperties.

(** ** The daily engagement series *)

Lemma add_to_group_value_at d k e s :
  same_int64 (value_at d (add_to_group Z.ltb Z.eqb k e s))
    (value_at d s + (if k =? d then e else 0)).
Proof.
  unfold same_int64.
  induction s as [|[k' v] s IH]; simpl.
  - destruct (k =? d); [|reflexivity]. rewrite wrap64_add_l. f_equal. lia.
  - destruct (k <? k') eqn:E1; simpl.
    { destruct (k =? d), (k' =? d); try (f_equal; lia);
        rewrite wrap64_add_l; f_equal; lia. }
    destruct (k =? k') eqn:E2; simpl.
    + apply Z.eqb_eq in E2. subst k'.
      destruct (k =? d); [|f_equal; lia]. rewrite wrap64_add_l. f_equal. lia.
    + destruct (k' =? d).
      * rewrite <- wrap64_add_r, IH, wrap64_add_r. f_equal. lia.
      * exact IH.
Qed.

Lemma add_to_group_keys d k e s :
  In d (map fst (add_to_group Z.ltb Z.eqb k e s)) <-> d = k \/ In d (map fst s).
Proof.
  induction s as [|[k' v] s IH]; simpl.
  - intuition.
  - destruct (k <? k') eqn:E1; simpl; [intuition|].
    destruct (k =? k') eqn:E2; simpl.
    + apply Z.eqb_eq in E2. subst k'. intuition.
    + rewrite IH. intuition.
Qed.

Lemma add_to_group_ascending k e s :
  ascending_dates s -> ascending_dates (add_to_group Z.ltb Z.eqb k e s).
Proof.
  unfold ascending_dates.
  induction s as [|[k' v] s IH]; simpl; intros H.
  - repeat constructor.
  - inversion H as [|? ? Hs Hall]; subst.
    destruct (k <? k') eqn:E1; simpl.
    + apply Z.ltb_lt in E1. constructor; [exact H|].
      constructor; [exact E1|].
      eapply Forall_impl; [|exact Hall]. simpl. intros; lia.
    + destruct (k =? k') eqn:E2; simpl; [now constructor|].
      apply Z.ltb_ge in E1. apply Z.eqb_neq in E2.
      constructor; [now apply IH|].
      apply Forall_forall. intros x Hx. apply add_to_group_keys in Hx.
      destruct Hx as [-> | Hx]; [lia|].
      rewrite Forall_forall in Hall. now apply Hall.
Qed.

Lemma groupby_date_from (rs acc : list (Z * Z)) :
  let s := fold_left (fun s r => add_to_group Z.ltb Z.eqb (fst r) (snd r) s) rs acc in
  (ascending_dates acc -> ascending_dates s) /\
  (forall d, same_int64 (value_at d s) (value_at d acc + value_at d rs)) /\
  (forall d, In d (map fst s) <-> In d (map fst acc) \/ In d (map fst rs)).
Proof.
  revert acc. induction rs as [|r rs IH]; intros acc; simpl.
  - repeat split; intros; try (unfold same_int64; f_equal; lia); intuition.
  - destruct (IH (add_to_group Z.ltb Z.eqb (fst r) (snd r) acc)) as (I1 & I2 & I3).
    repeat split.
    + intros H. apply I1. now apply add_to_group_ascending.
    + intros d. unfold same_int64 in *. rewrite I2.
      rewrite <- wrap64_add_l, add_to_group_value_at, wrap64_add_l.
      destruct (fst r =? d); f_equal; lia.
    + rewrite I3, add_to_group_keys. intuition.
    + rewrite I3, add_to_group_keys. intuition.
Qed.

Lemma value_at_absent d s :
  ~ In d (map fst s) -> value_at d s = 0.
Proof.
  induction s as [|p s IH]; simpl; intros H; [reflexivity|].
  destruct (fst p =? d) eqn:E.
  - apply Z.eqb_eq in E. intuition.
  - apply IH. intuition.
Qed.

Lemma ascending_value_at d v s :
  ascending_dates s -> In (d, v) s -> value_at d s = v.
Proof.
  unfold ascending_dates.
  induction s as [|[k w] s IH]; simpl; intros H Hin; [destruct Hin|].
  inversion H as [|? ? Hs Hall]; subst. rewrite Forall_forall in Hall.
  destruct Hin as [E | Hin].
  - injection E as -> ->. rewrite Z.eqb_refl.
    rewrite value_at_absent; [lia|].
    intros Hd. specialize (Hall d Hd). lia.
  - assert (k < d) as Hlt by (apply Hall; apply (in_map fst _ _ Hin)).
    replace (k =? d) with false by (symmetry; apply Z.eqb_neq; lia).
    now apply IH.
Qed.

Lemma value_at_dropna d df :
  value_at d (map (fun p => (dt_date (fst p), snd p)) (dropna_date df)) = daily_sum d df.
Proof.
  induction df as [|r df IH]; simpl; [reflexivity|].
  destruct (date r) as [t|]; simpl; [|exact IH].
  rewrite IH. reflexivity.
Qed.

Lemma keys_dropna d df :
  In d (map fst (map (fun p => (dt_date (fst p), snd p)) (dropna_date df)))
  <-> has_date d df.
Proof.
  unfold has_date. induction df as [|r df IH]; simpl.
  - split; [intros [] | intros (r & t & [] & _)].
  - destruct (date r) as [t|] eqn:E; simpl.
    + rewrite IH. split.
      * intros [<- | (r' & t' & Hin & Hd & Ht)]; [exists r, t | exists r', t']; auto.
      * intros (r' & t' & [<- | Hin] & Hd & Ht).
        -- left. rewrite E in Hd. now injection Hd as <-.
        -- right. exists r', t'. auto.
    + rewrite IH. split.
      * intros (r' & t' & Hin & Hd & Ht). exists r', t'. auto.
      * intros (r' & t' & [<- | Hin] & Hd & Ht); [congruence|].
        exists r', t'. auto.
Qed.

Lemma sum_values_dropna_dates df :
  sum_values (map (fun p => (dt_date (fst p), snd p)) (dropna_date df))
  = sum_values (dropna_date df).
Proof.
  induction (dropna_date df) as [|p l IH]; simpl; [reflexivity | now rewrite IH].
Qed.

(** The series lists the days present in ascending order, once each, with
    the int64 sum of the engagements of that day. *)
Lemma engagements_by_date_spec (df : list CleanRecord) :
  let s := engagements_by_date df in
  ascending_dates s /\
  (forall d, In d (map fst s) <-> has_date d df) /\
  (forall d v, In (d, v) s -> v = wrap64 (daily_sum d df)) /\
  same_int64 (sum_values s) (sum_values (dropna_date df)).
Proof.
  pose proof (groupby_sum_int64 Z.ltb Z.eqb
                (map (fun p => (dt_date (fst p), snd p)) (sort_by_date (dropna_date df))))
    as Hint.
  revert Hint. unfold engagements_by_date, groupby_sum.
  set (rs := map (fun p => (dt_date (fst p), snd p)) (sort_by_date (dropna_date df))).
  intros Hint.
  destruct (groupby_date_from rs []) as (G1 & G2 & G3).
  assert (Permutation rs (map (fun p => (dt_date (fst p), snd p)) (dropna_date df)))
    as P by (apply Permutation_map, sort_by_date_perm).
  cbv zeta. repeat split.
  - apply G1. constructor.
  - intros H. apply G3 in H. destruct H as [[] | H].
    apply keys_dropna. eapply Permutation_in; [|exact H]. now apply Permutation_map.
  - intros H. apply G3. right. apply keys_dropna in H.
    eapply Permutation_in; [|exact H]. apply Permutation_sym. now apply Permutation_map.
  - intros d v Hin.
    assert (in_int64 v) as Hv.
    { rewrite Forall_forall in Hint. exact (Hint _ Hin). }
    apply ascending_value_at in Hin; [|apply G1; constructor].
    rewrite <- (wrap64_fits v Hv), <- Hin. rewrite G2. simpl.
    rewrite (value_at_perm d _ _ P). now rewrite value_at_dropna.
  - unfold same_int64. rewrite groupby_sum_total_from. simpl.
    rewrite (sum_values_perm _ _ P). now rewrite sum_values_dropna_dates.
Qed.

(** The sums over a table are bounded by its total magnitude. *)
Lemma daily_sum_magnitude d df : Z.abs (daily_sum d df) <= total_magnitude df.
Proof.
  unfold total_magnitude. induction df as [|r df IH]; simpl; [lia|].
  destruct (date r) as [t|]; [destruct (dt_date t =? d)|]; lia.
Qed.

Lemma dropna_sum_magnitude df : Z.abs (sum_values (dropna_date df)) <= total_magnitude df.
Proof.
  unfold total_magnitude. induction df as [|r df IH]; simpl; [lia|].
  destruct (date r) as [t|]; simpl; lia.
Qed.

Lemma fits_magnitude z df :
  sums_fit_int64 df -> Z.abs z <= total_magnitude df -> wrap64 z = z.
Proof.
  unfold sums_fit_int64. intros H Hz. apply wrap64_fits.
  unfold in_int64, int64_min, int64_max in *. lia.
Qed.

(** ** Extremes of a series *)

Lemma series_max_spec v0 s :
  let m := series_max v0 s in
  v0 <= m /\ (forall p, In p s -> snd p <= m) /\ (m = v0 \/ exists p, In p s /\ snd p = m).
Proof.
  unfold series_max. revert v0. induction s as [|q s IH]; intros v0; simpl.
  - repeat split; [lia | intros p [] | now left].
  - destruct (IH (Z.max v0 (snd q))) as (I1 & I2 & I3). repeat split.
    + lia.
    + intros p [<- | Hp]; [lia | now apply I2].
    + destruct I3 as [E | (p & Hp & E)].
      * destruct (Z.max_spec v0 (snd q)) as [[_ Em] | [_ Em]]; rewrite Em in E |- *.
        -- right. exists q. split; [now left | now symmetry].
        -- now left.
      * right. exists p. split; [now right | exact E].
Qed.

Lemma series_min_spec v0 s :
  let m := series_min v0 s in
  m <= v0 /\ (forall p, In p s -> m <= snd p) /\ (m = v0 \/ exists p, In p s /\ snd p = m).
Proof.
  unfold series_min. revert v0. induction s as [|q s IH]; intros v0; simpl.
  - repeat split; [lia | intros p [] | now left].
  - destruct (IH (Z.min v0 (snd q))) as (I1 & I2 & I3). repeat split.
    + lia.
    + intros p [<- | Hp]; [lia | now apply I2].
    + destruct I3 as [E | (p & Hp & E)].
      * destruct (Z.min_spec v0 (snd q)) as [[_ Em] | [_ Em]]; rewrite Em in E |- *.
        -- now left.
        -- right. exists q. split; [now left | now symmetry].
      * right. exists p. split; [now right | exact E].
Qed.

(** [idxmax_from] stops at the first entry that carries the largest value:
    everything before it is strictly smaller, nothing after it is larger. *)
Lemma idxmax_from_spec s best :
  exists l1 l2,
    best :: s = (l1 ++ idxmax_from best s :: l2)%list /\
    (forall p, In p l1 -> snd p < snd (idxmax_from best s)) /\
    (forall p, In p l2 -> snd p <= snd (idxmax_from best s)).
Proof.
  revert best. induction s as [|q s IH]; intros best; simpl.
  - exists [], []. repeat split; intros p [].
  - destruct (snd best <? snd q) eqn:E.
    + apply Z.ltb_lt in E. destruct (IH q) as (l1 & l2 & Hd & H1 & H2).
      exists (best :: l1), l2. repeat split.
      * simpl. congruence.
      * intros p [<- | Hp]; [|now apply H1].
        destruct l1 as [|a l1]; simpl in Hd; injection Hd as Hq _.
        -- rewrite <- Hq. exact E.
        -- subst a. specialize (H1 q (or_introl eq_refl)). lia.
      * exact H2.
    + apply Z.ltb_ge in E. destruct (IH best) as (l1 & l2 & Hd & H1 & H2).
      destruct l1 as [|a l1]; simpl in Hd; injection Hd as Hb Hs.
      * exists [], (q :: l2). repeat split.
        -- simpl. congruence.
        -- intros p [].
        -- intros p [<- | Hp]; [now rewrite <- Hb | now apply H2].
      * subst a. exists (best :: q :: l1), l2. repeat split.
        -- simpl. congruence.
        -- intros p [<- | [<- | Hp]].
           ++ apply H1. now left.
           ++ specialize (H1 best (or_introl eq_refl)). lia.
           ++ apply H1. now right.
        -- exact H2.
Qed.

Lemma idxmin_from_spec s best :
  exists l1 l2,
    best :: s = (l1 ++ idxmin_from best s :: l2)%list /\
    (forall p, In p l1 -> snd (idxmin_from best s) < snd p) /\
    (forall p, In p l2 -> snd (idxmin_from best s) <= snd p).
Proof.
  revert best. induction s as [|q s IH]; intros best; simpl.
  - exists [], []. repeat split; intros p [].
  - destruct (snd q <? snd best) eqn:E.
    + apply Z.ltb_lt in E. destruct (IH q) as (l1 & l2 & Hd & H1 & H2).
      exists (best :: l1), l2. repeat split.
      * simpl. congruence.
      * intros p [<- | Hp]; [|now apply H1].
        destruct l1 as [|a l1]; simpl in Hd; injection Hd as Hq _.
        -- rewrite <- Hq. exact E.
        -- subst a. specialize (H1 q (or_introl eq_refl)). lia.
      * exact H2.
    + apply Z.ltb_ge in E. destruct (IH best) as (l1 & l2 & Hd & H1 & H2).
      destruct l1 as [|a l1]; simpl in Hd; injection Hd as Hb Hs.
      * exists [], (q :: l2). repeat split.
        -- simpl. congruence.
        -- intros p [].
        -- intros p [<- | Hp]; [now rewrite <- Hb | now apply H2].
      * subst a. exists (best :: q :: l1), l2. repeat split.
        -- simpl. congruence.
        -- intros p [<- | [<- | Hp]].
           ++ apply H1. now left.
           ++ specialize (H1 best (or_introl eq_refl)). lia.
           ++ apply H1. now right.
        -- exact H2.
Qed.

(** In an ascending index, whatever follows an entry is dated later. *)
Lemma ascending_split (l1 l2 : list (Z * Z)) r :
  ascending_dates (l1 ++ r :: l2) -> forall p, In p l2 -> fst r < fst p.
Proof.
  unfold ascending_dates. induction l1 as [|a l1 IH]; simpl; intros H p Hp.
  - inversion H as [|? ? _ Hall]; subst. rewrite Forall_forall in Hall.
    apply Hall. now apply in_map.
  - inversion H; subst. now apply IH.
Qed.

Lemma idxmax_from_first best s :
  ascending_dates (best :: s) ->
  let r := idxmax_from best s in
  In r (best :: s) /\
  snd r = series_max (snd best) s /\
  forall d v, In (d, v) (best :: s) -> v <= snd r /\ (v = snd r -> fst r <= d).
Proof.
  intros Hasc r.
  destruct (idxmax_from_spec s best) as (l1 & l2 & Hd & H1 & H2). fold r in Hd, H1, H2.
  assert (forall q, In q (best :: s) -> snd q <= snd r) as Hub.
  { intros q Hq. rewrite Hd in Hq. apply in_app_or in Hq.
    destruct Hq as [Hq | [<- | Hq]]; [specialize (H1 q Hq) | | specialize (H2 q Hq)]; lia. }
  assert (In r (best :: s)) as Hr by (rewrite Hd; apply in_or_app; right; now left).
  split; [exact Hr|]. split.
  - destruct (series_max_spec (snd best) s) as (M1 & M2 & M3).
    assert (snd r <= series_max (snd best) s) as Hle.
    { destruct Hr as [<- | Hr]; [exact M1 | now apply M2]. }
    destruct M3 as [E | (q & Hq & E)].
    + specialize (Hub best (or_introl eq_refl)). lia.
    + specialize (Hub q (or_intror Hq)). lia.
  - intros d v Hin. split; [exact (Hub _ Hin)|]. intros Ev.
    rewrite Hd in Hin, Hasc. apply in_app_or in Hin.
    destruct Hin as [Hin | [E | Hin]].
    + specialize (H1 _ Hin). simpl in H1. lia.
    + rewrite E. simpl. lia.
    + pose proof (ascending_split _ _ _ Hasc _ Hin) as Hlt. simpl in Hlt. lia.
Qed.

Lemma idxmin_from_first best s :
  ascending_dates (best :: s) ->
  let r := idxmin_from best s in
  In r (best :: s) /\
  snd r = series_min (snd best) s /\
  forall d v, In (d, v) (best :: s) -> snd r <= v /\ (v = snd r -> fst r <= d).
Proof.
  intros Hasc r.
  destruct (idxmin_from_spec s best) as (l1 & l2 & Hd & H1 & H2). fold r in Hd, H1, H2.
  assert (forall q, In q (best :: s) -> snd r <= snd q) as Hlb.
  { intros q Hq. rewrite Hd in Hq. apply in_app_or in Hq.
    destruct Hq as [Hq | [<- | Hq]]; [specialize (H1 q Hq) | | specialize (H2 q Hq)]; lia. }
  assert (In r (best :: s)) as Hr by (rewrite Hd; apply in_or_app; right; now left).
  split; [exact Hr|]. split.
  - destruct (series_min_spec (snd best) s) as (M1 & M2 & M3).
    assert (series_min (snd best) s <= snd r) as Hle.
    { destruct Hr as [<- | Hr]; [exact M1 | now apply M2]. }
    destruct M3 as [E | (q & Hq & E)].
    + specialize (Hlb best (or_introl eq_refl)). lia.
    + specialize (Hlb q (or_intror Hq)). lia.
  - intros d v Hin. split; [exact (Hlb _ Hin)|]. intros Ev.
    rewrite Hd in Hin, Hasc. apply in_app_or in Hin.
    destruct Hin as [Hin | [E | Hin]].
    + specialize (H1 _ Hin). simpl in H1. lia.
    + rewrite E. simpl. lia.
    + pose proof (ascending_split _ _ _ Hasc _ Hin) as Hlt. simpl in Hlt. lia.
Qed.

Lemma engagements_by_date_magnitude (df : list CleanRecord) :
  Z.abs (sum_values (engagements_by_date df)) <= total_magnitude df.
Proof.
  pose proof (sum_values_magnitude (engagements_by_date df)) as H1.
  unfold engagements_by_date in *.
  set (rs := map (fun p => (dt_date (fst p), snd p)) (sort_by_date (dropna_date df))) in *.
  pose proof (groupby_sum_magnitude Z.ltb Z.eqb rs) as H2.
  assert (sum_values (map (fun p => (fst p, Z.abs (snd p))) rs) <= total_magnitude df)
    as H3; [|lia].
  unfold rs. rewrite !map_map. simpl.
  rewrite (sum_values_perm _ _
             (Permutation_map (fun x => (dt_date (fst x), Z.abs (snd x)))
                (sort_by_date_perm (dropna_date df)))).
  clear. unfold total_magnitude.
  induction df as [|r df IH]; simpl; [lia|].
  destruct (date r) as [t|]; simpl; lia.
Qed.

(** C6 (as amended): for a table of int64 engagements the daily series leaves
    out the undated rows and has one entry per day present, in ascending
    order of day, each carrying the int64 sum of the engagements of that day:
    the exact sum reduced modulo 2^64, hence the exact sum when the sums of
    the table fit.  The statistics are the largest and the smallest daily sum,
    each with the earliest day that reaches it, the int64 total, and that
    total divided by the number of days as a double; with no dated row the
    only insight is the no-data sentence. *)
Theorem daily_engagement_aggregator (df : list CleanRecord) :
  int64_column df ->
  let s := engagements_by_date df in
  ascending_dates s /\
  (forall d, In d (map fst s) <-> has_date d df) /\
  (forall d v, In (d, v) s -> v = wrap64 (daily_sum d df)) /\
  (sums_fit_int64 df -> forall d v, In (d, v) s -> v = daily_sum d df) /\
  match engagement_stats s with
  | None => s = [] /\ get_engagement_insights df = [NoEngagementData]
  | Some st =>
      In (max_date st, max_engagements st) s /\
      (forall d v, In (d, v) s ->
         v <= max_engagements st /\ (v = max_engagements st -> max_date st <= d)) /\
      In (min_date st, min_engagements st) s /\
      (forall d v, In (d, v) s ->
         min_engagements st <= v /\ (v = min_engagements st -> min_date st <= d)) /\
      total_engagements st = wrap64 (sum_values s) /\
      total_engagements st = wrap64 (sum_values (dropna_date df)) /\
      (sums_fit_int64 df ->
       total_engagements st = sum_values s /\
       total_engagements st = sum_values (dropna_date df)) /\
      average_engagements st
      = fdiv (float_of_Z (total_engagements st)) (float_of_Z (Z.of_nat (List.length s))) /\
      get_engagement_insights df
      = [ PeakEngagement (max_date st) (max_engagements st);
          LowestEngagement (min_date st) (min_engagements st);
          AverageEngagement (average_engagements st) ]
  end.
Proof.
  intros _ s. destruct (engagements_by_date_spec df) as (Hasc & Hkeys & Hsum & Htot).
  pose proof (engagements_by_date_magnitude df) as Hmag.
  fold s in Hasc, Hkeys, Hsum, Htot, Hmag.
  split; [exact Hasc|]. split; [exact Hkeys|]. split; [exact Hsum|].
  split.
  { intros Hfit d v Hin. rewrite (Hsum d v Hin).
    apply (fits_magnitude _ df Hfit), daily_sum_magnitude. }
  unfold get_engagement_insights. fold s.
  destruct s as [|p s'] eqn:Es; cbn [engagement_stats].
  - split; reflexivity.
  - destruct (idxmax_from_first p s' Hasc) as (Mi & Mv & Mf).
    destruct (idxmin_from_first p s' Hasc) as (Ni & Nv & Nf).
    cbn [max_date max_engagements min_date min_engagements total_engagements
         average_engagements].
    rewrite <- Mv, <- Nv, <- !surjective_pairing.
    split; [exact Mi|]. split; [exact Mf|]. split; [exact Ni|]. split; [exact Nf|].
    split; [apply series_sum_wrap|].
    split; [rewrite series_sum_wrap; exact Htot|].
    split; [|split; reflexivity].
    intros Hfit. rewrite series_sum_wrap. split.
    + exact (fits_magnitude _ df Hfit Hmag).
    + rewrite Htot. apply (fits_magnitude _ df Hfit), dropna_sum_magnitude.
Qed.

Example two_days_series :
  engagements_by_date two_days = [(19723, 5); (19724, 15)] /\
  get_engagement_insights two_days
  = [ PeakEngagement 19724 15; LowestEngagement 19723 5;
      AverageEngagement (float_of_Z 10) ].
Proof. split; reflexivity. Qed.

Lemma daily_engagement_aggregator_witness :
  let s := engagements_by_date two_days in
  ascending_dates s /\
  (forall d, In d (map fst s) <-> has_date d two_days) /\
  (forall d v, In (d, v) s -> v = wrap64 (daily_sum d two_days)) /\
  (sums_fit_int64 two_days -> forall d v, In (d, v) s -> v = daily_sum d two_days) /\
  match engagement_stats s with
  | None => s = [] /\ get_engagement_insights two_days = [NoEngagementData]
  | Some st =>
      In (max_date st, max_engagements st) s /\
      (forall d v, In (d, v) s ->
         v <= max_engagements st /\ (v = max_engagements st -> max_date st <= d)) /\
      In (min_date st, min_engagements st) s /\
      (forall d v, In (d, v) s ->
         min_engagements st <= v /\ (v = min_engagements st -> min_date st <= d)) /\
      total_engagements st = wrap64 (sum_values s) /\
      total_engagements st = wrap64 (sum_values (dropna_date two_days)) /\
      (sums_fit_int64 two_days ->
       total_engagements st = sum_values s /\
       total_engagements st = sum_values (dropna_date two_days)) /\
      average_engagements st
      = fdiv (float_of_Z (total_engagements st)) (float_of_Z (Z.of_nat (List.length s))) /\
      get_engagement_insights two_days
      = [ PeakEngagement (max_date st) (max_engagements st);
          LowestEngagement (min_date st) (min_engagements st);
          AverageEngagement (average_engagements st) ]
  end.
Proof.
  apply (daily_engagement_aggregator two_days).
  repeat constructor; simpl; unfold int64_min, int64_max; lia.
Defined.

(** C6 (as stated) fails: two posts of 2^62 engagements on one day are int64
    values that add up to 2^63, which is none; the series carries -2^63 for
    that day, not the sum of its engagements, and the insights report that
    day as the lowest and the next day, with its single engagement, as the
    peak. *)
Lemma daily_sum_overflow_counterexample :
  let s := engagements_by_date two_huge_posts in
  int64_column two_huge_posts /\
  daily_sum 19723 two_huge_posts = 9223372036854775808 /\
  s = [(19723, -9223372036854775808); (19724, 1)] /\
  (exists v, In (19723, v) s /\ v <> daily_sum 19723 two_huge_posts) /\
  exists mean,
    get_engagement_insights two_huge_posts
    = [ PeakEngagement 19724 1;
        LowestEngagement 19723 (-9223372036854775808);
        AverageEngagement mean ].
Proof.
  cbv zeta. split.
  { repeat constructor; simpl; unfold int64_min, int64_max; lia. }
  split; [reflexivity|]. split; [reflexivity|]. split.
  - exists (-9223372036854775808). split; [now left | discriminate].
  - eexists. reflexivity.
Qed.

(** ** Counting *)

Lemma count_one_positive k acc :
  Forall (fun p => 1 <= snd p) acc -> Forall (fun p => 1 <= snd p) (count_one k acc).
Proof.
  induction 1 as [|[k' n] acc Hn Hacc IH]; simpl.
  - repeat constructor. simpl. lia.
  - simpl in Hn. destruct (String.eqb k k'); constructor; simpl; auto; lia.
Qed.

Lemma count_one_nonempty k acc : count_one k acc <> [].
Proof.
  destruct acc as [|[k' n] acc]; simpl; [discriminate|].
  destruct (String.eqb k k'); discriminate.
Qed.

Lemma tally_from xs acc :
  let t := fold_left (fun acc k => count_one k acc) xs acc in
  (Forall (fun p => 1 <= snd p) acc -> Forall (fun p => 1 <= snd p) t) /\
  (acc <> [] -> t <> []).
Proof.
  revert acc. induction xs as [|x xs IH]; intros acc; simpl; [auto|].
  destruct (IH (count_one x acc)) as [I1 I2]. split.
  - intros H. apply I1. now apply count_one_positive.
  - intros _. apply I2. apply count_one_nonempty.
Qed.

(** Every entry of [value_counts] counts at least one occurrence, and there
    is an entry as soon as there is a row. *)
Lemma value_counts_positive xs : Forall (fun p => 1 <= snd p) (value_counts xs).
Proof.
  unfold value_counts.
  eapply Permutation_Forall; [apply Permutation_sym, sort_values_desc_perm|].
  apply (tally_from xs []). constructor.
Qed.

Lemma value_counts_nonempty xs : xs <> [] -> value_counts xs <> [].
Proof.
  intros H. unfold value_counts. apply sort_values_desc_nonempty.
  destruct xs as [|x xs]; [congruence|]. unfold tally. simpl.
  apply (tally_from xs). discriminate.
Qed.

Lemma sorted_counts_top xs :
  xs <> [] ->
  exists top rest,
    sort_values_desc (value_counts xs) = top :: rest /\
    1 <= snd top /\
    forall p, In p (value_counts xs) -> snd p <= snd top.
Proof.
  intros H.
  destruct (sort_values_desc (value_counts xs)) as [|top rest] eqn:E.
  - exfalso. revert E. apply sort_values_desc_nonempty. now apply value_counts_nonempty.
  - exists top, rest. split; [reflexivity|].
    destruct (sort_values_desc_top _ _ _ E) as [Hin Hmax]. split; [|exact Hmax].
    pose proof (value_counts_positive xs) as Hpos. rewrite Forall_forall in Hpos.
    now apply Hpos.
Qed.

(** ** Recommendation rules *)

Lemma top_rule_counts unknown focus missing nodata top rest :
  1 <= snd top ->
  top_rule unknown focus missing nodata (top :: rest)
  = if String.eqb (fst top) unknown then missing else focus (fst top).
Proof.
  intros H. destruct top as [name n]. simpl in *.
  replace (0 <? n) with true by (symmetry; apply Z.ltb_lt; lia).
  now destruct (String.eqb name unknown).
Qed.

Lemma top_rule_sums top rest :
  top_rule "Unknown" PlatformFocus PlatformMissing PlatformNoData (top :: rest)
  = platform_statement top.
Proof.
  destruct top as [name total]. unfold platform_statement. simpl.
  destruct (String.eqb name "Unknown"), (0 <? total); reflexivity.
Qed.

(** C8 (as amended): on a table with rows, of int64 engagements, each of the
    three aggregates has an entry of the largest magnitude that its rule
    takes for the top one (which one, when several entries share that
    magnitude, is left open).  The platform statement is the data-missing one
    when the top platform is [Unknown], the focus statement naming the top
    platform when its int64 engagement sum is positive, and the no-data
    statement otherwise; the media-type and location statements are the
    data-missing one when the top category is the marker, and the focus
    statement naming the top category otherwise. *)
Theorem top_category_rules (df : list CleanRecord) :
  int64_column df ->
  df <> [] ->
  exists platform_top media_top location_top,
    In platform_top (platform_engagements df) /\
    In media_top (value_counts (map mediatype df)) /\
    In location_top (value_counts (map location df)) /\
    (forall p, In p (platform_engagements df) -> snd p <= snd platform_top) /\
    (forall p, In p (value_counts (map mediatype df)) -> snd p <= snd media_top) /\
    (forall p, In p (value_counts (map location df)) -> snd p <= snd location_top) /\
    get_overall_recommendations df
    = [ sentiment_rule df;
        trend_rule (engagements_by_date df);
        platform_statement platform_top;
        media_type_statement media_top;
        location_statement location_top ].
Proof.
  intros _ Hdf.
  assert (map mediatype df <> []) as Hm by (destruct df; [congruence | discriminate]).
  assert (map location df <> []) as Hl by (destruct df; [congruence | discriminate]).
  destruct (sorted_counts_top _ Hm) as (mt & mrest & Em & Hm1 & Hmmax).
  destruct (sorted_counts_top _ Hl) as (lt & lrest & El & Hl1 & Hlmax).
  destruct (sort_values_desc (platform_engagements df)) as [|pt prest] eqn:Ep.
  { exfalso. revert Ep. apply sort_values_desc_nonempty. unfold platform_engagements.
    apply groupby_sum_nonempty. destruct df; [congruence | discriminate]. }
  exists pt, mt, lt.
  split; [exact (proj1 (sort_values_desc_top _ _ _ Ep))|].
  split; [exact (proj1 (sort_values_desc_top _ _ _ Em))|].
  split; [exact (proj1 (sort_values_desc_top _ _ _ El))|].
  split; [exact (proj2 (sort_values_desc_top _ _ _ Ep))|].
  split; [exact Hmmax|]. split; [exact Hlmax|].
  destruct df as [|r df]; [congruence|].
  unfold get_overall_recommendations, platform_rule, media_type_rule, location_rule.
  rewrite Ep, Em, El, top_rule_sums, !top_rule_counts by assumption.
  reflexivity.
Qed.

Lemma top_category_rules_witness :
  exists platform_top media_top location_top,
    In platform_top (platform_engagements two_days) /\
    In media_top (value_counts (map mediatype two_days)) /\
    In location_top (value_counts (map location two_days)) /\
    (forall p, In p (platform_engagements two_days) -> snd p <= snd platform_top) /\
    (forall p, In p (value_counts (map mediatype two_days)) -> snd p <= snd media_top) /\
    (forall p, In p (value_counts (map location two_days)) -> snd p <= snd location_top) /\
    get_overall_recommendations two_days
    = [ sentiment_rule two_days;
        trend_rule (engagements_by_date two_days);
        platform_statement platform_top;
        media_type_statement media_top;
        location_statement location_top ].
Proof.
  apply (top_category_rules two_days).
  - repeat constructor; simpl; unfold int64_min, int64_max; lia.
  - discriminate.
Defined.

Example two_days_recommendations :
  get_overall_recommendations two_days
  = [AudienceLoving; TrendUpward; PlatformFocus "X"; MediaFocus "Video";
     LocationFocus "Paris"].
Proof. reflexivity. Qed.

(** C8 (as stated) fails: one post on platform X with no engagement makes
    a non-empty platform aggregate whose top entry is X, not the marker, and
    yet the statement produced is the no-data one. *)
Lemma quiet_platform_counterexample :
  sort_values_desc (platform_engagements one_quiet_post) = [("X", 0)] /\
  String.eqb "X" "Unknown" = false /\
  nth_error (get_overall_recommendations one_quiet_post) 2 = Some PlatformNoData /\
  PlatformNoData <> PlatformFocus "X".
Proof.
  repeat split. discriminate.
Qed.

(** *** Engagement trend *)

Lemma trend_tests_exact_checked :
  forallb (trend_tests_exact_below 200) (map Z.of_nat (seq 0 200)) = true.
Proof. vm_compute. reflexivity. Qed.

(** For daily sums from 0 to 199 the two double comparisons of the trend
    rule decide exactly "more than 110% of the first" and "less than 90% of
    the first". *)
Lemma trend_tests_exact first_eng last_eng :
  0 <= first_eng < 200 -> 0 <= last_eng < 200 ->
  int_gt_float last_eng (fmul (float_of_Z first_eng) f1_1)
    = exceeds_110_percent first_eng last_eng /\
  int_lt_float last_eng (fmul (float_of_Z first_eng) f0_9)
    = below_90_percent first_eng last_eng.
Proof.
  intros Hf Hl.
  assert (forall z, 0 <= z < 200 -> In z (map Z.of_nat (seq 0 200))) as Hin.
  { intros z Hz. rewrite <- (Z2Nat.id z) by lia. apply in_map. apply in_seq. lia. }
  pose proof trend_tests_exact_checked as H.
  rewrite forallb_forall in H. specialize (H _ (Hin _ Hf)).
  unfold trend_tests_exact_below in H.
  rewrite forallb_forall in H. specialize (H _ (Hin _ Hl)).
  apply andb_true_iff in H. destruct H as [H1 H2].
  split; now apply Bool.eqb_prop.
Qed.

Lemma trend_rule_cases (s : list (Z * Z)) :
  let first_eng := snd (hd (0, 0) s) in
  let last_eng := snd (last s (0, 0)) in
  let up := int_gt_float last_eng (fmul (float_of_Z first_eng) f1_1) in
  let down := int_lt_float last_eng (fmul (float_of_Z first_eng) f0_9) in
  (s = [] -> trend_rule s = TrendNoData) /\
  (List.length s = 1%nat -> trend_rule s = TrendLimited) /\
  ((2 <= List.length s)%nat -> series_sum s <= 0 -> trend_rule s = TrendUnclear) /\
  ((2 <= List.length s)%nat -> 0 < series_sum s ->
   (trend_rule s = TrendUpward <-> up = true) /\
   (trend_rule s = TrendDeclining <-> up = false /\ down = true) /\
   (trend_rule s = TrendStable <-> up = false /\ down = false)).
Proof.
  intros first_eng last_eng up down. unfold trend_rule.
  fold first_eng. fold last_eng. fold up. fold down.
  destruct s as [|p [|q s']].
  - simpl. repeat split; try reflexivity; simpl; intros; lia.
  - simpl List.length. simpl Nat.ltb. cbv iota.
    repeat split; try reflexivity; try discriminate; intros; lia.
  - assert ((1 <? List.length (p :: q :: s'))%nat = true) as -> by reflexivity.
    split; [discriminate|]. split; [simpl; intros; lia|]. split.
    + intros _ H. apply Z.ltb_ge in H. now rewrite H.
    + intros _ H. apply Z.ltb_lt in H. rewrite H.
      destruct up, down; repeat split; intros; try discriminate; try reflexivity;
        try (destruct H0; discriminate).
Qed.

(** C7 (as amended): an empty table gets the upload prompt alone; on a
    table with rows, of int64 engagements, the second recommendation is the
    trend statement of the daily series.  An empty series gives the no-data
    statement and a single day the limited-data statement.  With two days or
    more the total decides first: it is the int64 sum of the engagements of
    the dated rows (the exact sum when the sums of the table fit), and a total
    that is not positive gives the no-clear-trend statement; a positive total
    gives the upward statement iff last > first * 1.1, else the declining
    statement iff last < first * 0.9, else the stable statement, the two
    comparisons being made on doubles. *)
Theorem engagement_trend_rule (df : list CleanRecord) :
  int64_column df ->
  let s := engagements_by_date df in
  let first_eng := snd (hd (0, 0) s) in
  let last_eng := snd (last s (0, 0)) in
  let total := series_sum s in
  let up := int_gt_float last_eng (fmul (float_of_Z first_eng) f1_1) in
  let down := int_lt_float last_eng (fmul (float_of_Z first_eng) f0_9) in
  (df = [] -> get_overall_recommendations df = [UploadPrompt]) /\
  (df <> [] -> nth_error (get_overall_recommendations df) 1 = Some (trend_rule s)) /\
  total = wrap64 (sum_values (dropna_date df)) /\
  (sums_fit_int64 df -> total = sum_values (dropna_date df)) /\
  (s = [] -> trend_rule s = TrendNoData) /\
  (List.length s = 1%nat -> trend_rule s = TrendLimited) /\
  ((2 <= List.length s)%nat -> total <= 0 -> trend_rule s = TrendUnclear) /\
  ((2 <= List.length s)%nat -> 0 < total ->
   (trend_rule s = TrendUpward <-> up = true) /\
   (trend_rule s = TrendDeclining <-> up = false /\ down = true) /\
   (trend_rule s = TrendStable <-> up = false /\ down = false)).
Proof.
  intros _ s first_eng last_eng total up down.
  destruct (engagements_by_date_spec df) as (_ & _ & _ & Htot). fold s in Htot.
  split; [now intros ->|].
  split; [intros Hdf; destruct df; [congruence | reflexivity]|].
  assert (total = wrap64 (sum_values (dropna_date df))) as Et.
  { unfold total. rewrite series_sum_wrap. exact Htot. }
  split; [exact Et|]. split.
  { intros Hfit. rewrite Et. apply (fits_magnitude _ df Hfit), dropna_sum_magnitude. }
  apply trend_rule_cases.
Qed.

Lemma engagement_trend_rule_witness :
  let s := engagements_by_date two_days in
  let first_eng := snd (hd (0, 0) s) in
  let last_eng := snd (last s (0, 0)) in
  let total := series_sum s in
  let up := int_gt_float last_eng (fmul (float_of_Z first_eng) f1_1) in
  let down := int_lt_float last_eng (fmul (float_of_Z first_eng) f0_9) in
  (two_days = [] -> get_overall_recommendations two_days = [UploadPrompt]) /\
  (two_days <> [] ->
   nth_error (get_overall_recommendations two_days) 1 = Some (trend_rule s)) /\
  total = wrap64 (sum_values (dropna_date two_days)) /\
  (sums_fit_int64 two_days -> total = sum_values (dropna_date two_days)) /\
  (s = [] -> trend_rule s = TrendNoData) /\
  (List.length s = 1%nat -> trend_rule s = TrendLimited) /\
  ((2 <= List.length s)%nat -> total <= 0 -> trend_rule s = TrendUnclear) /\
  ((2 <= List.length s)%nat -> 0 < total ->
   (trend_rule s = TrendUpward <-> up = true) /\
   (trend_rule s = TrendDeclining <-> up = false /\ down = true) /\
   (trend_rule s = TrendStable <-> up = false /\ down = false)).
Proof.
  apply (engagement_trend_rule two_days).
  repeat constructor; simpl; unfold int64_min, int64_max; lia.
Defined.

Example trend_first_10_last_12 : trend_rule [(19723, 10); (19724, 12)] = TrendUpward.
Proof. reflexivity. Qed.

Example trend_first_10_last_11 : trend_rule [(19723, 10); (19724, 11)] = TrendStable.
Proof. reflexivity. Qed.

Example trend_first_10_last_9 : trend_rule [(19723, 10); (19724, 9)] = TrendStable.
Proof. reflexivity. Qed.

Example trend_first_10_last_8 : trend_rule [(19723, 10); (19724, 8)] = TrendDeclining.
Proof. reflexivity. Qed.

Example trend_negative_ends :
  engagements_by_date three_days_negative_ends = [(19723, -10); (19724, 30); (19725, -10)] /\
  trend_rule (engagements_by_date three_days_negative_ends) = TrendUpward.
Proof. split; reflexivity. Qed.

Example trend_negative_boundary :
  trend_rule [(19723, -50); (19724, 200); (19725, -55)] = TrendUpward /\
  exceeds_110_percent (-50) (-55) = false.
Proof. split; reflexivity. Qed.

Example empty_table_recommendations : get_overall_recommendations [] = [UploadPrompt].
Proof. reflexivity. Qed.

(** C7 (as stated) fails: two days without any engagement make a series of
    two dates whose last value is neither above 110% nor below 90% of the
    first, and the statement produced is not the stable one. *)
Lemma quiet_days_trend_counterexample :
  let s := engagements_by_date two_quiet_days in
  s = [(19723, 0); (19724, 0)] /\
  exceeds_110_percent 0 0 = false /\
  below_90_percent 0 0 = false /\
  nth_error (get_overall_recommendations two_quiet_days) 1 = Some TrendUnclear /\
  TrendUnclear <> TrendStable.
Proof.
  cbv zeta. repeat split. discriminate.
Qed.

(** ** Locations *)

(** The chart frame holds the five best-ranked locations at most, in
    descending order of count, and no location left out has more mentions
    than one that is kept. *)
Lemma create_location_bar_chart_top5 (df : list CleanRecord) :
  let full := sort_values_desc (value_counts (map location df)) in
  create_location_bar_chart df = firstn 5 full /\
  (List.length (create_location_bar_chart df) <= 5)%nat /\
  ranked (create_location_bar_chart df) /\
  forall kept dropped,
    In kept (create_location_bar_chart df) -> In dropped (skipn 5 full) ->
    snd dropped <= snd kept.
Proof.
  intros full. unfold create_location_bar_chart. fold full.
  pose proof (sort_values_desc_ranked (value_counts (map location df))) as R.
  fold full in R. rewrite <- (firstn_skipn 5 full) in R.
  apply ranked_app in R. destruct R as [R1 R2].
  repeat split; auto. apply firstn_le_length.
Qed.

(** C9 (the code departs from it): with seven locations mentioned 7, 6, 5,
    4, 3, 2 and 1 times the chart frame holds the five best, down to E with 3
    mentions, while the second location insight names G, the least mentioned
    of all seven. *)
Theorem location_insight_names_overall_last :
  create_location_bar_chart seven_locations
  = [("A", 7); ("B", 6); ("C", 5); ("D", 4); ("E", 3)] /\
  get_location_insights seven_locations
  = [BiggestFanBase "A" 7; NurtureAmongTop5 "G" 1; KnowYourLocations].
Proof. split; vm_compute; reflexivity. Qed.

(** * Further properties *)

(** ** Header normaliser *)

Lemma drop_separators_lower_key_chars (s : string) :
  string_forall is_key_char (drop_separators (lower s)) = true.
Proof.
  induction s as [|c s IH]; simpl; [reflexivity|].
  destruct (is_separator (lower_char c)) eqn:E; [exact IH|].
  simpl. unfold is_key_char at 1. rewrite E, lower_char_idem, Ascii.eqb_refl.
  exact IH.
Qed.

(** X1: whatever the header, its normalised form holds no space, hyphen or
    underscore and no capital letter. *)
Theorem normalize_column_name_key_chars (name : string) :
  string_forall is_key_char (normalize_column_name name) = true.
Proof.
  rewrite normalize_unfold. apply drop_separators_lower_key_chars.
Qed.

(** *** Stripping *)

Lemma lstrip_length (s : string) : (String.length (lstrip s) <= String.length s)%nat.
Proof.
  induction s as [|c s IH]; simpl; [lia|].
  destruct (is_space c); simpl; lia.
Qed.

Lemma rstrip_length (s : string) : (String.length (rstrip s) <= String.length s)%nat.
Proof.
  induction s as [|c s IH]; simpl; [lia|].
  destruct (rstrip s) as [|a r]; [destruct (is_space c)|]; simpl in *; lia.
Qed.

Lemma lstrip_same_length (s : string) :
  String.length (lstrip s) = String.length s -> lstrip s = s.
Proof.
  destruct s as [|c s]; simpl; [reflexivity|].
  destruct (is_space c); [|reflexivity].
  pose proof (lstrip_length s). lia.
Qed.

Lemma rstrip_same_length (s : string) :
  String.length (rstrip s) = String.length s -> rstrip s = s.
Proof.
  induction s as [|c s IH]; simpl; [reflexivity|].
  pose proof (rstrip_length s) as Hle.
  destruct (rstrip s) as [|a r] eqn:R.
  - destruct (is_space c); simpl; intros H; [discriminate|].
    destruct s; [reflexivity | discriminate].
  - simpl in *. intros H. rewrite IH by lia. reflexivity.
Qed.

Lemma lstrip_no_leading_space (s : string) : starts_with_space (lstrip s) = false.
Proof.
  induction s as [|c s IH]; simpl; [reflexivity|].
  destruct (is_space c) eqn:E; [exact IH | exact E].
Qed.

Lemma lstrip_fixed (s : string) : starts_with_space s = false -> lstrip s = s.
Proof. destruct s as [|c s]; simpl; [reflexivity|]. now intros ->. Qed.

Lemma rstrip_no_leading_space (s : string) :
  starts_with_space s = false -> starts_with_space (rstrip s) = false.
Proof.
  destruct s as [|c s]; simpl; [reflexivity|]. intros E.
  destruct (rstrip s); [rewrite E|]; simpl; auto.
Qed.

Lemma rstrip_idem (s : string) : rstrip (rstrip s) = rstrip s.
Proof.
  induction s as [|c s IH]; simpl; [reflexivity|].
  destruct (rstrip s) as [|a r] eqn:R.
  - destruct (is_space c) eqn:E; simpl; [reflexivity | now rewrite E].
  - change (rstrip (String c (String a r)))
      with (match rstrip (String a r) with
            | EmptyString => if is_space c then EmptyString else String c EmptyString
            | String a' r' => String c (String a' r')
            end).
    now rewrite IH.
Qed.

(** Stripping twice is stripping once. *)
Lemma strip_idem (s : string) : strip (strip s) = strip s.
Proof.
  unfold strip.
  rewrite (lstrip_fixed (rstrip (lstrip s)))
    by (apply rstrip_no_leading_space, lstrip_no_leading_space).
  apply rstrip_idem.
Qed.

Lemma lower_length (s : string) : String.length (lower s) = String.length s.
Proof. induction s as [|c s IH]; simpl; congruence. Qed.

Lemma drop_separators_length (s : string) :
  (String.length (drop_separators s) <= String.length s)%nat.
Proof.
  induction s as [|c s IH]; simpl; [lia|].
  destruct (is_separator c); simpl; lia.
Qed.

Lemma key_chars_fixed (s : string) :
  string_forall is_key_char s = true -> drop_separators (lower s) = s.
Proof.
  induction s as [|c s IH]; simpl; [reflexivity|]. intros H.
  apply andb_true_iff in H. destruct H as [Hc Hs].
  unfold is_key_char in Hc. apply andb_true_iff in Hc. destruct Hc as [H1 H2].
  apply Ascii.eqb_eq in H2. rewrite H2.
  apply negb_true_iff in H1. rewrite H1. now rewrite IH.
Qed.

(** X2: the normaliser leaves a header as it is exactly when the header has
    no whitespace at either end, no space, hyphen or underscore and no
    capital letter. *)
Theorem normalize_column_name_fixed_points (name : string) :
  normalize_column_name name = name <->
  strip name = name /\ string_forall is_key_char name = true.
Proof.
  rewrite normalize_unfold. unfold lowercase_without_separators. split.
  - intros H. split.
    + assert (String.length (strip name) = String.length name) as Hlen.
      { pose proof (drop_separators_length (lower (strip name))) as H1.
        rewrite lower_length, H in H1. unfold strip in *.
        pose proof (rstrip_length (lstrip name)).
        pose proof (lstrip_length name). lia. }
      unfold strip in *.
      pose proof (rstrip_length (lstrip name)).
      pose proof (lstrip_length name).
      assert (lstrip name = name) as El by (apply lstrip_same_length; lia).
      rewrite El in *. now apply rstrip_same_length.
    + rewrite <- H at 1. apply drop_separators_lower_key_chars.
  - intros [Hs Hk]. rewrite Hs. now apply key_chars_fixed.
Qed.

(** ** Record cleaner *)

Lemma cells_absent cols row col : ~ In col cols -> cells cols row col = [].
Proof.
  unfold cells. revert row. induction cols as [|c cols IH]; intros row H; [reflexivity|].
  destruct row as [|v row]; [reflexivity|]. simpl.
  destruct (String.eqb c col) eqn:E.
  - apply String.eqb_eq in E. subst. exfalso. apply H. now left.
  - apply IH. intros Hin. apply H. now right.
Qed.

Lemma row_get_absent cols row col : ~ In col cols -> row_get cols row col = One VNone.
Proof. intros H. unfold row_get. now rewrite cells_absent. Qed.

Lemma cells_length cols row col :
  List.length row = List.length cols ->
  List.length (cells cols row col) = count_occ string_dec cols col.
Proof.
  unfold cells. revert row. induction cols as [|c cols IH]; intros row H.
  - reflexivity.
  - destruct row as [|v row]; [discriminate|]. simpl in H. injection H as H. simpl.
    destruct (string_dec c col) as [->|N].
    + rewrite String.eqb_refl. simpl. now rewrite IH.
    + apply String.eqb_neq in N. rewrite N. now apply IH.
Qed.

Section RecordCleanerFurther.

Variable pd : Pandas.

Lemma clean_row_cleanable cols row :
  cleanable cols row = true <-> exists r, clean_row pd (row_get cols row) = Ok r.
Proof.
  unfold cleanable. split.
  - intros H. repeat (apply andb_true_iff in H; destruct H as [H ?]).
    unfold clean_row.
    destruct (row_get cols row "date") as [vd|]; [|discriminate].
    destruct (row_get cols row "platform") as [vp|]; [|discriminate].
    destruct (row_get cols row "sentiment") as [vs|]; [|discriminate].
    destruct (row_get cols row "location") as [vl|]; [|discriminate].
    destruct (row_get cols row "engagements") as [ve|]; [|discriminate].
    destruct (row_get cols row "mediatype") as [vm|]; [|discriminate].
    rewrite clean_date_one, !clean_text_one, clean_engagements_one.
    simpl in *. destruct (notna ve); [discriminate|]. simpl. eauto.
  - intros [r Hr]. apply clean_row_ok in Hr.
    destruct Hr as (vd & vp & vs & vl & ve & vm & -> & -> & -> & -> & -> & -> & Hna & _).
    simpl. now rewrite Hna.
Qed.

Lemma clean_rows_cleanable cols rs :
  forallb (cleanable cols) rs = true <-> exists out, clean_rows pd cols rs = Ok out.
Proof.
  induction rs as [|row rs IH]; simpl.
  - split; [eauto | reflexivity].
  - rewrite andb_true_iff, IH, clean_row_cleanable. split.
    + intros [[r Hr] [out Ho]]. rewrite Hr, Ho. simpl. eauto.
    + intros [out H]. apply bind_ok in H. destruct H as (r & Hr & H).
      apply bind_ok in H. destruct H as (out' & Ho & _). eauto.
Qed.

(** X3: [process_csv] returns a table exactly when the frame is empty or,
    in every row, each expected label is borne by one header at most and the
    engagements cell is missing; in every other case it raises. *)
Theorem process_csv_returns_iff (df : DataFrame) :
  (exists out, process_csv pd df = Ok out) <->
  df_empty df = true \/ forallb (cleanable (normalized_headers df)) (rows df) = true.
Proof.
  unfold process_csv. destruct (df_empty df).
  - split; [now left | eauto].
  - rewrite <- clean_rows_cleanable. split; [now right | now intros [|]].
Qed.

Lemma clean_rows_length cols rs out :
  clean_rows pd cols rs = Ok out -> List.length out = List.length rs.
Proof.
  intros H. apply clean_rows_ok in H.
  induction H; simpl; congruence.
Qed.

(** X4: an empty frame is answered by the empty table; on any other frame,
    when [process_csv] returns, it returns one record per row, in row
    order. *)
Theorem process_csv_row_count (df : DataFrame) (out : list CleanRecord) :
  process_csv pd df = Ok out ->
  (df_empty df = true -> out = []) /\
  (df_empty df = false ->
   List.length out = List.length (rows df) /\
   forall i row, nth_error (rows df) i = Some row ->
     exists r, nth_error out i = Some r /\
               clean_row pd (row_get (normalized_headers df) row) = Ok r).
Proof.
  intros H. split.
  - intros E. unfold process_csv in H. rewrite E in H. now injection H as <-.
  - intros E. assert (List.length out = List.length (rows df)) as Hlen.
    { unfold process_csv in H. rewrite E in H. now apply clean_rows_length in H. }
    split; [exact Hlen|]. intros i row Hrow.
    destruct (nth_error out i) as [r|] eqn:Hr.
    + exists r. split; [reflexivity|]. eapply process_csv_row; eauto.
    + apply nth_error_None in Hr.
      assert (i < List.length (rows df))%nat by (apply nth_error_Some; congruence).
      lia.
Qed.

(** X5: when no header normalises to the label of a column, every record
    that the cleaner produces carries the default of that column: no date,
    [Unknown] as platform, sentiment or location, [Unknown Media Type] as
    media type. *)
Theorem process_csv_missing_column_defaults (df : DataFrame) out i row r :
  process_csv pd df = Ok out ->
  nth_error (rows df) i = Some row ->
  nth_error out i = Some r ->
  (~ In "date" (normalized_headers df) -> date r = None) /\
  (~ In "platform" (normalized_headers df) -> platform r = "Unknown") /\
  (~ In "sentiment" (normalized_headers df) -> sentiment r = "Unknown") /\
  (~ In "location" (normalized_headers df) -> location r = "Unknown") /\
  (~ In "mediatype" (normalized_headers df) -> mediatype r = "Unknown Media Type").
Proof.
  intros H Hrow Hr.
  pose proof (process_csv_row _ _ _ _ _ _ H Hrow Hr) as Hc.
  apply clean_row_ok in Hc.
  destruct Hc as (vd & vp & vs & vl & ve & vm & Hd & Hp & Hs & Hl & _ & Hm & _ & ->).
  simpl. repeat split; intros N.
  - rewrite (row_get_absent _ row _ N) in Hd. now injection Hd as <-.
  - rewrite (row_get_absent _ row _ N) in Hp. now injection Hp as <-.
  - rewrite (row_get_absent _ row _ N) in Hs. now injection Hs as <-.
  - rewrite (row_get_absent _ row _ N) in Hl. now injection Hl as <-.
  - rewrite (row_get_absent _ row _ N) in Hm. now injection Hm as <-.
Qed.

Lemma clean_row_ext (get get' : string -> Lookup) :
  (forall col, In col expected_columns -> get col = get' col) ->
  clean_row pd get = clean_row pd get'.
Proof.
  intros H. unfold clean_row.
  rewrite !H by (simpl; auto 10). reflexivity.
Qed.

(** X6: the row loop reads a row through the six lookups only: two frames,
    both empty or both not, whose rows answer alike, one by one, to
    [row.get] for each of the six expected labels get the same table or the
    same exception, whatever else the rows hold. *)
Theorem process_csv_reads_expected_cells (df df' : DataFrame) :
  df_empty df = df_empty df' ->
  Forall2 (fun row row' =>
             same_expected_cells (normalized_headers df) row
               (normalized_headers df') row')
    (rows df) (rows df') ->
  process_csv pd df = process_csv pd df'.
Proof.
  intros He H. unfold process_csv. rewrite He.
  destruct (df_empty df'); [reflexivity|].
  induction H as [|row row' rs rs' Hrow _ IH]; [reflexivity|].
  simpl. rewrite IH. now rewrite (clean_row_ext _ _ Hrow).
Qed.

(** X7: when an expected label is borne by two headers or more, the cleaner
    never returns a table for a frame with at least one row (its rows being
    as wide as the header). *)
Theorem process_csv_duplicate_label_raises (df : DataFrame) (col : string) :
  df_empty df = false ->
  In col expected_columns ->
  (2 <= count_occ string_dec (normalized_headers df) col)%nat ->
  Forall (fun row => List.length row = List.length (columns df)) (rows df) ->
  exists e, process_csv pd df = Raise e.
Proof.
  intros E Hcol Hdup Hwide.
  destruct (process_csv pd df) as [out|e] eqn:H; [|eauto]. exfalso.
  assert (forallb (cleanable (normalized_headers df)) (rows df) = true) as Hex.
  { apply clean_rows_cleanable. exists out. unfold process_csv in H. now rewrite E in H. }
  unfold df_empty in E. destruct (columns df) as [|c cs] eqn:Ec; [discriminate|].
  destruct (rows df) as [|row rs] eqn:Er; [discriminate|].
  inversion Hwide as [|? ? Hrow _]; subst.
  simpl in Hex. apply andb_true_iff in Hex. destruct Hex as [Hex _].
  assert (is_single (row_get (normalized_headers df) row col) = false) as Hmany.
  { unfold row_get.
    assert (List.length (cells (normalized_headers df) row col)
            = count_occ string_dec (normalized_headers df) col) as Hl.
    { apply cells_length. unfold normalized_headers. rewrite length_map, Ec. exact Hrow. }
    destruct (cells (normalized_headers df) row col) as [|v [|w vs]];
      simpl in Hl; try lia. reflexivity. }
  unfold cleanable in Hex.
  repeat (apply andb_true_iff in Hex; destruct Hex as [Hex ?]).
  assert (is_single (row_get (normalized_headers df) row "engagements") = true) as He.
  { destruct (row_get (normalized_headers df) row "engagements"); [reflexivity | discriminate]. }
  simpl in Hcol.
  destruct Hcol as [<- | [<- | [<- | [<- | [<- | [<- | []]]]]]]; congruence.
Qed.

Lemma cleaned_text_stripped v : strip (cleaned_text pd v) = cleaned_text pd v.
Proof.
  unfold cleaned_text. destruct (notna v); [apply strip_idem | reflexivity].
Qed.

(** X8: the text fields of a produced record carry no whitespace at either
    end: stripping platform, sentiment, location or mediatype again changes
    nothing. *)
Theorem process_csv_text_fields_stripped (df : DataFrame) out i row r :
  process_csv pd df = Ok out ->
  nth_error (rows df) i = Some row ->
  nth_error out i = Some r ->
  strip (platform r) = platform r /\
  strip (sentiment r) = sentiment r /\
  strip (location r) = location r /\
  strip (mediatype r) = mediatype r.
Proof.
  intros H Hrow Hr.
  pose proof (process_csv_row _ _ _ _ _ _ H Hrow Hr) as Hc.
  apply clean_row_ok in Hc.
  destruct Hc as (vd & vp & vs & vl & ve & vm & _ & _ & _ & _ & _ & _ & _ & ->).
  simpl. repeat split; try apply cleaned_text_stripped.
  unfold rewrite_mediatype.
  destruct (String.eqb (cleaned_text pd vm) "Unknown"); [reflexivity|].
  apply cleaned_text_stripped.
Qed.

End RecordCleanerFurther.

(** ** Counting rows *)

Lemma get_count_cons x k n l :
  get_count x ((k, n) :: l) = if String.eqb k x then n else get_count x l.
Proof. unfold get_count. simpl. now destruct (String.eqb k x). Qed.

Lemma get_count_count_one x k acc :
  get_count x (count_one k acc) = get_count x acc + (if String.eqb x k then 1 else 0).
Proof.
  induction acc as [|[k' n] acc IH].
  - simpl. rewrite get_count_cons, String.eqb_sym. unfold get_count. simpl.
    destruct (String.eqb x k); lia.
  - simpl. destruct (String.eqb k k') eqn:E.
    + apply String.eqb_eq in E. subst k'. rewrite !get_count_cons.
      rewrite (String.eqb_sym x k). destruct (String.eqb k x); lia.
    + rewrite !get_count_cons. destruct (String.eqb k' x) eqn:E'.
      * apply String.eqb_eq in E'. subst x. rewrite String.eqb_sym, E. lia.
      * exact IH.
Qed.

Lemma count_one_keys y k acc :
  In y (map fst (count_one k acc)) <-> y = k \/ In y (map fst acc).
Proof.
  induction acc as [|[k' n] acc IH]; simpl.
  - intuition.
  - destruct (String.eqb k k') eqn:E; simpl.
    + apply String.eqb_eq in E. subst k'. intuition.
    + rewrite IH. intuition.
Qed.

Lemma count_one_nodup k acc :
  NoDup (map fst acc) -> NoDup (map fst (count_one k acc)).
Proof.
  induction acc as [|[k' n] acc IH]; simpl; intros H.
  - repeat constructor. intros [].
  - inversion H as [|? ? Hn Hd]; subst.
    destruct (String.eqb k k') eqn:E; simpl; [now constructor|].
    apply String.eqb_neq in E. constructor; [|now apply IH].
    rewrite count_one_keys. intros [-> | Hin]; [congruence | contradiction].
Qed.

Lemma count_one_sum k acc : sum_values (count_one k acc) = sum_values acc + 1.
Proof.
  induction acc as [|[k' n] acc IH]; simpl; [lia|].
  destruct (String.eqb k k'); simpl; lia.
Qed.

Lemma tally_spec_from xs acc :
  let t := fold_left (fun acc k => count_one k acc) xs acc in
  (forall x, get_count x t = get_count x acc + Z.of_nat (count_occ string_dec xs x)) /\
  (forall x, In x (map fst t) <-> In x (map fst acc) \/ In x xs) /\
  (NoDup (map fst acc) -> NoDup (map fst t)) /\
  sum_values t = sum_values acc + Z.of_nat (List.length xs).
Proof.
  revert acc. induction xs as [|k xs IH]; intros acc; simpl.
  - repeat split; intros; try lia; intuition.
  - destruct (IH (count_one k acc)) as (I1 & I2 & I3 & I4). repeat split.
    + intros x. rewrite I1, get_count_count_one.
      destruct (string_dec k x) as [->|N].
      * rewrite String.eqb_refl. lia.
      * replace (String.eqb x k) with false
          by (symmetry; apply String.eqb_neq; congruence). lia.
    + rewrite I2, count_one_keys. intuition.
    + rewrite I2, count_one_keys. intuition.
    + intros H. apply I3. now apply count_one_nodup.
    + rewrite I4, count_one_sum. lia.
Qed.

Lemma get_count_in x n l :
  NoDup (map fst l) -> In (x, n) l -> get_count x l = n.
Proof.
  induction l as [|[k m] l IH]; simpl; intros Hnd Hin; [destruct Hin|].
  inversion Hnd as [|? ? Hn Hd]; subst. rewrite get_count_cons.
  destruct Hin as [E | Hin].
  - injection E as -> ->. now rewrite String.eqb_refl.
  - destruct (String.eqb k x) eqn:E; [|now apply IH].
    apply String.eqb_eq in E. subst k. exfalso. apply Hn.
    apply (in_map fst _ _ Hin).
Qed.

Lemma get_count_absent x l : ~ In x (map fst l) -> get_count x l = 0.
Proof.
  induction l as [|[k m] l IH]; simpl; intros H; [reflexivity|].
  rewrite get_count_cons. destruct (String.eqb k x) eqn:E.
  - apply String.eqb_eq in E. intuition.
  - apply IH. intuition.
Qed.

Lemma get_count_perm x l l' :
  NoDup (map fst l) -> Permutation l l' -> get_count x l = get_count x l'.
Proof.
  intros Hnd P.
  assert (NoDup (map fst l')) as Hnd'
    by (eapply Permutation_NoDup; [apply Permutation_map, P | exact Hnd]).
  destruct (in_dec string_dec x (map fst l)) as [Hin | Hout].
  - apply in_map_iff in Hin. destruct Hin as ([k n] & E & Hin). simpl in E. subst k.
    rewrite (get_count_in x n l Hnd Hin).
    symmetry. apply get_count_in; [exact Hnd'|]. now apply (Permutation_in _ P).
  - rewrite (get_count_absent x l Hout). symmetry. apply get_count_absent.
    intros Hin. apply Hout.
    eapply Permutation_in; [apply Permutation_map, Permutation_sym, P | exact Hin].
Qed.

(** [value_counts] has one entry per distinct value, holding the number of
    its occurrences; the entries add up to the length of the column and come
    in descending order of count. *)
Lemma value_counts_spec (xs : list string) :
  (forall x, get_count x (value_counts xs) = Z.of_nat (count_occ string_dec xs x)) /\
  (forall x, In x (map fst (value_counts xs)) <-> In x xs) /\
  NoDup (map fst (value_counts xs)) /\
  sum_values (value_counts xs) = Z.of_nat (List.length xs) /\
  ranked (value_counts xs).
Proof.
  destruct (tally_spec_from xs []) as (T1 & T2 & T3 & T4).
  pose proof (sort_values_desc_perm (tally xs)) as P. fold (value_counts xs) in P.
  assert (NoDup (map fst (tally xs))) as Hnd by (apply T3; constructor).
  repeat split.
  - intros x. rewrite (get_count_perm x _ _ (Permutation_NoDup (Permutation_map fst (Permutation_sym P)) Hnd) P).
    apply T1.
  - intros H. eapply Permutation_in in H; [|apply Permutation_map, P].
    apply T2 in H. destruct H as [[] | H]. exact H.
  - intros H. eapply Permutation_in; [apply Permutation_map, Permutation_sym, P|].
    apply T2. now right.
  - eapply Permutation_NoDup; [apply Permutation_map, Permutation_sym, P | exact Hnd].
  - rewrite (sum_values_perm _ _ P). apply T4.
  - apply sort_values_desc_ranked.
Qed.

Lemma value_counts_entry (xs : list string) x n :
  In (x, n) (value_counts xs) -> n = Z.of_nat (count_occ string_dec xs x).
Proof.
  intros H. destruct (value_counts_spec xs) as (V1 & _ & V3 & _).
  rewrite <- V1. symmetry. now apply get_count_in.
Qed.

Lemma last_cons {A} (a d : A) (l : list A) : last (a :: l) d = last l a.
Proof.
  revert a d. induction l as [|b l IH]; intros a d; [reflexivity|].
  change (last (a :: b :: l) d) with (last (b :: l) d).
  now rewrite !IH.
Qed.

Lemma ranked_last {K} (top : K * Z) (rest : list (K * Z)) :
  ranked (top :: rest) ->
  In (last rest top) (top :: rest) /\
  forall p, In p (top :: rest) -> snd (last rest top) <= snd p.
Proof.
  unfold ranked. revert top. induction rest as [|a rest IH]; intros top H.
  - simpl. split; [now left|]. intros p [<- | []]. lia.
  - inversion H as [|? ? Hs Hall]; subst. destruct (IH a Hs) as [I1 I2].
    rewrite last_cons. split.
    + now right.
    + intros p [<- | Hp]; [|now apply I2].
      rewrite Forall_forall in Hall.
      specialize (Hall a (or_introl eq_refl)). specialize (I2 a (or_introl eq_refl)). lia.
Qed.

(** The two ends of the sorted counts of a column: the first entry is a most
    frequent value, the last a least frequent one, and there is a single
    entry exactly when the column holds one value throughout. *)
Lemma sorted_counts_ends (xs : list string) :
  xs <> [] ->
  exists top rest,
    sort_values_desc (value_counts xs) = top :: rest /\
    In (fst top) xs /\ In (fst (last rest top)) xs /\
    snd top = Z.of_nat (count_occ string_dec xs (fst top)) /\
    snd (last rest top) = Z.of_nat (count_occ string_dec xs (fst (last rest top))) /\
    (forall x, Z.of_nat (count_occ string_dec xs x) <= snd top) /\
    (forall x, In x xs -> snd (last rest top) <= Z.of_nat (count_occ string_dec xs x)) /\
    ((1 <? List.length (top :: rest))%nat = false <->
     forall x y, In x xs -> In y xs -> x = y).
Proof.
  intros Hne.
  destruct (value_counts_spec xs) as (V1 & V2 & V3 & V4 & V5).
  pose proof (sort_values_desc_perm (value_counts xs)) as P.
  pose proof (sort_values_desc_ranked (value_counts xs)) as R.
  destruct (sort_values_desc (value_counts xs)) as [|top rest] eqn:E.
  { exfalso. apply Permutation_nil in P.
    revert P. now apply value_counts_nonempty. }
  exists top, rest. split; [reflexivity|].
  destruct (ranked_last top rest R) as [Lin Lmin].
  assert (forall p, In p (top :: rest) -> In p (value_counts xs)) as Hin
    by (intros p; apply (Permutation_in _ P)).
  assert (forall p, In p (value_counts xs) -> In p (top :: rest)) as Hin'
    by (intros p; apply (Permutation_in _ (Permutation_sym P))).
  assert (forall p, In p (top :: rest) ->
            In (fst p) xs /\ snd p = Z.of_nat (count_occ string_dec xs (fst p))) as Hentry.
  { intros p Hp. apply Hin in Hp. split.
    - apply V2. now apply in_map.
    - apply value_counts_entry. now rewrite <- surjective_pairing. }
  assert (forall x, In x xs -> In (x, Z.of_nat (count_occ string_dec xs x)) (top :: rest))
    as Hkey.
  { intros x Hx. apply V2 in Hx. apply in_map_iff in Hx.
    destruct Hx as ([k n] & Ek & Hp). simpl in Ek. subst k.
    rewrite <- (value_counts_entry _ _ _ Hp). now apply Hin'. }
  destruct (Hentry top (or_introl eq_refl)) as [T1 T2].
  destruct (Hentry _ Lin) as [B1 B2].
  split; [exact T1|]. split; [exact B1|]. split; [exact T2|]. split; [exact B2|].
  split; [|split].
  - intros x. destruct (in_dec string_dec x xs) as [Hx | Hx].
    + specialize (Hkey x Hx). inversion R as [|? ? _ Hall]; subst.
      destruct Hkey as [Et | Hk]; [rewrite Et; simpl; lia|].
      rewrite Forall_forall in Hall. apply (Hall _ Hk).
    + apply (count_occ_not_In string_dec) in Hx. rewrite Hx. rewrite T2. lia.
  - intros x Hx. apply (Lmin _ (Hkey x Hx)).
  - assert (NoDup (map fst (top :: rest))) as Hnd
      by (eapply Permutation_NoDup; [apply Permutation_map, Permutation_sym, P | exact V3]).
    split.
    + intros Hlen x y Hx Hy. destruct rest as [|a rest]; [|discriminate].
      destruct (Hkey x Hx) as [Ex | []]. destruct (Hkey y Hy) as [Ey | []].
      rewrite Ex in Ey. now injection Ey.
    + intros Hone. destruct rest as [|a rest]; [reflexivity|]. exfalso.
      destruct (Hentry a (or_intror (or_introl eq_refl))) as [A1 _].
      specialize (Hone _ _ T1 A1). inversion Hnd as [|? ? Hn _]; subst.
      apply Hn. simpl. left. now symmetry.
Qed.

(** ** Pie-chart frames *)

(** X9: the frames of the sentiment and media-type pie charts have one slice
    per distinct value of the column, the slice of a value counts the rows
    that carry it, the slices add up to the number of rows, and they come
    largest first. *)
Theorem pie_chart_frames (df : list CleanRecord) :
  (forall x, get_count x (create_sentiment_pie_chart df) = rows_with sentiment x df) /\
  (forall x, get_count x (create_media_type_pie_chart df) = rows_with mediatype x df) /\
  NoDup (map fst (create_sentiment_pie_chart df)) /\
  NoDup (map fst (create_media_type_pie_chart df)) /\
  sum_values (create_sentiment_pie_chart df) = Z.of_nat (List.length df) /\
  sum_values (create_media_type_pie_chart df) = Z.of_nat (List.length df) /\
  ranked (create_sentiment_pie_chart df) /\
  ranked (create_media_type_pie_chart df).
Proof.
  unfold create_sentiment_pie_chart, create_media_type_pie_chart, rows_with.
  destruct (value_counts_spec (map sentiment df)) as (S1 & _ & S3 & S4 & S5).
  destruct (value_counts_spec (map mediatype df)) as (M1 & _ & M3 & M4 & M5).
  rewrite length_map in S4, M4. repeat split; assumption.
Qed.


(** ** Sentiment *)

(** X10: the sentiment recommendation goes by the numbers of rows whose
    sentiment reads exactly Positive, Negative and Neutral: it praises when
    Positive outnumbers both others, warns when Negative does, calls for
    bolder content when Neutral does, and on a table with rows it is the
    mixed-bag statement in every other case, never the no-data one. *)
Theorem sentiment_rule_by_counts (df : list CleanRecord) :
  let pos := rows_with sentiment "Positive" df in
  let neg := rows_with sentiment "Negative" df in
  let neu := rows_with sentiment "Neutral" df in
  (sentiment_rule df = AudienceLoving <-> neg < pos /\ neu < pos) /\
  (sentiment_rule df = NegativeSentiment <-> pos < neg /\ neu < neg) /\
  (sentiment_rule df = NeutralSentiment <-> pos < neu /\ neg < neu) /\
  (sentiment_rule df = MixedSentiment <->
     df <> [] /\ ~ (neg < pos /\ neu < pos) /\ ~ (pos < neg /\ neu < neg)
     /\ ~ (pos < neu /\ neg < neu)) /\
  (sentiment_rule df = NoSentiment -> df = []).
Proof.
  intros pos neg neu. unfold sentiment_rule.
  destruct (value_counts_spec (map sentiment df)) as (V1 & _).
  rewrite !V1. fold (rows_with sentiment "Positive" df).
  fold (rows_with sentiment "Negative" df). fold (rows_with sentiment "Neutral" df).
  fold pos. fold neg. fold neu.
  assert ((0 <? Z.of_nat (List.length df)) = true <-> df <> []) as Hne.
  { destruct df; simpl; split; intros; try congruence; try discriminate.
    reflexivity. }
  destruct (0 <? Z.of_nat (List.length df)) eqn:E0.
  - assert (df <> []) as Hdf by now apply Hne.
    destruct (Z.ltb_spec neg pos), (Z.ltb_spec neu pos), (Z.ltb_spec pos neg),
      (Z.ltb_spec neu neg), (Z.ltb_spec pos neu), (Z.ltb_spec neg neu);
      try lia; simpl; repeat split; intros; try discriminate; try lia; try assumption;
      try (intuition lia).
  - assert (df = []) as Hdf.
    { destruct df; [reflexivity|]. simpl in E0. discriminate. }
    destruct (Z.ltb_spec neg pos), (Z.ltb_spec neu pos), (Z.ltb_spec pos neg),
      (Z.ltb_spec neu neg), (Z.ltb_spec pos neu), (Z.ltb_spec neg neu);
      try lia; simpl; repeat split; intros; try discriminate; try lia; try assumption;
      try (intuition (try lia; try congruence)).
Qed.

Example sentiment_rule_is_case_sensitive :
  sentiment_rule [felt "positive"; felt "positive"; felt "Negative"] = NegativeSentiment.
Proof. reflexivity. Qed.

(** X11: on a table with rows, [get_sentiment_insights] names first a most
    frequent sentiment with its share of the rows; when every row has the same
    sentiment the second sentence is the only-one-category one, otherwise it
    names a least frequent sentiment with its share. *)
Theorem get_sentiment_insights_ends (df : list CleanRecord) :
  df <> [] ->
  exists top bottom,
    In top (create_sentiment_pie_chart df) /\
    In bottom (create_sentiment_pie_chart df) /\
    (forall x, rows_with sentiment x df <= snd top) /\
    (forall x, In x (map sentiment df) -> snd bottom <= rows_with sentiment x df) /\
    ((forall r r', In r df -> In r' df -> sentiment r = sentiment r') ->
     get_sentiment_insights df
     = [ MostCommonSentiment (fst top) (percent_of (snd top) (Z.of_nat (List.length df)));
         OnlyOneSentiment; SentimentSpread ]) /\
    (~ (forall r r', In r df -> In r' df -> sentiment r = sentiment r') ->
     get_sentiment_insights df
     = [ MostCommonSentiment (fst top) (percent_of (snd top) (Z.of_nat (List.length df)));
         LeastCommonSentiment (fst bottom)
           (percent_of (snd bottom) (Z.of_nat (List.length df)));
         SentimentSpread ]).
Proof.
  intros Hdf.
  assert (map sentiment df <> []) as Hne by (destruct df; [congruence | discriminate]).
  destruct (sorted_counts_ends _ Hne)
    as (top & rest & E & _ & _ & _ & _ & Hmax & Hmin & Hone).
  pose proof (sort_values_desc_perm (value_counts (map sentiment df))) as P.
  rewrite E in P.
  exists top, (last rest top).
  assert ((Z.of_nat (List.length df) =? 0) = false) as Hlen
    by (destruct df; [congruence | reflexivity]).
  assert ((forall r r', In r df -> In r' df -> sentiment r = sentiment r') <->
          (forall x y, In x (map sentiment df) -> In y (map sentiment df) -> x = y))
    as Hsame.
  { split.
    - intros H x y Hx Hy. apply in_map_iff in Hx, Hy.
      destruct Hx as (r & <- & Hr). destruct Hy as (r' & <- & Hr'). now apply H.
    - intros H r r' Hr Hr'. apply H; now apply in_map. }
  unfold create_sentiment_pie_chart, rows_with.
  split; [apply (Permutation_in _ P); now left|].
  split; [apply (Permutation_in _ P); apply (ranked_last top rest);
          rewrite <- E; apply sort_values_desc_ranked|].
  split; [exact Hmax|]. split; [exact Hmin|].
  unfold get_sentiment_insights. rewrite Hlen, E. split.
  - intros H. now rewrite (proj2 Hone (proj1 Hsame H)).
  - intros H.
    destruct (1 <? List.length (top :: rest))%nat eqn:El; [reflexivity|].
    exfalso. exact (H (proj2 Hsame (proj1 Hone eq_refl))).
Qed.

Example ten_posts_insights :
  get_sentiment_insights ten_posts
  = [ MostCommonSentiment "Positive" (float_of_Z 70);
      LeastCommonSentiment "Negative" (float_of_Z 10);
      SentimentSpread ].
Proof. vm_compute. reflexivity. Qed.

(** ** Media types *)

(** X12: [get_media_type_insights] never fails on an index: an empty table
    gives the no-data sentence, and a table with rows gives three sentences,
    the first naming a most used media type with its share of the rows and
    the second a least used one. *)
Theorem get_media_type_insights_total (df : list CleanRecord) :
  (df = [] -> get_media_type_insights df = Some [NoMediaTypeData]) /\
  (df <> [] ->
   exists top bottom,
     In top (create_media_type_pie_chart df) /\
     In bottom (create_media_type_pie_chart df) /\
     (forall x, rows_with mediatype x df <= snd top) /\
     (forall x, In x (map mediatype df) -> snd bottom <= rows_with mediatype x df) /\
     get_media_type_insights df
     = Some [ HeavyOn (fst top) (percent_of (snd top) (Z.of_nat (List.length df)));
              LeastUsed (fst bottom) (percent_of (snd bottom) (Z.of_nat (List.length df)));
              MediaMixNote ]).
Proof.
  split; [now intros ->|]. intros Hdf.
  assert (map mediatype df <> []) as Hne by (destruct df; [congruence | discriminate]).
  destruct (sorted_counts_ends _ Hne)
    as (top & rest & E & _ & _ & _ & _ & Hmax & Hmin & _).
  pose proof (sort_values_desc_perm (value_counts (map mediatype df))) as P.
  rewrite E in P.
  exists top, (last rest top).
  assert ((Z.of_nat (List.length df) =? 0) = false) as Hlen
    by (destruct df; [congruence | reflexivity]).
  unfold create_media_type_pie_chart, rows_with.
  split; [apply (Permutation_in _ P); now left|].
  split; [apply (Permutation_in _ P); apply (ranked_last top rest);
          rewrite <- E; apply sort_values_desc_ranked|].
  split; [exact Hmax|]. split; [exact Hmin|].
  unfold get_media_type_insights. now rewrite Hlen, E.
Qed.

(** ** Platforms *)

Lemma string_compare_lt_trans (a b c : string) :
  String.compare a b = Lt -> String.compare b c = Lt -> String.compare a c = Lt.
Proof.
  revert b c. induction a as [|x a IH]; intros [|y b] [|z c]; simpl;
    try discriminate; try reflexivity.
  destruct (Ascii.compare x y) eqn:Exy; try discriminate.
  - apply Ascii.compare_eq_iff in Exy. subst y.
    destruct (Ascii.compare x z); try discriminate; [apply IH | reflexivity].
  - intros _. destruct (Ascii.compare y z) eqn:Eyz; try discriminate.
    + apply Ascii.compare_eq_iff in Eyz. subst z. now rewrite Exy.
    + intros _. unfold Ascii.compare in *.
      rewrite N.compare_lt_iff in Exy, Eyz.
      replace (N_of_ascii x ?= N_of_ascii z)%N with Lt; [reflexivity|].
      symmetry. apply N.compare_lt_iff. lia.
Qed.

Lemma label_lt_trans a b c : label_lt a b -> label_lt b c -> label_lt a c.
Proof.
  unfold label_lt, String.ltb. intros H1 H2.
  destruct (String.compare a b) eqn:E1; try discriminate.
  destruct (String.compare b c) eqn:E2; try discriminate.
  now rewrite (string_compare_lt_trans _ _ _ E1 E2).
Qed.

Lemma string_compare_refl (a : string) : String.compare a a = Eq.
Proof.
  induction a as [|x a IH]; simpl; [reflexivity|].
  unfold Ascii.compare. now rewrite N.compare_refl.
Qed.

Lemma label_lt_irrefl a : ~ label_lt a a.
Proof.
  unfold label_lt, String.ltb. rewrite string_compare_refl. discriminate.
Qed.

Lemma label_lt_total a b :
  String.ltb a b = false -> String.eqb a b = false -> label_lt b a.
Proof.
  unfold label_lt, String.ltb. intros H1 H2. apply String.eqb_neq in H2.
  rewrite String.compare_antisym.
  destruct (String.compare a b) eqn:E; try discriminate; [|reflexivity].
  apply String.compare_eq_iff in E. contradiction.
Qed.

Lemma add_to_group_label_value_at d k e s :
  same_int64 (label_value_at d (add_to_group String.ltb String.eqb k e s))
    (label_value_at d s + (if String.eqb k d then e else 0)).
Proof.
  unfold same_int64.
  induction s as [|[k' v] s IH]; simpl.
  - destruct (String.eqb k d); [|reflexivity]. rewrite wrap64_add_l. f_equal. lia.
  - destruct (String.ltb k k') eqn:E1; simpl.
    { destruct (String.eqb k d), (String.eqb k' d); try (f_equal; lia);
        rewrite wrap64_add_l; f_equal; lia. }
    destruct (String.eqb k k') eqn:E2; simpl.
    + apply String.eqb_eq in E2. subst k'.
      destruct (String.eqb k d); [|f_equal; lia]. rewrite wrap64_add_l. f_equal. lia.
    + destruct (String.eqb k' d).
      * rewrite <- wrap64_add_r, IH, wrap64_add_r. f_equal. lia.
      * exact IH.
Qed.

Lemma add_to_group_labels d k e s :
  In d (map fst (add_to_group String.ltb String.eqb k e s)) <-> d = k \/ In d (map fst s).
Proof.
  induction s as [|[k' v] s IH]; simpl.
  - intuition.
  - destruct (String.ltb k k') eqn:E1; simpl; [intuition|].
    destruct (String.eqb k k') eqn:E2; simpl.
    + apply String.eqb_eq in E2. subst k'. intuition.
    + rewrite IH. intuition.
Qed.

Lemma add_to_group_ascending_labels k e s :
  ascending_labels s -> ascending_labels (add_to_group String.ltb String.eqb k e s).
Proof.
  unfold ascending_labels.
  induction s as [|[k' v] s IH]; simpl; intros H.
  - repeat constructor.
  - inversion H as [|? ? Hs Hall]; subst.
    destruct (String.ltb k k') eqn:E1; simpl.
    + constructor; [exact H|]. constructor; [exact E1|].
      eapply Forall_impl; [|exact Hall]. intros x Hx. now apply (label_lt_trans k k' x).
    + destruct (String.eqb k k') eqn:E2; simpl; [now constructor|].
      constructor; [now apply IH|].
      apply Forall_forall. intros x Hx. apply add_to_group_labels in Hx.
      destruct Hx as [-> | Hx]; [now apply label_lt_total|].
      rewrite Forall_forall in Hall. now apply Hall.
Qed.

Lemma groupby_label_from (rs acc : list (string * Z)) :
  let s := fold_left (fun s r => add_to_group String.ltb String.eqb (fst r) (snd r) s)
             rs acc in
  (ascending_labels acc -> ascending_labels s) /\
  (forall d, same_int64 (label_value_at d s) (label_value_at d acc + label_value_at d rs)) /\
  (forall d, In d (map fst s) <-> In d (map fst acc) \/ In d (map fst rs)).
Proof.
  revert acc. induction rs as [|r rs IH]; intros acc; simpl.
  - repeat split; intros; try (unfold same_int64; f_equal; lia); intuition.
  - destruct (IH (add_to_group String.ltb String.eqb (fst r) (snd r) acc))
      as (I1 & I2 & I3).
    repeat split.
    + intros H. apply I1. now apply add_to_group_ascending_labels.
    + intros d. unfold same_int64 in *. rewrite I2.
      rewrite <- wrap64_add_l, add_to_group_label_value_at, wrap64_add_l.
      destruct (String.eqb (fst r) d); f_equal; lia.
    + rewrite I3, add_to_group_labels. intuition.
    + rewrite I3, add_to_group_labels. intuition.
Qed.

Lemma label_value_at_absent d s : ~ In d (map fst s) -> label_value_at d s = 0.
Proof.
  induction s as [|p s IH]; simpl; intros H; [reflexivity|].
  destruct (String.eqb (fst p) d) eqn:E.
  - apply String.eqb_eq in E. intuition.
  - apply IH. intuition.
Qed.

Lemma ascending_labels_nodup s : ascending_labels s -> NoDup (map fst s).
Proof.
  unfold ascending_labels. induction 1 as [|a l Hs IH Hall]; constructor; [|exact IH].
  intros Hin. rewrite Forall_forall in Hall.
  exact (label_lt_irrefl a (Hall a Hin)).
Qed.

Lemma ascending_label_value_at d v s :
  ascending_labels s -> In (d, v) s -> label_value_at d s = v.
Proof.
  intros Hasc. pose proof (ascending_labels_nodup s Hasc) as Hnd. clear Hasc.
  induction s as [|[k w] s IH]; simpl in *; intros Hin; [destruct Hin|].
  inversion Hnd as [|? ? Hn Hd]; subst.
  destruct Hin as [E | Hin].
  - injection E as -> ->. rewrite String.eqb_refl.
    rewrite label_value_at_absent by exact Hn. lia.
  - destruct (String.eqb k d) eqn:E; [|now apply IH].
    apply String.eqb_eq in E. subst k. exfalso. apply Hn. apply (in_map fst _ _ Hin).
Qed.

Lemma label_value_at_rows p df :
  label_value_at p (map (fun r => (platform r, engagements r)) df) = platform_sum p df.
Proof.
  induction df as [|r df IH]; simpl; [reflexivity|]. now rewrite IH.
Qed.

Lemma sum_values_rows df :
  sum_values (map (fun r => (platform r, engagements r)) df) = all_engagements df.
Proof.
  unfold all_engagements. induction df as [|r df IH]; simpl; [reflexivity | now rewrite IH].
Qed.

Lemma platform_sum_magnitude p df : Z.abs (platform_sum p df) <= total_magnitude df.
Proof.
  unfold total_magnitude. induction df as [|r df IH]; simpl; [lia|].
  destruct (String.eqb (platform r) p); lia.
Qed.

Lemma all_engagements_magnitude df : Z.abs (all_engagements df) <= total_magnitude df.
Proof.
  unfold all_engagements, total_magnitude. induction df as [|r df IH]; simpl; lia.
Qed.

Lemma platform_engagements_magnitude df :
  Z.abs (sum_values (platform_engagements df)) <= total_magnitude df.
Proof.
  pose proof (sum_values_magnitude (platform_engagements df)) as H1.
  unfold platform_engagements in *.
  pose proof (groupby_sum_magnitude String.ltb String.eqb
                (map (fun r => (platform r, engagements r)) df)) as H2.
  assert (sum_values (map (fun p => (fst p, Z.abs (snd p)))
                        (map (fun r => (platform r, engagements r)) df))
          = total_magnitude df) as H3; [|lia].
  clear. unfold total_magnitude.
  induction df as [|r df IH]; simpl; [reflexivity | now rewrite IH].
Qed.

(** Grouping by platform: labels in strictly ascending order, one per
    platform present, each with the int64 sum of the engagements of its
    rows. *)
Lemma platform_engagements_spec (df : list CleanRecord) :
  ascending_labels (platform_engagements df) /\
  (forall p, In p (map fst (platform_engagements df)) <-> In p (map platform df)) /\
  (forall p v, In (p, v) (platform_engagements df) -> v = wrap64 (platform_sum p df)) /\
  same_int64 (sum_values (platform_engagements df)) (all_engagements df).
Proof.
  pose proof (groupby_sum_int64 String.ltb String.eqb
                (map (fun r => (platform r, engagements r)) df)) as Hint.
  revert Hint. unfold platform_engagements, groupby_sum.
  set (rs := map (fun r => (platform r, engagements r)) df).
  intros Hint.
  destruct (groupby_label_from rs []) as (G1 & G2 & G3).
  assert (ascending_labels
            (fold_left (fun s r => add_to_group String.ltb String.eqb (fst r) (snd r) s)
               rs [])) as Hasc by (apply G1; constructor).
  repeat split.
  - exact Hasc.
  - intros H. apply G3 in H. destruct H as [[] | H].
    unfold rs in H. now rewrite map_map in H.
  - intros H. apply G3. right. unfold rs. now rewrite map_map.
  - intros p v Hin.
    assert (in_int64 v) as Hv.
    { rewrite Forall_forall in Hint. exact (Hint _ Hin). }
    apply (ascending_label_value_at _ _ _ Hasc) in Hin.
    rewrite <- (wrap64_fits v Hv), <- Hin. rewrite G2. simpl.
    unfold rs. now rewrite label_value_at_rows.
  - unfold same_int64. rewrite groupby_sum_total_from. simpl.
    unfold rs. now rewrite sum_values_rows.
Qed.

(** X13: for a table of int64 engagements the frame of the platform bar
    chart has one bar per platform of the table, largest first; the bar of a
    platform carries the int64 sum of the engagements of its rows, and the
    bars add up, as int64, to all the engagements of the table; when the sums
    of the table fit, the bars carry the exact sums and add up exactly. *)
Theorem platform_bar_chart_frame (df : list CleanRecord) :
  int64_column df ->
  NoDup (map fst (create_platform_bar_chart df)) /\
  (forall p, In p (map fst (create_platform_bar_chart df)) <-> In p (map platform df)) /\
  (forall p v, In (p, v) (create_platform_bar_chart df) ->
     v = wrap64 (platform_sum p df)) /\
  series_sum (create_platform_bar_chart df) = wrap64 (all_engagements df) /\
  ranked (create_platform_bar_chart df) /\
  (sums_fit_int64 df ->
   (forall p v, In (p, v) (create_platform_bar_chart df) -> v = platform_sum p df) /\
   sum_values (create_platform_bar_chart df) = all_engagements df).
Proof.
  intros _. unfold create_platform_bar_chart.
  destruct (platform_engagements_spec df) as (A1 & A2 & A3 & A4).
  pose proof (sort_values_desc_perm (platform_engagements df)) as P.
  split.
  { eapply Permutation_NoDup; [apply Permutation_map, Permutation_sym, P|].
    now apply ascending_labels_nodup. }
  split.
  { intros p. rewrite <- A2. split; intros H.
    - eapply Permutation_in; [apply Permutation_map, P | exact H].
    - eapply Permutation_in; [apply Permutation_map, Permutation_sym, P | exact H]. }
  split.
  { intros p v H. apply A3. now apply (Permutation_in _ P). }
  split.
  { rewrite series_sum_wrap, (sum_values_perm _ _ P). exact A4. }
  split; [apply sort_values_desc_ranked|].
  intros Hfit. split.
  - intros p v H. rewrite (A3 p v (Permutation_in _ P H)).
    apply (fits_magnitude _ df Hfit), platform_sum_magnitude.
  - rewrite (sum_values_perm _ _ P).
    rewrite <- (fits_magnitude _ df Hfit (platform_engagements_magnitude df)).
    rewrite A4. apply (fits_magnitude _ df Hfit), all_engagements_magnitude.
Qed.

(** X14: [get_platform_insights] answers an empty table with the no-data
    sentence; on a table with rows, of int64 engagements, its first sentence
    names a platform whose int64 engagement sum is the largest and its second
    one a platform whose sum is the smallest, each with that sum, which is
    the exact sum when the sums of the table fit. *)
Theorem get_platform_insights_ends (df : list CleanRecord) :
  int64_column df ->
  (df = [] -> get_platform_insights df = [NoPlatformData]) /\
  (df <> [] ->
   exists best worst,
     In best (map platform df) /\ In worst (map platform df) /\
     (forall p, In p (map platform df) ->
        wrap64 (platform_sum worst df) <= wrap64 (platform_sum p df)
        <= wrap64 (platform_sum best df)) /\
     get_platform_insights df
     = [ SuperstarPlatform best (wrap64 (platform_sum best df));
         FewestEngagements worst (wrap64 (platform_sum worst df));
         PlatformSpread ]) /\
  (sums_fit_int64 df -> forall p, wrap64 (platform_sum p df) = platform_sum p df).
Proof.
  intros _.
  split; [now intros ->|].
  split; [|intros Hfit p; apply (fits_magnitude _ df Hfit), platform_sum_magnitude].
  intros Hdf.
  destruct (platform_engagements_spec df) as (A1 & A2 & A3 & A4).
  pose proof (sort_values_desc_perm (platform_engagements df)) as P.
  pose proof (sort_values_desc_ranked (platform_engagements df)) as R.
  unfold get_platform_insights.
  destruct (sort_values_desc (platform_engagements df)) as [|top rest] eqn:E.
  { exfalso. revert E. apply sort_values_desc_nonempty. unfold platform_engagements.
    apply groupby_sum_nonempty. destruct df; [congruence | discriminate]. }
  destruct (ranked_last top rest R) as [Lin Lmin].
  assert (forall q, In q (top :: rest) ->
            In (fst q) (map platform df) /\ snd q = wrap64 (platform_sum (fst q) df))
    as Hentry.
  { intros q Hq. apply (Permutation_in _ P) in Hq. split.
    - apply A2. now apply in_map.
    - apply A3. now rewrite <- surjective_pairing. }
  assert (forall p, In p (map platform df) ->
            In (p, wrap64 (platform_sum p df)) (top :: rest))
    as Hkey.
  { intros p Hp. apply A2 in Hp. apply in_map_iff in Hp.
    destruct Hp as ([k v] & Ek & Hq). simpl in Ek. subst k.
    rewrite <- (A3 _ _ Hq). now apply (Permutation_in _ (Permutation_sym P)). }
  destruct (Hentry top (or_introl eq_refl)) as [T1 T2].
  destruct (Hentry _ Lin) as [B1 B2].
  exists (fst top), (fst (last rest top)).
  split; [exact T1|]. split; [exact B1|]. split.
  - intros p Hp. specialize (Hkey p Hp). rewrite <- T2, <- B2. split.
    + exact (Lmin _ Hkey).
    + inversion R as [|? ? _ Hall]; subst. destruct Hkey as [Et | Hk].
      * rewrite Et. simpl. lia.
      * rewrite Forall_forall in Hall. exact (Hall _ Hk).
  - now rewrite <- T2, <- B2.
Qed.

(** ** Overall recommendations *)

Lemma top_rule_cases unknown focus missing nodata sorted :
  (exists name, top_rule unknown focus missing nodata sorted = focus name) \/
  top_rule unknown focus missing nodata sorted = missing \/
  top_rule unknown focus missing nodata sorted = nodata.
Proof.
  destruct sorted as [|[name n] rest]; simpl; [auto|].
  destruct (negb (String.eqb name unknown) && (0 <? n)); [eauto|].
  destruct (String.eqb name unknown); auto.
Qed.

Lemma sentiment_rule_cases df :
  df <> [] ->
  In (sentiment_rule df) [AudienceLoving; NegativeSentiment; NeutralSentiment; MixedSentiment].
Proof.
  intros Hdf. unfold sentiment_rule.
  assert ((0 <? Z.of_nat (List.length df)) = true) as ->
    by (destruct df; [congruence | reflexivity]).
  repeat match goal with |- context [if ?b then _ else _] => destruct b end;
    simpl; auto.
Qed.

Lemma trend_rule_range s :
  In (trend_rule s)
     [TrendUpward; TrendDeclining; TrendStable; TrendUnclear; TrendLimited; TrendNoData].
Proof.
  unfold trend_rule.
  repeat match goal with |- context [if ?b then _ else _] => destruct b end;
    simpl; auto 10.
Qed.

Lemma counts_rule_cases unknown focus missing nodata xs :
  xs <> [] ->
  (exists name, In name xs /\
     top_rule unknown focus missing nodata (sort_values_desc (value_counts xs)) = focus name)
  \/ top_rule unknown focus missing nodata (sort_values_desc (value_counts xs)) = missing.
Proof.
  intros Hne.
  destruct (sorted_counts_ends _ Hne) as (top & rest & E & Hin & _ & Hn & _).
  rewrite E, top_rule_counts.
  - destruct (String.eqb (fst top) unknown); eauto.
  - rewrite Hn. apply (count_occ_In string_dec) in Hin. lia.
Qed.

(** X15: on a table with rows [get_overall_recommendations] returns five
    statements, one per rule and in the order sentiment, trend, platform,
    media type, location; the no-data statements for sentiment, media type
    and location never occur, and a media type or location that is named is
    one of the table.  An empty table gets the upload prompt alone. *)
Theorem get_overall_recommendations_shape (df : list CleanRecord) :
  (df = [] -> get_overall_recommendations df = [UploadPrompt]) /\
  (df <> [] ->
   exists s t p m l,
     get_overall_recommendations df = [s; t; p; m; l] /\
     In s [AudienceLoving; NegativeSentiment; NeutralSentiment; MixedSentiment] /\
     In t [TrendUpward; TrendDeclining; TrendStable; TrendUnclear; TrendLimited;
           TrendNoData] /\
     ((exists name, p = PlatformFocus name) \/ p = PlatformMissing \/ p = PlatformNoData) /\
     ((exists name, In name (map mediatype df) /\ m = MediaFocus name) \/ m = MediaMissing) /\
     ((exists name, In name (map location df) /\ l = LocationFocus name)
      \/ l = LocationMissing)).
Proof.
  split; [now intros ->|]. intros Hdf.
  exists (sentiment_rule df), (trend_rule (engagements_by_date df)), (platform_rule df),
         (media_type_rule df), (location_rule df).
  split; [destruct df; [congruence | reflexivity]|].
  split; [now apply sentiment_rule_cases|].
  split; [apply trend_rule_range|].
  split; [apply top_rule_cases|].
  split; apply counts_rule_cases; destruct df; (congruence || discriminate).
Qed.

(** ** Daily engagements *)

(** X16: [get_engagement_insights] gives its no-data sentence exactly when
    no row of the table is dated; otherwise it gives three sentences. *)
Theorem get_engagement_insights_no_data (df : list CleanRecord) :
  (get_engagement_insights df = [NoEngagementData] <->
   forall r, In r df -> date r = None) /\
  (get_engagement_insights df <> [NoEngagementData] ->
   List.length (get_engagement_insights df) = 3%nat).
Proof.
  destruct (engagements_by_date_spec df) as (_ & Hkeys & _).
  unfold get_engagement_insights.
  destruct (engagements_by_date df) as [|p s] eqn:E; simpl.
  - split; [|congruence]. split; [|reflexivity]. intros _ r Hr.
    destruct (date r) as [t|] eqn:Ed; [|reflexivity].
    exfalso. apply (proj2 (Hkeys (dt_date t))). exists r, t. auto.
  - split; [|reflexivity]. split; [discriminate|]. intros H. exfalso.
    destruct (proj1 (Hkeys (fst p)) (or_introl eq_refl)) as (r & t & Hr & Hd & _).
    rewrite (H r Hr) in Hd. discriminate.
Qed.

Lemma sum_values_bounds (s : list (Z * Z)) lo hi :
  (forall p, In p s -> lo <= snd p <= hi) ->
  Z.of_nat (List.length s) * lo <= sum_values s <= Z.of_nat (List.length s) * hi.
Proof.
  induction s as [|p s IH]; intros H; [simpl; lia|].
  assert (lo <= snd p <= hi) as Hp by (apply H; now left).
  assert (Z.of_nat (List.length s) * lo <= sum_values s <= Z.of_nat (List.length s) * hi)
    as Hs by (apply IH; intros q Hq; apply H; now right).
  change (sum_values (p :: s)) with (snd p + sum_values s).
  change (List.length (p :: s)) with (S (List.length s)).
  rewrite Nat2Z.inj_succ. lia.
Qed.

(** X17: in the statistics of a series of int64 values the lowest daily sum
    is at most the highest; the total is an int64, and when the exact sum of
    the values is one too, the total lies between the number of days times
    the lowest sum and the number of days times the highest. *)
Theorem engagement_stats_bounds (s : list (Z * Z)) (st : EngagementStats) :
  Forall (fun p => in_int64 (snd p)) s ->
  engagement_stats s = Some st ->
  min_engagements st <= max_engagements st /\
  in_int64 (total_engagements st) /\
  (in_int64 (sum_values s) ->
   Z.of_nat (List.length s) * min_engagements st <= total_engagements st /\
   total_engagements st <= Z.of_nat (List.length s) * max_engagements st).
Proof.
  intros _.
  destruct s as [|p s']; cbn [engagement_stats]; [discriminate|]. intros [= <-].
  cbn [min_engagements max_engagements total_engagements].
  destruct (series_max_spec (snd p) s') as (M1 & M2 & _).
  destruct (series_min_spec (snd p) s') as (N1 & N2 & _).
  assert (forall q, In q (p :: s') ->
            series_min (snd p) s' <= snd q <= series_max (snd p) s') as Hb.
  { intros q [<- | Hq]; [lia|]. specialize (M2 q Hq). specialize (N2 q Hq). lia. }
  pose proof (sum_values_bounds (p :: s') _ _ Hb) as Hs.
  change (wrap64 (snd p + series_sum s')) with (series_sum (p :: s')).
  split; [lia|]. split; [apply series_sum_range|].
  intros Hfit. rewrite series_sum_wrap, (wrap64_fits _ Hfit). exact Hs.
Qed.

Lemma daily_sum_perm d (df df' : list CleanRecord) :
  Permutation df df' -> daily_sum d df = daily_sum d df'.
Proof.
  induction 1 as [|r l l' _ IH|r r' l|l l' l'' _ IH1 _ IH2]; simpl.
  - reflexivity.
  - now rewrite IH.
  - destruct (date r) as [t|], (date r') as [t'|]; try reflexivity.
    destruct (dt_date t =? d), (dt_date t' =? d); lia.
  - congruence.
Qed.

Lemma has_date_perm d (df df' : list CleanRecord) :
  Permutation df df' -> has_date d df -> has_date d df'.
Proof.
  intros P (r & t & Hr & Hd & Ht). exists r, t.
  split; [now apply (Permutation_in _ P) | auto].
Qed.

Lemma ascending_head_least k v (t : list (Z * Z)) d :
  ascending_dates ((k, v) :: t) -> In d (map fst t) -> k < d.
Proof.
  unfold ascending_dates. simpl. intros H Hd.
  inversion H as [|? ? _ Hall]; subst. rewrite Forall_forall in Hall. now apply Hall.
Qed.

(** Two date-keyed series with ascending index, the same days and the same
    value on every day are the same series. *)
Lemma ascending_dates_ext (s s' : list (Z * Z)) :
  ascending_dates s -> ascending_dates s' ->
  (forall d, In d (map fst s) <-> In d (map fst s')) ->
  (forall d, value_at d s = value_at d s') ->
  s = s'.
Proof.
  revert s'. induction s as [|[k v] t IH]; intros s' Ha Ha' Hk Hv.
  - destruct s' as [|[k' v'] t']; [reflexivity|].
    exfalso. apply (proj2 (Hk k')). now left.
  - destruct s' as [|[k' v'] t'].
    { exfalso. apply (proj1 (Hk k)). now left. }
    assert (k = k') as <-.
    { destruct (proj1 (Hk k) (or_introl eq_refl)) as [E | Hin]; [now symmetry|].
      destruct (proj2 (Hk k') (or_introl eq_refl)) as [E | Hin']; [exact E|].
      pose proof (ascending_head_least _ _ _ _ Ha' Hin).
      pose proof (ascending_head_least _ _ _ _ Ha Hin'). simpl in *. lia. }
    assert (v = v') as <-.
    { rewrite <- (ascending_value_at k v _ Ha (or_introl eq_refl)).
      rewrite <- (ascending_value_at k v' _ Ha' (or_introl eq_refl)). apply Hv. }
    f_equal.
    assert (forall (u : list (Z * Z)) w, ascending_dates ((k, w) :: u) ->
              ~ In k (map fst u)) as Hfresh.
    { intros u w Hu Hin. pose proof (ascending_head_least _ _ _ _ Hu Hin). lia. }
    apply IH.
    + unfold ascending_dates in *. simpl in Ha. now inversion Ha.
    + unfold ascending_dates in *. simpl in Ha'. now inversion Ha'.
    + intros d. split; intros Hd.
      * destruct (proj1 (Hk d) (or_intror Hd)) as [E | Hin]; [|exact Hin].
        simpl in E. subst d. exfalso. exact (Hfresh _ _ Ha Hd).
      * destruct (proj2 (Hk d) (or_intror Hd)) as [E | Hin]; [|exact Hin].
        simpl in E. subst d. exfalso. exact (Hfresh _ _ Ha' Hd).
    + intros d. specialize (Hv d). simpl in Hv.
      destruct (k =? d) eqn:E; [|exact Hv].
      apply Z.eqb_eq in E. subst d.
      rewrite !value_at_absent; [reflexivity | exact (Hfresh _ _ Ha') | exact (Hfresh _ _ Ha)].
Qed.

Lemma engagements_by_date_value_at d df :
  value_at d (engagements_by_date df) = wrap64 (daily_sum d df).
Proof.
  destruct (engagements_by_date_spec df) as (Hasc & _ & Hsum & _).
  destruct (in_dec Z.eq_dec d (map fst (engagements_by_date df))) as [Hin | Hout].
  - apply in_map_iff in Hin. destruct Hin as ([k v] & Ek & Hin). simpl in Ek. subst k.
    rewrite (ascending_value_at d v _ Hasc Hin). now apply Hsum.
  - rewrite (value_at_absent d _ Hout).
    revert Hout. unfold engagements_by_date, groupby_sum.
    set (rs := map (fun p => (dt_date (fst p), snd p)) (sort_by_date (dropna_date df))).
    destruct (groupby_date_from rs []) as (_ & _ & G3). intros Hout.
    assert (~ In d (map fst rs)) as Hrs by (intros H; apply Hout, G3; now right).
    assert (value_at d rs = 0) as E0 by now apply value_at_absent.
    unfold rs in E0.
    rewrite (value_at_perm d _ (map (fun p => (dt_date (fst p), snd p)) (dropna_date df)))
      in E0 by (apply Permutation_map, sort_by_date_perm).
    rewrite value_at_dropna in E0. now rewrite E0.
Qed.

(** X18: the daily series, and with it the engagement insights and the
    trend statement, do not depend on the order of the rows of the table. *)
Theorem engagements_by_date_row_order (df df' : list CleanRecord) :
  Permutation df df' ->
  engagements_by_date df = engagements_by_date df' /\
  get_engagement_insights df = get_engagement_insights df' /\
  trend_rule (engagements_by_date df) = trend_rule (engagements_by_date df').
Proof.
  intros P.
  assert (engagements_by_date df = engagements_by_date df') as E.
  { destruct (engagements_by_date_spec df) as (A & K & _).
    destruct (engagements_by_date_spec df') as (A' & K' & _).
    apply ascending_dates_ext; try assumption.
    - intros d. rewrite K, K'. split; apply has_date_perm; [exact P | now apply Permutation_sym].
    - intros d. rewrite !engagements_by_date_value_at. f_equal. now apply daily_sum_perm. }
  unfold get_engagement_insights. now rewrite E.
Qed.

(** ** Locations *)

Lemma last_app_nonempty {A} (l1 l2 : list A) (d : A) :
  l2 <> [] -> last (l1 ++ l2)%list d = last l2 d.
Proof.
  intros H. induction l1 as [|a l1 IH]; [reflexivity|].
  destruct (l1 ++ l2)%list as [|b l] eqn:E.
  - destruct l1, l2; try discriminate. congruence.
  - change (last ((a :: l1) ++ l2)%list d) with (last (a :: (l1 ++ l2)%list) d).
    rewrite E. change (last (a :: b :: l) d) with (last (b :: l) d). exact IH.
Qed.

Lemma last_in_tail {A} (a d : A) (l : list A) : In (last (a :: l) d) (a :: l).
Proof.
  revert a. induction l as [|b l IH]; intros a; [now left|].
  change (last (a :: b :: l) d) with (last (b :: l) d). right. apply IH.
Qed.

(** X19: with five distinct locations at most, the second location insight
    names the last entry of the chart frame, and the first one its first
    entry. *)
Theorem location_insights_within_top5 (df : list CleanRecord) :
  df <> [] ->
  (List.length (value_counts (map location df)) <= 5)%nat ->
  exists top rest,
    create_location_bar_chart df = top :: rest /\
    get_location_insights df
    = [ BiggestFanBase (fst top) (snd top);
        NurtureAmongTop5 (fst (last rest top)) (snd (last rest top));
        KnowYourLocations ].
Proof.
  intros Hdf Hlen.
  assert (map location df <> []) as Hne by (destruct df; [congruence | discriminate]).
  destruct (sorted_counts_ends _ Hne) as (top & rest & E & _).
  exists top, rest. unfold create_location_bar_chart, get_location_insights.
  rewrite E. split; [|reflexivity].
  apply firstn_all2. rewrite <- E.
  rewrite (Permutation_length (sort_values_desc_perm _)). exact Hlen.
Qed.

(** X20: with more than five distinct locations, the location that the
    second insight presents as among the top 5 is not one of the five
    locations of the chart frame. *)
Theorem location_insight_outside_top5 (df : list CleanRecord) :
  (5 < List.length (value_counts (map location df)))%nat ->
  exists name mentions,
    nth_error (get_location_insights df) 1 = Some (NurtureAmongTop5 name mentions) /\
    List.length (create_location_bar_chart df) = 5%nat /\
    ~ In name (map fst (create_location_bar_chart df)).
Proof.
  intros Hlen.
  pose proof (sort_values_desc_perm (value_counts (map location df))) as P.
  pose proof (Permutation_length P) as Hl.
  destruct (value_counts_spec (map location df)) as (_ & _ & V3 & _).
  assert (NoDup (map fst (sort_values_desc (value_counts (map location df))))) as Hnd
    by (eapply Permutation_NoDup; [apply Permutation_map, Permutation_sym, P | exact V3]).
  unfold create_location_bar_chart, get_location_insights.
  set (full := sort_values_desc (value_counts (map location df))) in *.
  destruct full as [|top rest] eqn:E; [simpl in Hl; lia|].
  exists (fst (last rest top)), (snd (last rest top)).
  split; [reflexivity|]. split; [apply firstn_length_le; lia|].
  rewrite <- (firstn_skipn 5 (top :: rest)) in Hnd. rewrite map_app in Hnd.
  assert (In (last rest top) (skipn 5 (top :: rest))) as Hin.
  { destruct (skipn 5 (top :: rest)) as [|a tl] eqn:Es.
    - exfalso. assert (List.length (skipn 5 (top :: rest)) = 0%nat) as H0 by now rewrite Es.
      rewrite length_skipn in H0. lia.
    - assert (last rest top = last (a :: tl) top) as ->.
      { rewrite <- last_cons with (d := top).
        rewrite <- (firstn_skipn 5 (top :: rest)) at 1. rewrite Es.
        apply last_app_nonempty. discriminate. }
      apply last_in_tail. }
  intros Hfirst.
  apply (in_map fst) in Hin.
  revert Hfirst Hin. generalize (fst (last rest top)).
  clear -Hnd. intros x H1 H2.
  induction (map fst (firstn 5 (top :: rest))) as [|a l IH]; [destruct H1|].
  simpl in Hnd. inversion Hnd as [|? ? Hn Hd]; subst.
  destruct H1 as [-> | H1]; [|now apply IH].
  apply Hn. apply in_or_app. now right.
Qed.

(** ** Report body *)

Lemma split_bold_marker a b rest :
  Ascii.eqb a "*" && Ascii.eqb b "*" = true ->
  split_bold (String a (String b rest)) = EmptyString :: split_bold rest.
Proof. intros H. simpl. now rewrite H. Qed.

Lemma split_bold_plain a s :
  starts_with_marker (String a s) = false ->
  split_bold (String a s) = cons_first a (split_bold s).
Proof.
  destruct s as [|b rest]; [reflexivity|]. simpl. now intros ->.
Qed.

Lemma concat_cons_first sep a parts :
  parts <> [] ->
  String.concat sep (cons_first a parts) = String a (String.concat sep parts).
Proof.
  destruct parts as [|p ps]; [congruence|]. intros _. simpl.
  destruct ps; reflexivity.
Qed.

Lemma split_bold_first_star s a s' :
  hd EmptyString (split_bold s) = String a s' ->
  starts_with_marker s = false /\ exists r, s = String a r.
Proof.
  destruct s as [|c s0]; [discriminate|].
  destruct (starts_with_marker (String c s0)) eqn:E.
  - destruct s0 as [|b rest]; [discriminate|]. simpl in E.
    rewrite (split_bold_marker _ _ _ E). discriminate.
  - rewrite (split_bold_plain _ _ E).
    destruct (split_bold s0) as [|p ps]; simpl; intros [= -> _]; eauto.
Qed.

Lemma split_bold_spec_len (n : nat) (s : string) :
  (String.length s <= n)%nat ->
  split_bold s <> [] /\
  String.concat "**" (split_bold s) = s /\
  Forall (fun p => has_marker p = false) (split_bold s).
Proof.
  revert s. induction n as [|n IH]; intros s Hlen.
  - destruct s; [|simpl in Hlen; lia]. simpl. repeat split; [discriminate|].
    repeat constructor.
  - destruct s as [|a s']; [simpl; repeat split; [discriminate | repeat constructor]|].
    simpl in Hlen.
    destruct (starts_with_marker (String a s')) eqn:E.
    + destruct s' as [|b rest]; [discriminate|]. simpl in E, Hlen.
      rewrite (split_bold_marker _ _ _ E).
      destruct (IH rest ltac:(lia)) as (I1 & I2 & I3).
      apply andb_true_iff in E. destruct E as [Ea Eb].
      apply Ascii.eqb_eq in Ea, Eb. subst a b.
      split; [discriminate|]. split; [|constructor; [reflexivity | exact I3]].
      destruct (split_bold rest) as [|p ps] eqn:Er; [congruence|].
      change (String.concat "**" (EmptyString :: p :: ps))
        with (("" ++ "**" ++ String.concat "**" (p :: ps))%string).
      now rewrite I2.
    + rewrite (split_bold_plain _ _ E).
      destruct (IH s' ltac:(lia)) as (I1 & I2 & I3).
      split; [destruct (split_bold s'); discriminate|].
      split; [now rewrite concat_cons_first, I2|].
      destruct (split_bold s') as [|p ps] eqn:Es; [congruence|].
      apply Forall_cons_iff in I3. destruct I3 as [Hp Hps].
      simpl. constructor; [|exact Hps].
      destruct p as [|c p']; [reflexivity|].
      change (has_marker (String a (String c p')))
        with (Ascii.eqb a "*" && Ascii.eqb c "*" || has_marker (String c p')).
      rewrite Hp, orb_false_r.
      destruct (Ascii.eqb a "*" && Ascii.eqb c "*") eqn:Em; [|reflexivity].
      exfalso. apply andb_true_iff in Em. destruct Em as [Ea Ec].
      assert (hd EmptyString (split_bold s') = String c p') as Hhd by now rewrite Es.
      destruct (split_bold_first_star _ _ _ Hhd) as [_ [r ->]].
      simpl in E. rewrite Ea, Ec in E. discriminate.
Qed.

Lemma split_bold_parts (s : string) :
  String.concat "**" (split_bold s) = s /\
  Forall (fun p => has_marker p = false) (split_bold s).
Proof.
  destruct (split_bold_spec_len (String.length s) s (le_n _)) as (_ & H2 & H3).
  now split.
Qed.

(** X21: the parts into which a line is split at the emphasis markers,
    joined again with the marker between them, give back the line; no part
    holds a marker, and there is always one part at least. *)
Theorem split_bold_join (s : string) :
  split_bold s <> [] /\
  String.concat "**" (split_bold s) = s /\
  Forall (fun p => has_marker p = false) (split_bold s).
Proof. exact (split_bold_spec_len (String.length s) s (le_n _)). Qed.

Lemma writes_of_parts b i parts :
  writes_from b (write_parts i parts ++ [LineBreak])
  = combine (map Nat.odd (seq i (List.length parts))) parts.
Proof.
  revert b i. induction parts as [|p ps IH]; intros b i; [reflexivity|].
  simpl. now rewrite IH.
Qed.

Lemma line_breaks_app l1 l2 :
  line_breaks (l1 ++ l2) = (line_breaks l1 + line_breaks l2)%nat.
Proof.
  induction l1 as [|[b|t|] l1 IH]; simpl; auto.
Qed.

Lemma line_breaks_write_parts i parts : line_breaks (write_parts i parts) = 0%nat.
Proof. revert i. induction parts as [|p ps IH]; intros i; simpl; auto. Qed.

Lemma snd_combine_flags (parts : list string) i :
  map snd (combine (map Nat.odd (seq i (List.length parts))) parts) = parts.
Proof.
  revert i. induction parts as [|p ps IH]; intros i; simpl; [reflexivity|].
  now rewrite IH.
Qed.

Lemma nth_combine_flags (parts : list string) i k b t :
  nth_error (combine (map Nat.odd (seq i (List.length parts))) parts) k = Some (b, t) ->
  b = Nat.odd (i + k) /\ In t parts.
Proof.
  revert i k. induction parts as [|p ps IH]; intros i k; simpl.
  - destruct k; discriminate.
  - destruct k as [|k]; simpl.
    + intros [= <- <-]. rewrite Nat.add_0_r. auto.
    + intros H. apply IH in H. rewrite Nat.add_succ_r. simpl in H. tauto.
Qed.

(** X22: a line that is not blank is written as its stripped text without a
    leading bullet, cut at the emphasis markers: the texts written, joined
    with the marker, are that text; the first, third, ... text is written in
    the regular style and the second, fourth, ... in bold, whatever style was
    in force before the line; and the line ends with one line break. *)
Theorem line_calls_alternate (line_raw : string) (b0 : bool) :
  strip line_raw <> "" ->
  String.concat "**" (map snd (writes_from b0 (line_calls line_raw)))
    = drop_bullet (strip line_raw) /\
  (forall k b t, nth_error (writes_from b0 (line_calls line_raw)) k = Some (b, t) ->
                 b = Nat.odd k /\ has_marker t = false) /\
  line_breaks (line_calls line_raw) = 1%nat.
Proof.
  intros Hne. unfold line_calls.
  apply String.eqb_neq in Hne. rewrite Hne. rewrite writes_of_parts.
  destruct (split_bold_parts (drop_bullet (strip line_raw))) as [J1 J2].
  split; [now rewrite snd_combine_flags|]. split.
  - intros k b t H. apply nth_combine_flags in H. destruct H as [-> Hin].
    split; [reflexivity|]. rewrite Forall_forall in J2. now apply J2.
  - now rewrite line_breaks_app, line_breaks_write_parts.
Qed.

Lemma write_parts_texts i parts t :
  In (WriteText t) (write_parts i parts) -> In t parts.
Proof.
  revert i. induction parts as [|p ps IH]; intros i; simpl; [tauto|].
  intros [H | [H | H]]; [discriminate | injection H as ->; now left | right; eauto].
Qed.

Lemma line_calls_breaks line_raw :
  line_breaks (line_calls line_raw)
  = if String.eqb (strip line_raw) "" then 0%nat else 1%nat.
Proof.
  unfold line_calls. destruct (String.eqb (strip line_raw) ""); [reflexivity|].
  now rewrite line_breaks_app, line_breaks_write_parts.
Qed.

Lemma line_breaks_lines (lines : list string) :
  line_breaks (flat_map line_calls lines)
  = List.length (filter (fun l => negb (String.eqb (strip l) "")) lines).
Proof.
  induction lines as [|l ls IH]; simpl; [reflexivity|].
  rewrite line_breaks_app, line_calls_breaks, IH.
  now destruct (String.eqb (strip l) "").
Qed.

(** X23: [chapter_body] never writes an emphasis marker, and it breaks the
    line once for every line of the text that is not blank and once more at
    the end. *)
Theorem chapter_body_calls (body_text : string) :
  (forall t, In (WriteText t) (chapter_body body_text) -> has_marker t = false) /\
  line_breaks (chapter_body body_text)
  = S (List.length (filter (fun l => negb (String.eqb (strip l) ""))
                      (split_char newline body_text))).
Proof.
  unfold chapter_body. split.
  - intros t [H | H]; [discriminate|].
    apply in_app_or in H. destruct H as [H | [H | []]]; [|discriminate].
    apply in_flat_map in H. destruct H as (l & _ & H). unfold line_calls in H.
    destruct (String.eqb (strip l) ""); [destruct H|].
    apply in_app_or in H. destruct H as [H | [H | []]]; [|discriminate].
    apply write_parts_texts in H.
    destruct (split_bold_parts (drop_bullet (strip l))) as [_ J].
    rewrite Forall_forall in J. now apply J.
  - simpl. rewrite line_breaks_app, line_breaks_lines. simpl. lia.
Qed.

Example chapter_body_insight :
  writes_from false (chapter_body "- **1.** Wow! Peak on **2024-01-02** today")
  = [(false, ""); (true, "1."); (false, " Wow! Peak on "); (true, "2024-01-02");
     (false, " today")].
Proof. reflexivity. Qed.

(** ** Record cleaner: causes of failure, headers, dates *)

Section RecordCleanerCauses.

Variable pd : Pandas.

Lemma clean_row_raise (get : string -> Lookup) (e : exn) :
  clean_row pd get = Raise e ->
  (e = AttributeError /\ exists v, get "engagements" = One v /\ notna v = true) \/
  (e = ValueError /\ exists col vs, In col expected_columns /\ get col = Many vs).
Proof.
  unfold clean_row. intros H.
  assert (forall col vs, In col expected_columns -> get col = Many vs ->
            ValueError = e ->
            (e = AttributeError /\ exists v, get "engagements" = One v /\ notna v = true) \/
            (e = ValueError /\ exists col vs, In col expected_columns /\ get col = Many vs))
    as Hmany by (intros col vs Hin Hg <-; right; eauto).
  destruct (get "date") as [vd|vs] eqn:Ed;
    [|simpl in H; injection H as H; apply (Hmany "date" vs); simpl; tauto].
  rewrite clean_date_one in H. simpl in H.
  destruct (get "platform") as [vp|vs] eqn:Ep;
    [|simpl in H; injection H as H; apply (Hmany "platform" vs); simpl; tauto].
  rewrite clean_text_one in H. simpl in H.
  destruct (get "sentiment") as [vs|vs] eqn:Es;
    [|simpl in H; injection H as H; apply (Hmany "sentiment" vs); simpl; tauto].
  rewrite clean_text_one in H. simpl in H.
  destruct (get "location") as [vl|vs'] eqn:El;
    [|simpl in H; injection H as H; apply (Hmany "location" vs'); simpl; tauto].
  rewrite clean_text_one in H. simpl in H.
  destruct (get "engagements") as [ve|vs'] eqn:Ee;
    [|simpl in H; injection H as H; apply (Hmany "engagements" vs'); simpl; tauto].
  rewrite clean_engagements_one in H.
  destruct (notna ve) eqn:Ena.
  { left. simpl in H. injection H as <-. split; [reflexivity|]. eauto. }
  simpl in H.
  destruct (get "mediatype") as [vm|vs'] eqn:Em;
    [|simpl in H; injection H as H; apply (Hmany "mediatype" vs'); simpl; tauto].
  rewrite clean_text_one in H. simpl in H. discriminate.
Qed.

Lemma clean_rows_raise cols rs e :
  clean_rows pd cols rs = Raise e ->
  exists row, In row rs /\ clean_row pd (row_get cols row) = Raise e.
Proof.
  induction rs as [|row rs IH]; simpl; [discriminate|].
  destruct (clean_row pd (row_get cols row)) as [r|e'] eqn:Er; simpl.
  - destruct (clean_rows pd cols rs) as [out|e'] eqn:Eo; simpl; [discriminate|].
    intros [= <-]. destruct (IH eq_refl) as (row' & Hin & Hrow). eauto.
  - intros [= <-]. eauto.
Qed.

(** X24: when [process_csv] raises, the cause is in one row: an
    [AttributeError] comes from an engagements cell that is present, a
    [ValueError] from an expected label that several headers bear. *)
Theorem process_csv_raise_causes (df : DataFrame) (e : exn) :
  process_csv pd df = Raise e ->
  exists row, In row (rows df) /\
    ((e = AttributeError /\
      exists v, row_get (normalized_headers df) row "engagements" = One v /\
                notna v = true) \/
     (e = ValueError /\
      exists col vs, In col expected_columns /\
                     row_get (normalized_headers df) row col = Many vs)).
Proof.
  unfold process_csv. destruct (df_empty df); [discriminate|]. intros H.
  apply clean_rows_raise in H. destruct H as (row & Hin & Hrow).
  exists row. split; [exact Hin|]. now apply clean_row_raise.
Qed.

(** The cleaner sees the headers through the normaliser only: two
    frames with the same rows whose headers normalise alike, one by one, get
    the same answer. *)
Theorem process_csv_header_spelling (df df' : DataFrame) :
  normalized_headers df = normalized_headers df' ->
  rows df = rows df' ->
  process_csv pd df = process_csv pd df'.
Proof.
  intros Hh Hr. unfold process_csv, df_empty. rewrite Hh, Hr.
  unfold normalized_headers in Hh.
  destruct (columns df) as [|c cs], (columns df') as [|c' cs']; try discriminate;
    reflexivity.
Qed.

(** X25: in a cleaned row the date is what [to_datetime] makes of the date
    cell when that cell is present, and the missing-date marker when the cell
    is missing; so a record is dated exactly when its date cell is present and
    readable as a date. *)
Theorem process_csv_date_field (df : DataFrame) out i row r :
  process_csv pd df = Ok out ->
  nth_error (rows df) i = Some row ->
  nth_error out i = Some r ->
  exists v,
    row_get (normalized_headers df) row "date" = One v /\
    date r = (if notna v then to_datetime pd v else None) /\
    (date r <> None <-> notna v = true /\ to_datetime pd v <> None).
Proof.
  intros H Hrow Hr.
  pose proof (process_csv_row _ _ _ _ _ _ H Hrow Hr) as Hc.
  apply clean_row_ok in Hc.
  destruct Hc as (vd & vp & vs & vl & ve & vm & Hd & _ & _ & _ & _ & _ & _ & ->).
  exists vd. simpl. split; [exact Hd|]. split; [reflexivity|].
  destruct (notna vd); split; try tauto; intros; try congruence.
  destruct H0. congruence.
Qed.

End RecordCleanerCauses.

(** ** The further properties on the sample data *)

Lemma process_csv_row_count_witness :
  (df_empty upload_without_engagements = true -> [record_without_engagements] = []) /\
  (df_empty upload_without_engagements = false ->
   List.length [record_without_engagements]
   = List.length (rows upload_without_engagements) /\
   forall i row, nth_error (rows upload_without_engagements) i = Some row ->
     exists r, nth_error [record_without_engagements] i = Some r /\
               clean_row sample_pandas
                 (row_get (normalized_headers upload_without_engagements) row) = Ok r).
Proof.
  apply (process_csv_row_count sample_pandas upload_without_engagements
           [record_without_engagements]).
  reflexivity.
Defined.

Lemma process_csv_missing_column_defaults_witness :
  (~ In "date" (normalized_headers upload_blank_platform) ->
   date record_blank_platform = None) /\
  (~ In "platform" (normalized_headers upload_blank_platform) ->
   platform record_blank_platform = "Unknown") /\
  (~ In "sentiment" (normalized_headers upload_blank_platform) ->
   sentiment record_blank_platform = "Unknown") /\
  (~ In "location" (normalized_headers upload_blank_platform) ->
   location record_blank_platform = "Unknown") /\
  (~ In "mediatype" (normalized_headers upload_blank_platform) ->
   mediatype record_blank_platform = "Unknown Media Type").
Proof.
  apply (process_csv_missing_column_defaults sample_pandas upload_blank_platform
           [record_blank_platform] 0%nat [VStr "   "] record_blank_platform);
    reflexivity.
Defined.

Lemma process_csv_reads_expected_cells_witness :
  process_csv sample_pandas upload_with_notes
  = process_csv sample_pandas upload_without_engagements.
Proof.
  apply (process_csv_reads_expected_cells sample_pandas upload_with_notes
           upload_without_engagements).
  - reflexivity.
  - constructor; [|constructor].
    intros col Hin. simpl in Hin.
    repeat (destruct Hin as [<- | Hin]; [reflexivity|]). destruct Hin.
Defined.

Lemma process_csv_duplicate_label_raises_witness :
  exists e, process_csv sample_pandas upload_two_date_columns = Raise e.
Proof.
  apply (process_csv_duplicate_label_raises sample_pandas upload_two_date_columns "date").
  - reflexivity.
  - simpl. auto.
  - vm_compute. lia.
  - repeat constructor.
Defined.

Lemma process_csv_text_fields_stripped_witness :
  strip (platform record_without_engagements) = platform record_without_engagements /\
  strip (sentiment record_without_engagements) = sentiment record_without_engagements /\
  strip (location record_without_engagements) = location record_without_engagements /\
  strip (mediatype record_without_engagements) = mediatype record_without_engagements.
Proof.
  apply (process_csv_text_fields_stripped sample_pandas upload_without_engagements
           [record_without_engagements] 0%nat row_without_engagements
           record_without_engagements);
    reflexivity.
Defined.

Lemma get_sentiment_insights_ends_witness :
  exists top bottom,
    In top (create_sentiment_pie_chart ten_posts) /\
    In bottom (create_sentiment_pie_chart ten_posts) /\
    (forall x, rows_with sentiment x ten_posts <= snd top) /\
    (forall x, In x (map sentiment ten_posts) ->
               snd bottom <= rows_with sentiment x ten_posts) /\
    ((forall r r', In r ten_posts -> In r' ten_posts -> sentiment r = sentiment r') ->
     get_sentiment_insights ten_posts
     = [ MostCommonSentiment (fst top)
           (percent_of (snd top) (Z.of_nat (List.length ten_posts)));
         OnlyOneSentiment; SentimentSpread ]) /\
    (~ (forall r r', In r ten_posts -> In r' ten_posts -> sentiment r = sentiment r') ->
     get_sentiment_insights ten_posts
     = [ MostCommonSentiment (fst top)
           (percent_of (snd top) (Z.of_nat (List.length ten_posts)));
         LeastCommonSentiment (fst bottom)
           (percent_of (snd bottom) (Z.of_nat (List.length ten_posts)));
         SentimentSpread ]).
Proof.
  apply (get_sentiment_insights_ends ten_posts). discriminate.
Defined.

Lemma platform_bar_chart_frame_witness :
  NoDup (map fst (create_platform_bar_chart two_days)) /\
  (forall p, In p (map fst (create_platform_bar_chart two_days))
             <-> In p (map platform two_days)) /\
  (forall p v, In (p, v) (create_platform_bar_chart two_days) ->
     v = wrap64 (platform_sum p two_days)) /\
  series_sum (create_platform_bar_chart two_days) = wrap64 (all_engagements two_days) /\
  ranked (create_platform_bar_chart two_days) /\
  (sums_fit_int64 two_days ->
   (forall p v, In (p, v) (create_platform_bar_chart two_days) ->
      v = platform_sum p two_days) /\
   sum_values (create_platform_bar_chart two_days) = all_engagements two_days).
Proof.
  apply (platform_bar_chart_frame two_days).
  repeat constructor; simpl; unfold int64_min, int64_max; lia.
Defined.

Lemma get_platform_insights_ends_witness :
  (two_days = [] -> get_platform_insights two_days = [NoPlatformData]) /\
  (two_days <> [] ->
   exists best worst,
     In best (map platform two_days) /\ In worst (map platform two_days) /\
     (forall p, In p (map platform two_days) ->
        wrap64 (platform_sum worst two_days) <= wrap64 (platform_sum p two_days)
        <= wrap64 (platform_sum best two_days)) /\
     get_platform_insights two_days
     = [ SuperstarPlatform best (wrap64 (platform_sum best two_days));
         FewestEngagements worst (wrap64 (platform_sum worst two_days));
         PlatformSpread ]) /\
  (sums_fit_int64 two_days ->
   forall p, wrap64 (platform_sum p two_days) = platform_sum p two_days).
Proof.
  apply (get_platform_insights_ends two_days).
  repeat constructor; simpl; unfold int64_min, int64_max; lia.
Defined.

Lemma engagement_stats_bounds_witness :
  min_engagements two_days_stats <= max_engagements two_days_stats /\
  in_int64 (total_engagements two_days_stats) /\
  Z.of_nat (List.length (engagements_by_date two_days)) * min_engagements two_days_stats
  <= total_engagements two_days_stats /\
  total_engagements two_days_stats
  <= Z.of_nat (List.length (engagements_by_date two_days)) * max_engagements two_days_stats.
Proof.
  assert (Forall (fun p => in_int64 (snd p)) (engagements_by_date two_days)) as Hint.
  { change (engagements_by_date two_days) with [(19723, 5); (19724, 15)].
    repeat constructor; simpl; unfold int64_min, int64_max; lia. }
  destruct (engagement_stats_bounds (engagements_by_date two_days) two_days_stats
              Hint eq_refl) as (H1 & H2 & H3).
  split; [exact H1|]. split; [exact H2|].
  apply H3. unfold in_int64, int64_min, int64_max. simpl. lia.
Defined.

Lemma engagements_by_date_row_order_witness :
  engagements_by_date two_days = engagements_by_date (rev two_days) /\
  get_engagement_insights two_days = get_engagement_insights (rev two_days) /\
  trend_rule (engagements_by_date two_days)
  = trend_rule (engagements_by_date (rev two_days)).
Proof.
  apply (engagements_by_date_row_order two_days (rev two_days)).
  apply perm_swap.
Defined.

Lemma location_insights_within_top5_witness :
  exists top rest,
    create_location_bar_chart two_days = top :: rest /\
    get_location_insights two_days
    = [ BiggestFanBase (fst top) (snd top);
        NurtureAmongTop5 (fst (last rest top)) (snd (last rest top));
        KnowYourLocations ].
Proof.
  apply (location_insights_within_top5 two_days).
  - discriminate.
  - vm_compute. lia.
Defined.

Lemma location_insight_outside_top5_witness :
  exists name mentions,
    nth_error (get_location_insights seven_locations) 1
      = Some (NurtureAmongTop5 name mentions) /\
    List.length (create_location_bar_chart seven_locations) = 5%nat /\
    ~ In name (map fst (create_location_bar_chart seven_locations)).
Proof.
  apply (location_insight_outside_top5 seven_locations).
  vm_compute. lia.
Defined.

Lemma line_calls_alternate_witness :
  String.concat "**" (map snd (writes_from true (line_calls "  - **1.** Wow! ")))
    = drop_bullet (strip "  - **1.** Wow! ") /\
  (forall k b t,
     nth_error (writes_from true (line_calls "  - **1.** Wow! ")) k = Some (b, t) ->
     b = Nat.odd k /\ has_marker t = false) /\
  line_breaks (line_calls "  - **1.** Wow! ") = 1%nat.
Proof.
  apply (line_calls_alternate "  - **1.** Wow! " true).
  vm_compute. discriminate.
Defined.

Lemma process_csv_raise_causes_witness :
  exists row, In row (rows upload_with_engagements) /\
    ((AttributeError = AttributeError /\
      exists v, row_get (normalized_headers upload_with_engagements) row "engagements"
                = One v /\ notna v = true) \/
     (AttributeError = ValueError /\
      exists col vs, In col expected_columns /\
                     row_get (normalized_headers upload_with_engagements) row col
                     = Many vs)).
Proof.
  apply (process_csv_raise_causes sample_pandas upload_with_engagements AttributeError).
  reflexivity.
Defined.

Lemma process_csv_header_spelling_witness :
  process_csv sample_pandas upload_without_engagements
  = process_csv sample_pandas
      {| columns := ["DATE"; " platform"; "Senti-ment"; "LOCATION "; "media_type"];
         rows := rows upload_without_engagements |}.
Proof.
  apply (process_csv_header_spelling sample_pandas upload_without_engagements
           {| columns := ["DATE"; " platform"; "Senti-ment"; "LOCATION "; "media_type"];
              rows := rows upload_without_engagements |});
    reflexivity.
Defined.

Lemma process_csv_date_field_witness :
  exists v,
    row_get (normalized_headers upload_without_engagements) row_without_engagements "date"
      = One v /\
    date record_without_engagements
      = (if notna v then to_datetime sample_pandas v else None) /\
    (date record_without_engagements <> None <->
     notna v = true /\ to_datetime sample_pandas v <> None).
Proof.
  apply (process_csv_date_field sample_pandas upload_without_engagements
           [record_without_engagements] 0%nat row_without_engagements
           record_without_engagements);
    reflexivity.
Defined.
